(** * Speaker-attributed transcription pipeline: a shallow embedding

    The development follows the Python sources file by file:
    [audio_transcriber.py] (module [AudioTranscriber]), [audio_processor.py]
    (module [AudioProcessor]), [main.py] (module [Main]) and the upload
    section of [app.py] / [web_app.py] (modules [App] and [WebApp]).

    The diarization model, the speech recogniser, the video demuxer and the
    audio cropper are third-party collaborators.  They are not re-specified:
    an [Env] record holds what each of them answers, and the embedding
    covers the orchestration code around them, with explicit state passing
    for the object fields and the file system, and an explicit result type
    for Python exceptions.  Calls of [logging] are left out: they return
    nothing and change nothing the code reads. *)

From Stdlib Require Import ZArith NArith QArith Qround List String Ascii Lia.
From stdpp Require Import base gmap sets list numbers.

Set Default Proof Using "Type".
Local Open Scope Z_scope.

(* ===================================================================== *)
(** * Python strings *)
(* ===================================================================== *)

(** A Python [str] is a sequence of Unicode code points. *)
Definition str := list N.

(** String literals of the sources are written as Rocq strings, which hold
    the UTF-8 bytes of the source text; [u] decodes them to code points. *)
Fixpoint utf8_decode (bs : list N) : str :=
  match bs with
  | [] => []
  | b0 :: r0 =>
    if (b0 <? 128)%N then b0 :: utf8_decode r0
    else match r0 with
    | [] => [b0]
    | b1 :: r1 =>
      if (b0 <? 224)%N then ((b0 - 192) * 64 + (b1 - 128))%N :: utf8_decode r1
      else match r1 with
      | [] => [b0; b1]
      | b2 :: r2 =>
        if (b0 <? 240)%N
        then ((b0 - 224) * 4096 + (b1 - 128) * 64 + (b2 - 128))%N :: utf8_decode r2
        else match r2 with
        | [] => [b0; b1; b2]
        | b3 :: r3 =>
          ((b0 - 240) * 262144 + (b1 - 128) * 4096 + (b2 - 128) * 64 + (b3 - 128))%N
            :: utf8_decode r3
        end
      end
    end
  end.

Definition u (s : string) : str :=
  utf8_decode (map N_of_ascii (list_ascii_of_string s)).
Arguments u : simpl never.

(** [not s] for a string: the empty string is falsy. *)
Definition is_empty (s : str) : bool :=
  match s with [] => true | _ :: _ => false end.

(** The code points [str.strip()] removes when called without argument
    (CPython's [_PyUnicode_IsWhitespace]). *)
Definition is_space (c : N) : bool :=
  ((9 <=? c) && (c <=? 13) || (28 <=? c) && (c <=? 32)
   || (c =? 133) || (c =? 160) || (c =? 5760)
   || (8192 <=? c) && (c <=? 8202)
   || (c =? 8232) || (c =? 8233) || (c =? 8239) || (c =? 8287)
   || (c =? 12288))%N.

Fixpoint lstrip (s : str) : str :=
  match s with
  | [] => []
  | c :: r => if is_space c then lstrip r else s
  end.

Definition rstrip (s : str) : str := rev (lstrip (rev s)).

Definition strip (s : str) : str := rstrip (lstrip s).

(** [sep.join(lines)] *)
Fixpoint join (sep : str) (lines : list str) : str :=
  match lines with
  | [] => []
  | [l] => l
  | l :: rest => l ++ sep ++ join sep rest
  end.

(** [str.lower()], as far as a comparison with the ASCII suffixes of the
    sources can tell: besides [A-Z], KELVIN SIGN (U+212A) is the only code
    point whose lower-case form is an ASCII letter. *)
Definition lower_char (c : N) : N :=
  if ((65 <=? c) && (c <=? 90))%N then (c + 32)%N
  else if (c =? 8490)%N then 107%N
  else c.

Definition lower (s : str) : str := map lower_char s.

(** Decimal rendering of a non-negative integer, [str(n)] / [f"{n}"]. *)
Fixpoint digits_from (fuel : nat) (n : N) (acc : str) : str :=
  match fuel with
  | O => acc
  | S fuel' =>
    let acc' := (48 + n mod 10)%N :: acc in
    if (n / 10 =? 0)%N then acc' else digits_from fuel' (n / 10)%N acc'
  end.

Definition str_of_N (n : N) : str := digits_from (S (N.to_nat (N.log2 n))) n [].

Definition str_of_nat (n : nat) : str := str_of_N (N.of_nat n).

(** The value a string of decimal digits denotes (the reading direction of
    [str_of_N]). *)
Definition N_of_digits (s : str) : N :=
  fold_left (fun acc d => (10 * acc + (d - 48))%N) s 0%N.

(** [f"{z:02}"]: sign-aware zero padding to width two; the sign counts in
    the width, so a negative number is never padded. *)
Definition fmt_02 (z : Z) : str :=
  if z <? 0 then u"-" ++ str_of_N (Z.to_N (- z))
  else if z <? 10 then u"0" ++ str_of_N (Z.to_N z)
  else str_of_N (Z.to_N z).

(* ===================================================================== *)
(** * Python numbers *)
(* ===================================================================== *)

(** Times are Python floats.  Every finite float is a rational, and the
    operations the sources apply to times ([int], [<] against a constant)
    are exact on floats, so seconds are modelled in [Q]; NaN and the
    infinities are outside the model. *)

(** [int(x)]: truncation toward zero. *)
Definition py_int (x : Q) : Z := Z.quot (Qnum x) (Zpos (Qden x)).

(** [divmod(a, b)] on integers: floor division and its remainder. *)
Definition divmod (a b : Z) : Z * Z := (a / b, a mod b).

Definition Qlt_bool (x y : Q) : bool := negb (Qle_bool y x).

(* ===================================================================== *)
(** * Exceptions and the state-and-exception monad *)
(* ===================================================================== *)

Inductive exn : Type :=
| RuntimeError (msg : str)
| ValueError (msg : str)
| ZeroDivisionError
| AttributeError          (* attribute access on [None] *)
| TypeError               (* call of [None] *)
| FileNotFoundError (path : str)
| OSError (msg : str)     (* [open] or [write] refused by the system *)
| ModelError (msg : str)  (* an [Exception] raised inside a collaborator *)
| SystemExit (code : Z)
| KeyboardInterrupt.

(** [except Exception] does not catch [SystemExit] or [KeyboardInterrupt],
    which derive from [BaseException] only. *)
Definition is_Exception (e : exn) : bool :=
  match e with
  | SystemExit _ | KeyboardInterrupt => false
  | _ => true
  end.

(** [str(e)], as interpolated by the f-strings of the sources. *)
Definition exn_str (e : exn) : str :=
  match e with
  | RuntimeError msg | ValueError msg | ModelError msg | OSError msg => msg
  | ZeroDivisionError => u"division by zero"
  | AttributeError => u"'NoneType' object has no attribute"
  | TypeError => u"'NoneType' object is not callable"
  | FileNotFoundError path => path
  | SystemExit code => if code <? 0 then u"-" ++ str_of_N (Z.to_N (- code))
                       else str_of_N (Z.to_N code)
  | KeyboardInterrupt => []
  end.

Inductive Res (A : Type) : Type :=
| Ok (a : A)
| Raise (e : exn).
Arguments Ok {A} a.
Arguments Raise {A} e.

(** What a collaborator answers: a value, or an [Exception] with a message. *)
Inductive outcome (A : Type) : Type :=
| Returns (a : A)
| Fails (msg : str).
Arguments Returns {A} a.
Arguments Fails {A} msg.

Section Monad.
Context {S : Type}.

(** A computation over a state [S]; the state survives an exception. *)
Definition M (A : Type) : Type := S -> Res A * S.

Definition ret {A} (a : A) : M A := fun s => (Ok a, s).

Definition raise {A} (e : exn) : M A := fun s => (Raise e, s).

Definition bind {A B} (c : M A) (k : A -> M B) : M B :=
  fun s => match c s with
           | (Ok a, s') => k a s'
           | (Raise e, s') => (Raise e, s')
           end.

Definition get : M S := fun s => (Ok s, s).

Definition modify (f : S -> S) : M unit := fun s => (Ok tt, f s).

(** [try: c  except Exception as e: handler e] *)
Definition try_except {A} (c : M A) (handler : exn -> M A) : M A :=
  fun s => match c s with
           | (Ok a, s') => (Ok a, s')
           | (Raise e, s') =>
             if is_Exception e then handler e s' else (Raise e, s')
           end.

(** [try: c  finally: fin].  The [finally] block runs on every exit; an
    exception of its own replaces the pending outcome. *)
Definition try_finally {A} (c : M A) (fin : M unit) : M A :=
  fun s => match c s with
           | (r, s') =>
             match fin s' with
             | (Ok _, s'') => (r, s'')
             | (Raise e, s'') => (Raise e, s'')
             end
           end.
End Monad.
Arguments M : clear implicits.

Declare Scope py_scope.
Delimit Scope py_scope with py.
Notation "x <- c1 ;; c2" := (bind c1 (fun x => c2))
  (at level 100, c1 at next level, right associativity) : py_scope.
Notation "c1 ;; c2" := (bind c1 (fun _ => c2))
  (at level 100, c2 at level 200, only parsing, right associativity) : py_scope.
Local Open Scope py_scope.

(* ===================================================================== *)
(** * The world outside the orchestrators *)
(* ===================================================================== *)

(** pyannote's [Segment], through the attributes the sources read. *)
Record Segment : Type := {
  seg_start : Q;
  seg_end : Q;
  seg_duration : Q
}.

(** A tensor returned by [Audio.crop], through [ndim] and [shape[-1]]. *)
Record Waveform : Type := {
  ndim : nat;
  samples : list Q
}.

Definition shape_last (w : Waveform) : Z := Z.of_nat (length (samples w)).

(** One item of [itertracks(yield_label=True)]: the segment and its label
    (the track name in the middle is bound to [_] by both loops). *)
Definition Track : Type := Segment * str.

(** Object identity of the loaded models. *)
Definition handle := nat.

Inductive load_step : Type :=
| LoadPipeline        (* Pipeline.from_pretrained *)
| PipelineToDevice    (* pipeline.to(device) *)
| LoadProcessor       (* WhisperProcessor.from_pretrained *)
| LoadModel.          (* WhisperForConditionalGeneration.from_pretrained(..).to(device) *)

(** What happens when a report is saved with [open(path, 'w')] and
    [f.write(..)]. *)
Inductive write_outcome : Type :=
| OpenFails (msg : str)     (* open raises: no directory, no permission, .. *)
| WriteFails (msg : str)    (* the file is opened, then write raises *)
| WriteOk.

Inductive video_outcome : Type :=
| VideoOpenFails (msg : str)    (* VideoFileClip(..) raises *)
| VideoNoAudio                  (* video.audio is None *)
| VideoWriteFails (msg : str)   (* write_audiofile raises *)
| VideoWriteOk.

(** The collaborators' answers.  Their errors are [Exception]s. *)
Record Env : Type := {
  MOVIEPY_AVAILABLE : bool;
  load_answer : load_step -> option str;      (* [Some msg]: the step raises *)
  VideoFileClip : str -> video_outcome;
  diarize : str -> outcome (list Track);
  crop : str -> Segment -> outcome (Waveform * Z);
  whisper : Waveform -> Z -> outcome str;
  write_answer : str -> write_outcome;        (* saving to the path *)
  now : str                                   (* datetime.now().strftime(..) *)
}.

(** The mutable surroundings: files, and a record of what was done. *)
Record World : Type := {
  files : gset str;                  (* paths that exist *)
  unlink_log : list str;             (* successful unlink calls, latest first *)
  tmp_counter : nat;                 (* names handed out by mkstemp *)
  next_id : handle;                  (* objects created so far *)
  crop_log : list (str * Segment);   (* calls of Audio.crop, latest first *)
  asr_log : list (Waveform * Z);     (* runs of the Whisper model, latest first *)
  written : list (str * str);        (* files written with open(.., 'w') *)
  stdout : list str                  (* printed lines, latest first *)
}.

Definition set_files (f : gset str -> gset str) (w : World) : World :=
  {| files := f (files w); unlink_log := unlink_log w;
     tmp_counter := tmp_counter w; next_id := next_id w;
     crop_log := crop_log w; asr_log := asr_log w;
     written := written w; stdout := stdout w |}.

Definition set_unlink_log (f : list str -> list str) (w : World) : World :=
  {| files := files w; unlink_log := f (unlink_log w);
     tmp_counter := tmp_counter w; next_id := next_id w;
     crop_log := crop_log w; asr_log := asr_log w;
     written := written w; stdout := stdout w |}.

Definition set_tmp_counter (f : nat -> nat) (w : World) : World :=
  {| files := files w; unlink_log := unlink_log w;
     tmp_counter := f (tmp_counter w); next_id := next_id w;
     crop_log := crop_log w; asr_log := asr_log w;
     written := written w; stdout := stdout w |}.

Definition set_next_id (f : handle -> handle) (w : World) : World :=
  {| files := files w; unlink_log := unlink_log w;
     tmp_counter := tmp_counter w; next_id := f (next_id w);
     crop_log := crop_log w; asr_log := asr_log w;
     written := written w; stdout := stdout w |}.

Definition set_crop_log (f : list (str * Segment) -> list (str * Segment))
    (w : World) : World :=
  {| files := files w; unlink_log := unlink_log w;
     tmp_counter := tmp_counter w; next_id := next_id w;
     crop_log := f (crop_log w); asr_log := asr_log w;
     written := written w; stdout := stdout w |}.

Definition set_asr_log (f : list (Waveform * Z) -> list (Waveform * Z))
    (w : World) : World :=
  {| files := files w; unlink_log := unlink_log w;
     tmp_counter := tmp_counter w; next_id := next_id w;
     crop_log := crop_log w; asr_log := f (asr_log w);
     written := written w; stdout := stdout w |}.

Definition set_written (f : list (str * str) -> list (str * str))
    (w : World) : World :=
  {| files := files w; unlink_log := unlink_log w;
     tmp_counter := tmp_counter w; next_id := next_id w;
     crop_log := crop_log w; asr_log := asr_log w;
     written := f (written w); stdout := stdout w |}.

Definition set_stdout (f : list str -> list str) (w : World) : World :=
  {| files := files w; unlink_log := unlink_log w;
     tmp_counter := tmp_counter w; next_id := next_id w;
     crop_log := crop_log w; asr_log := asr_log w;
     written := written w; stdout := f (stdout w) |}.

(** An orchestrator object together with its surroundings. *)
Record Machine (O : Type) : Type := {
  self : O;
  world : World
}.
Arguments self {O} _.
Arguments world {O} _.
Arguments Build_Machine {O} _ _.

Section WorldOps.
Context {O : Type}.

Definition with_world (f : World -> World) : M (Machine O) unit :=
  modify (fun m => {| self := self m; world := f (world m) |}).

Definition with_self (f : O -> O) : M (Machine O) unit :=
  modify (fun m => {| self := f (self m); world := world m |}).

Definition get_self : M (Machine O) O := fun m => (Ok (self m), m).

Definition get_world : M (Machine O) World := fun m => (Ok (world m), m).

(** [print(line)] *)
Definition print (line : str) : M (Machine O) unit :=
  with_world (set_stdout (cons line)).

(** [path.exists()] / [os.path.exists(path)] *)
Definition exists_ (path : str) : M (Machine O) bool :=
  w <- get_world ;; ret (bool_decide (path ∈ files w)).

(** [path.unlink()] / [os.unlink(path)] *)
Definition unlink (path : str) : M (Machine O) unit :=
  w <- get_world ;;
  if bool_decide (path ∈ files w)
  then with_world (fun w => set_unlink_log (cons path)
                              (set_files (fun fs => fs ∖ {[path]}) w))
  else raise (FileNotFoundError path).

(** [tempfile.mkstemp(suffix=.., prefix=..)] followed by [os.close]: a
    new, empty file whose name carries the next counter value. *)
Definition tmp_name (prefix suffix : str) (n : nat) : str :=
  u"/tmp/" ++ prefix ++ str_of_nat n ++ suffix.

Definition mkstemp (suffix prefix : str) : M (Machine O) str :=
  w <- get_world ;;
  let path := tmp_name prefix suffix (tmp_counter w) in
  with_world (fun w => set_tmp_counter Datatypes.S
                         (set_files (fun fs => {[path]} ∪ fs) w)) ;;
  ret path.

(** Creation of a fresh Python object. *)
Definition new_object : M (Machine O) handle :=
  w <- get_world ;;
  with_world (set_next_id Datatypes.S) ;;
  ret (next_id w).

(** One step of model loading raises what the collaborator raises. *)
Definition check (env : Env) (step : load_step) : M (Machine O) unit :=
  match load_answer env step with
  | Some msg => raise (ModelError msg)
  | None => ret tt
  end.

(** [X.from_pretrained(..)]: the step, and the object it creates. *)
Definition load (env : Env) (step : load_step) : M (Machine O) handle :=
  check env step ;; new_object.

Definition of_outcome {A} (o : outcome A) : M (Machine O) A :=
  match o with
  | Returns a => ret a
  | Fails msg => raise (ModelError msg)
  end.

(** [obj.method(..)] on a field that may still be [None]. *)
Definition attr_of (field : option handle) : M (Machine O) handle :=
  match field with
  | Some h => ret h
  | None => raise AttributeError
  end.

(** [obj(..)] on a field that may still be [None]. *)
Definition callable (field : option handle) : M (Machine O) handle :=
  match field with
  | Some h => ret h
  | None => raise TypeError
  end.

(** [audio_handler.crop(str(audio_path), segment)] *)
Definition audio_crop (env : Env) (audio_handler : option handle)
    (audio_path : str) (segment : Segment) : M (Machine O) (Waveform * Z) :=
  attr_of audio_handler ;;
  with_world (set_crop_log (cons (audio_path, segment))) ;;
  of_outcome (crop env audio_path segment).

(** The body of the [try] in [_transcribe_segment] /
    [_transcribe_audio_segment]: feature extraction by the processor,
    [generate] on the model with language "ja" and task "transcribe",
    [batch_decode(..)[0]]. *)
Definition run_whisper (env : Env) (processor model : option handle)
    (waveform : Waveform) (sample_rate : Z) : M (Machine O) str :=
  callable processor ;;
  attr_of model ;;
  with_world (set_asr_log (cons (waveform, sample_rate))) ;;
  of_outcome (whisper env waveform sample_rate).

End WorldOps.

(* ===================================================================== *)
(** * Paths *)
(* ===================================================================== *)

(** A path is the string [str(path)] of a [pathlib.Path]. *)

(** [rsplit sep s = Some (before, after)] splits at the last [sep]. *)
Fixpoint rsplit (sep : N) (s : str) : option (str * str) :=
  match s with
  | [] => None
  | c :: r =>
    match rsplit sep r with
    | Some (before, after) => Some (c :: before, after)
    | None => if (c =? sep)%N then Some ([], r) else None
    end
  end.

(** [path.name]: the final component. *)
Definition path_name (path : str) : str :=
  match rsplit 47 path with
  | Some (_, name) => name
  | None => path
  end.

(** The directory part in front of [path.name], separator included. *)
Definition path_dir (path : str) : str :=
  match rsplit 47 path with
  | Some (dir, _) => dir ++ [47%N]
  | None => []
  end.

(** [path.suffix]: with [i = name.rfind('.')], [name[i:]] when
    [0 < i < len(name) - 1], and the empty string otherwise. *)
Definition path_suffix (path : str) : str :=
  match rsplit 46 (path_name path) with
  | Some (before, after) =>
    if is_empty before || is_empty after then [] else 46%N :: after
  | None => []
  end.

(** [path.stem]: the name without its suffix. *)
Definition path_stem (path : str) : str :=
  match rsplit 46 (path_name path) with
  | Some (before, after) =>
    if is_empty before || is_empty after then path_name path else before
  | None => path_name path
  end.

(* ===================================================================== *)
(** * Transcript segments *)
(* ===================================================================== *)

(** The dictionaries with keys ['start'], ['end'], ['speaker'], ['text']
    that both orchestrators append to their result list. *)
Record TranscriptSegment : Type := {
  start : str;
  end_ : str;
  speaker : str;
  text : str
}.

(** The newline of ["\n".join(..)]. *)
Definition newline : str := [10%N].

(* ===================================================================== *)
(** * audio_transcriber.py *)
(* ===================================================================== *)

Module AudioTranscriber.

Record t : Type := {
  diarization_pipeline : option handle;
  whisper_processor : option handle;
  whisper_model : option handle;
  audio_handler : option handle
}.

Definition __init__ : t :=
  {| diarization_pipeline := None; whisper_processor := None;
     whisper_model := None; audio_handler := None |}.

Definition set_diarization_pipeline (v : option handle) (o : t) : t :=
  {| diarization_pipeline := v; whisper_processor := whisper_processor o;
     whisper_model := whisper_model o; audio_handler := audio_handler o |}.

Definition set_whisper_processor (v : option handle) (o : t) : t :=
  {| diarization_pipeline := diarization_pipeline o; whisper_processor := v;
     whisper_model := whisper_model o; audio_handler := audio_handler o |}.

Definition set_whisper_model (v : option handle) (o : t) : t :=
  {| diarization_pipeline := diarization_pipeline o;
     whisper_processor := whisper_processor o;
     whisper_model := v; audio_handler := audio_handler o |}.

Definition set_audio_handler (v : option handle) (o : t) : t :=
  {| diarization_pipeline := diarization_pipeline o;
     whisper_processor := whisper_processor o;
     whisper_model := whisper_model o; audio_handler := v |}.

Definition _load_models (env : Env) : M (Machine t) unit :=
  self <- get_self ;;
  match diarization_pipeline self with
  | Some _ => ret tt
  | None =>
    p <- load env LoadPipeline ;;
    with_self (set_diarization_pipeline (Some p)) ;;
    check env PipelineToDevice ;;
    wp <- load env LoadProcessor ;;
    with_self (set_whisper_processor (Some wp)) ;;
    wm <- load env LoadModel ;;
    with_self (set_whisper_model (Some wm)) ;;
    ah <- new_object ;;
    with_self (set_audio_handler (Some ah))
  end.

Definition extract_audio_from_mp4 (env : Env) (mp4_path : str)
    : M (Machine t) str :=
  temp_audio_path <- mkstemp (u".wav") (u"extracted_audio_") ;;
  try_except
    (match VideoFileClip env mp4_path with
     | VideoOpenFails msg => raise (ModelError msg)
     | VideoNoAudio =>
       raise (ValueError (u"MP4ファイルに音声トラックがありません"))
     | VideoWriteFails msg => raise (ModelError msg)
     | VideoWriteOk => ret temp_audio_path
     end)
    (fun e =>
       present <- exists_ temp_audio_path ;;
       (if present then unlink temp_audio_path else ret tt) ;;
       raise (RuntimeError (u"音声抽出失敗: " ++ exn_str e))).

Definition _transcribe_audio_segment (env : Env) (waveform : Waveform)
    (sample_rate : Z) : M (Machine t) (option str) :=
  try_except
    (self <- get_self ;;
     transcribed_text <- run_whisper env (whisper_processor self)
                           (whisper_model self) waveform sample_rate ;;
     ret (Some transcribed_text))
    (fun _ => ret None).

Definition _seconds_to_timestamp (seconds : Q) : str :=
  let total_seconds := py_int seconds in
  let '(hours, remainder) := divmod total_seconds 3600 in
  let '(minutes, seconds) := divmod remainder 60 in
  fmt_02 hours ++ u":" ++ fmt_02 minutes ++ u":" ++ fmt_02 seconds.

(** The [for] loop of [transcribe_file]; [transcription_results] is the
    list built so far. *)
Fixpoint transcribe_loop (env : Env) (audio_path : str) (tracks : list Track)
    (transcription_results : list TranscriptSegment)
    : M (Machine t) (list TranscriptSegment) :=
  match tracks with
  | [] => ret transcription_results
  | (segment, speaker_label) :: rest =>
    if Qlt_bool (seg_duration segment) (1 # 2)
    then transcribe_loop env audio_path rest transcription_results
    else
      self <- get_self ;;
      cropped <- audio_crop env (audio_handler self) audio_path segment ;;
      let '(waveform, sample_rate) := cropped in
      transcribed_text <- _transcribe_audio_segment env waveform sample_rate ;;
      match transcribed_text with
      | Some txt =>
        if negb (is_empty txt) && negb (is_empty (strip txt))
        then transcribe_loop env audio_path rest
               (transcription_results ++
                [{| start := _seconds_to_timestamp (seg_start segment);
                    end_ := _seconds_to_timestamp (seg_end segment);
                    speaker := speaker_label;
                    text := strip txt |}])
        else transcribe_loop env audio_path rest transcription_results
      | None => transcribe_loop env audio_path rest transcription_results
      end
  end.

Definition transcribe_file (env : Env) (file_path : str)
    : M (Machine t) (list TranscriptSegment) :=
  _load_models env ;;
  prepared <-
    (if bool_decide (lower (path_suffix file_path)
                       ∈ [u".mp4"; u".avi"; u".mov"; u".mkv"; u".webm"])
     then audio_path <- extract_audio_from_mp4 env file_path ;;
          ret (audio_path, Some audio_path)
     else ret (file_path, None)) ;;
  let '(audio_path, temp_file) := prepared in
  try_finally
    (self <- get_self ;;
     callable (diarization_pipeline self) ;;
     diarization_result <- of_outcome (diarize env audio_path) ;;
     transcribe_loop env audio_path diarization_result [])
    (match temp_file with
     | Some f => present <- exists_ f ;; if present then unlink f else ret tt
     | None => ret tt
     end).

Definition markdown_lines (env : Env) (results : list TranscriptSegment)
    (input_filename : str) : list str :=
  [ u"# 🎵 音声文字起こし結果";
    [];
    u"**📁 入力ファイル**: " ++ input_filename;
    u"**📅 処理日時**: " ++ now env;
    u"**👥 話者数**: "
      ++ str_of_nat (size (list_to_set (map speaker results) : gset str))
      ++ u"名";
    u"**📊 総セグメント数**: " ++ str_of_nat (length results) ++ u"個";
    [];
    u"---";
    [];
    u"## 📝 発話内容";
    [] ]
  ++ flat_map (fun result =>
       [ u"**[" ++ start result ++ u" - " ++ end_ result ++ u"] "
           ++ speaker result ++ u":**";
         u"> " ++ text result;
         [] ]) results.

Definition create_markdown_report (env : Env)
    (results : list TranscriptSegment) (input_filename : str) : str :=
  join newline (markdown_lines env results input_filename).

(** [open(output_path, 'w')] creates the file, or raises and creates
    nothing; [written] records the contents of completed writes. *)
Definition save_markdown_file (env : Env) (markdown_content : str)
    (output_path : str) : M (Machine t) unit :=
  match write_answer env output_path with
  | OpenFails msg => raise (OSError msg)
  | WriteFails msg =>
    with_world (set_files (fun fs => {[output_path]} ∪ fs)) ;;
    raise (OSError msg)
  | WriteOk =>
    with_world (fun w => set_written (cons (output_path, markdown_content))
                           (set_files (fun fs => {[output_path]} ∪ fs) w))
  end.

End AudioTranscriber.

(* ===================================================================== *)
(** * audio_processor.py *)
(* ===================================================================== *)

Module AudioProcessor.

Record t : Type := {
  pipeline : option handle;
  processor : option handle;
  model : option handle;
  audio_handler : option handle;
  temp_audio_file : option str
}.

Definition __init__ : t :=
  {| pipeline := None; processor := None; model := None;
     audio_handler := None; temp_audio_file := None |}.

Definition set_pipeline (v : option handle) (o : t) : t :=
  {| pipeline := v; processor := processor o; model := model o;
     audio_handler := audio_handler o; temp_audio_file := temp_audio_file o |}.

Definition set_processor (v : option handle) (o : t) : t :=
  {| pipeline := pipeline o; processor := v; model := model o;
     audio_handler := audio_handler o; temp_audio_file := temp_audio_file o |}.

Definition set_model (v : option handle) (o : t) : t :=
  {| pipeline := pipeline o; processor := processor o; model := v;
     audio_handler := audio_handler o; temp_audio_file := temp_audio_file o |}.

Definition set_audio_handler (v : option handle) (o : t) : t :=
  {| pipeline := pipeline o; processor := processor o; model := model o;
     audio_handler := v; temp_audio_file := temp_audio_file o |}.

Definition set_temp_audio_file (v : option str) (o : t) : t :=
  {| pipeline := pipeline o; processor := processor o; model := model o;
     audio_handler := audio_handler o; temp_audio_file := v |}.

(** No guard of its own: every call loads again. *)
Definition _load_models (env : Env) : M (Machine t) unit :=
  p <- load env LoadPipeline ;;
  with_self (set_pipeline (Some p)) ;;
  check env PipelineToDevice ;;
  pr <- load env LoadProcessor ;;
  with_self (set_processor (Some pr)) ;;
  md <- load env LoadModel ;;
  with_self (set_model (Some md)) ;;
  ah <- new_object ;;
  with_self (set_audio_handler (Some ah)).

(** [mkstemp] stands in front of the [try] here although the source has it
    inside: it cannot raise in this model, so ['temp_path' in locals()]
    holds whenever the handler runs. *)
Definition extract_audio_from_video (env : Env) (video_path : str)
    : M (Machine t) (option str) :=
  if negb (MOVIEPY_AVAILABLE env)
  then raise (RuntimeError (u"moviepy が必要です: pip install moviepy"))
  else
    temp_audio_path <- mkstemp (u".wav") (u"audio_") ;;
    try_except
      (match VideoFileClip env video_path with
       | VideoOpenFails msg => raise (ModelError msg)
       | VideoNoAudio =>
         raise (RuntimeError (u"動画に音声トラックがありません"))
       | VideoWriteFails msg => raise (ModelError msg)
       | VideoWriteOk =>
         with_self (set_temp_audio_file (Some temp_audio_path)) ;;
         ret (Some temp_audio_path)
       end)
      (fun _ =>
         present <- exists_ temp_audio_path ;;
         (if present then unlink temp_audio_path else ret tt) ;;
         ret None).

Definition _transcribe_segment (env : Env) (waveform : Waveform)
    (sample_rate : Z) : M (Machine t) (option str) :=
  try_except
    (self <- get_self ;;
     txt <- run_whisper env (processor self) (model self)
              waveform sample_rate ;;
     ret (Some txt))
    (fun _ => ret None).

Definition _format_time (seconds : Q) : str :=
  let total_seconds := py_int seconds in
  let '(hours, remainder) := divmod total_seconds 3600 in
  let '(minutes, seconds) := divmod remainder 60 in
  fmt_02 hours ++ u":" ++ fmt_02 minutes ++ u":" ++ fmt_02 seconds.

(** [waveform.shape[-1] / sample_rate]: true division of two integers.
    The quotient is compared with the float literal [0.1]; for sample
    rates below 2^50 the rounded comparison agrees with the exact one
    against 1/10, which is what the model computes. *)
Definition cropped_duration (waveform : Waveform) (sample_rate : Z)
    : M (Machine t) Q :=
  if sample_rate =? 0 then raise ZeroDivisionError
  else ret (inject_Z (shape_last waveform) / inject_Z sample_rate)%Q.

(** One pass through the body of the [for] loop of [process_file]: the
    [try] block with its [except Exception: continue].  It yields the
    result list as the iteration leaves it. *)
Definition process_segment (env : Env) (audio_path : str) (segment : Segment)
    (speaker_label : str) (results : list TranscriptSegment)
    : M (Machine t) (list TranscriptSegment) :=
  try_except
    (self <- get_self ;;
     cropped <- audio_crop env (audio_handler self) audio_path segment ;;
     let '(waveform, sample_rate) := cropped in
     seconds <- cropped_duration waveform sample_rate ;;
     if Qlt_bool seconds (1 # 10) then ret results
     else
       transcribed <- _transcribe_segment env waveform sample_rate ;;
       match transcribed with
       | Some txt =>
         if negb (is_empty txt) && negb (is_empty (strip txt))
         then ret (results ++
                   [{| start := _format_time (seg_start segment);
                       end_ := _format_time (seg_end segment);
                       speaker := speaker_label;
                       text := strip txt |}])
         else ret results
       | None => ret results
       end)
    (fun _ => ret results).

Fixpoint process_loop (env : Env) (audio_path : str) (tracks : list Track)
    (results : list TranscriptSegment)
    : M (Machine t) (list TranscriptSegment) :=
  match tracks with
  | [] => ret results
  | (segment, speaker_label) :: rest =>
    results' <- process_segment env audio_path segment speaker_label results ;;
    process_loop env audio_path rest results'
  end.

Definition process_file (env : Env) (input_path : str)
    : M (Machine t) (list TranscriptSegment) :=
  self <- get_self ;;
  (match pipeline self with
   | None => _load_models env
   | Some _ => ret tt
   end) ;;
  audio_path <-
    (if bool_decide (lower (path_suffix input_path)
                       ∈ [u".mp4"; u".avi"; u".mov"; u".mkv"; u".webm"])
     then extracted <- extract_audio_from_video env input_path ;;
          match extracted with
          | None => raise (RuntimeError (u"音声抽出に失敗しました"))
          | Some path => ret path
          end
     else ret input_path) ;;
  self <- get_self ;;
  callable (pipeline self) ;;
  diarization <- of_outcome (diarize env audio_path) ;;
  process_loop env audio_path diarization [].

Definition markdown_lines (env : Env) (results : list TranscriptSegment)
    (input_filename : str) : list str :=
  [ u"# 音声文字起こし結果";
    [];
    u"**入力ファイル**: " ++ input_filename;
    u"**処理日時**: " ++ now env;
    u"**話者数**: "
      ++ str_of_nat (size (list_to_set (map speaker results) : gset str))
      ++ u"名";
    u"**総セグメント数**: " ++ str_of_nat (length results) ++ u"個";
    [];
    u"## 発話内容";
    [] ]
  ++ flat_map (fun result =>
       [ u"**[" ++ start result ++ u" - " ++ end_ result ++ u"] "
           ++ speaker result ++ u":**";
         text result;
         [] ]) results.

Definition results_to_markdown (env : Env)
    (results : list TranscriptSegment) (input_filename : str) : str :=
  join newline (markdown_lines env results input_filename).

Definition cleanup : M (Machine t) unit :=
  self <- get_self ;;
  match temp_audio_file self with
  | Some f =>
    present <- exists_ f ;;
    if present
    then try_except
           (unlink f ;; with_self (set_temp_audio_file None))
           (fun _ => ret tt)
    else ret tt
  | None => ret tt
  end.

Definition __del__ : M (Machine t) unit := cleanup.

End AudioProcessor.

(* ===================================================================== *)
(** * main.py *)
(* ===================================================================== *)

Module Main.

(** The parsed command line. *)
Record Args : Type := {
  input_file : str;
  output : option str
}.

(** What [parser.parse_args()] makes of the command line: the parsed
    arguments; or, for [-h], the help text on standard output and
    [sys.exit(0)]; or, for a malformed command line (no input file, an
    unknown option, [-o] without a value), a usage message on standard
    error and [sys.exit(2)]. *)
Inductive command_line : Type :=
| Parsed (args : Args)
| HelpRequested (help : list str)     (* the lines of the help text *)
| UsageError.

Definition supported_formats : list str :=
  [u".mp4"; u".avi"; u".mov"; u".mkv"; u".webm";
   u".wav"; u".mp3"; u".m4a"; u".flac"].

(** [sys.exit(code)] *)
Definition sys_exit {A} (code : Z) : M (Machine AudioTranscriber.t) A :=
  raise (SystemExit code).

(** [try: c  except KeyboardInterrupt: h1  except Exception as e: h2 e] *)
Definition try_except_interrupt {S A} (c : M S A) (h1 : M S A)
    (h2 : exn -> M S A) : M S A :=
  fun s => match c s with
           | (Ok a, s') => (Ok a, s')
           | (Raise KeyboardInterrupt, s') => h1 s'
           | (Raise e, s') =>
             if is_Exception e then h2 e s' else (Raise e, s')
           end.

(** [input_path.parent / f"{input_path.stem}_transcript.md"] *)
Definition default_output (input_path : str) : str :=
  path_dir input_path ++ path_stem input_path ++ u"_transcript.md".

(** The lines printed between argument checking and the [try]. *)
Definition banner (input_path output_path : str)
    : M (Machine AudioTranscriber.t) unit :=
  print (u"🎵 音声文字起こしツール") ;;
  print (concat (repeat (u"=") 50)) ;;
  print (u"📁 入力ファイル: " ++ path_name input_path) ;;
  print (u"📄 出力ファイル: " ++ path_name output_path) ;;
  print [].

(** [args = parser.parse_args()] *)
Definition parse_args (cl : command_line)
    : M (Machine AudioTranscriber.t) Args :=
  match cl with
  | Parsed args => ret args
  | HelpRequested help =>
    with_world (set_stdout (fun printed => rev help ++ printed)) ;;
    sys_exit 0
  | UsageError => sys_exit 2
  end.

(** The body of [main] after [parse_args].  The machine's object is the
    [AudioTranscriber()] the [try] block creates. *)
Definition script (env : Env) (args : Args)
    : M (Machine AudioTranscriber.t) unit :=
  let input_path := input_file args in
  present <- exists_ input_path ;;
  if negb present
  then print (u"❌ エラー: ファイルが見つかりません: " ++ input_path) ;;
       sys_exit 1
  else
  if negb (bool_decide (lower (path_suffix input_path) ∈ supported_formats))
  then print (u"❌ エラー: 対応していないファイル形式です: "
                ++ path_suffix input_path) ;;
       print (u"対応形式: " ++ join (u", ") supported_formats) ;;
       sys_exit 1
  else
  let output_path :=
    match output args with
    | Some o => if is_empty o then default_output input_path else o
    | None => default_output input_path
    end in
  banner input_path output_path ;;
  try_except_interrupt
    (print (u"🚀 処理を開始します...") ;;
     results <- AudioTranscriber.transcribe_file env input_path ;;
     match results with
     | [] => print (u"❌ 文字起こし結果が得られませんでした") ;;
             sys_exit 1
     | _ :: _ =>
       print (u"📝 レポートを生成中...") ;;
       let markdown_content :=
         AudioTranscriber.create_markdown_report env results
           (path_name input_path) in
       AudioTranscriber.save_markdown_file env markdown_content output_path ;;
       print [] ;;
       print (u"✅ 処理完了！") ;;
       print (u"👥 話者数: "
                ++ str_of_nat (size (list_to_set (map speaker results)
                                       : gset str))
                ++ u"名") ;;
       print (u"📊 セグメント数: " ++ str_of_nat (length results) ++ u"個") ;;
       print (u"📄 出力ファイル: " ++ output_path)
     end)
    (print (newline ++ u"⚠️ 処理が中断されました") ;; sys_exit 1)
    (fun e => print (u"❌ エラーが発生しました: " ++ exn_str e) ;;
              sys_exit 1).

(** [main()] run as the program, on the command line [cl]: the exit
    status of the process and the world it leaves.  A normal return is
    status 0, [sys.exit(c)] is status [c], any other exception reaching
    the top is status 1. *)
Definition main (env : Env) (cl : command_line) (w : World) : Z * World :=
  match (args <- parse_args cl ;; script env args)
          {| self := AudioTranscriber.__init__; world := w |} with
  | (Ok _, m) => (0, world m)
  | (Raise (SystemExit code), m) => (code, world m)
  | (Raise _, m) => (1, world m)
  end.

End Main.

(* ===================================================================== *)
(** * The upload section of app.py and web_app.py *)
(* ===================================================================== *)

(** What the script shows after a file was uploaded. *)
Inductive element : Type :=
| st_success
| st_info
| st_warning
| st_error
| st_button.     (* the button that starts processing *)

(** [len(uploaded_file.read()) / (1024*1024)]: exact, the divisor being a
    power of two. *)
Definition file_size_mb (len : N) : Q :=
  (inject_Z (Z.of_N len) / inject_Z (1024 * 1024))%Q.

(** [st.session_state] around the orchestrator of type [O] that it holds
    ([.transcriber] in web_app.py, [.processor] in app.py), and what the
    page shows while a handler runs. *)
Record Session (O : Type) : Type := {
  orchestrator : O;
  transcription_results : option (list TranscriptSegment);
  markdown_result : option str;
  original_filename : option str;
  progress_bar : option Z;            (* [None]: the placeholder is empty *)
  status_text : option str;
  messages : list (element * str);    (* st.error / st.success, latest first *)
  balloons : nat                      (* calls of st.balloons() *)
}.
Arguments orchestrator {O} _.
Arguments transcription_results {O} _.
Arguments markdown_result {O} _.
Arguments original_filename {O} _.
Arguments progress_bar {O} _.
Arguments status_text {O} _.
Arguments messages {O} _.
Arguments balloons {O} _.
Arguments Build_Session {O} _ _ _ _ _ _ _ _.

(** The session as the module-level code leaves it on the first run of
    the script. *)
Definition new_session {O : Type} (o : O) : Session O :=
  {| orchestrator := o; transcription_results := None;
     markdown_result := None; original_filename := None;
     progress_bar := None; status_text := None;
     messages := []; balloons := 0%nat |}.

Section SessionOps.
Context {O : Type}.

Definition set_orchestrator (o : O) (s : Session O) : Session O :=
  {| orchestrator := o;
     transcription_results := transcription_results s;
     markdown_result := markdown_result s;
     original_filename := original_filename s;
     progress_bar := progress_bar s; status_text := status_text s;
     messages := messages s; balloons := balloons s |}.

Definition set_transcription_results (v : option (list TranscriptSegment))
    (s : Session O) : Session O :=
  {| orchestrator := orchestrator s;
     transcription_results := v;
     markdown_result := markdown_result s;
     original_filename := original_filename s;
     progress_bar := progress_bar s; status_text := status_text s;
     messages := messages s; balloons := balloons s |}.

Definition set_markdown_result (v : option str) (s : Session O) : Session O :=
  {| orchestrator := orchestrator s;
     transcription_results := transcription_results s;
     markdown_result := v;
     original_filename := original_filename s;
     progress_bar := progress_bar s; status_text := status_text s;
     messages := messages s; balloons := balloons s |}.

Definition set_original_filename (v : option str) (s : Session O)
    : Session O :=
  {| orchestrator := orchestrator s;
     transcription_results := transcription_results s;
     markdown_result := markdown_result s;
     original_filename := v;
     progress_bar := progress_bar s; status_text := status_text s;
     messages := messages s; balloons := balloons s |}.

Definition set_progress_bar (v : option Z) (s : Session O) : Session O :=
  {| orchestrator := orchestrator s;
     transcription_results := transcription_results s;
     markdown_result := markdown_result s;
     original_filename := original_filename s;
     progress_bar := v; status_text := status_text s;
     messages := messages s; balloons := balloons s |}.

Definition set_status_text (v : option str) (s : Session O) : Session O :=
  {| orchestrator := orchestrator s;
     transcription_results := transcription_results s;
     markdown_result := markdown_result s;
     original_filename := original_filename s;
     progress_bar := progress_bar s; status_text := v;
     messages := messages s; balloons := balloons s |}.

Definition set_messages (f : list (element * str) -> list (element * str))
    (s : Session O) : Session O :=
  {| orchestrator := orchestrator s;
     transcription_results := transcription_results s;
     markdown_result := markdown_result s;
     original_filename := original_filename s;
     progress_bar := progress_bar s; status_text := status_text s;
     messages := f (messages s); balloons := balloons s |}.

Definition set_balloons (f : nat -> nat) (s : Session O) : Session O :=
  {| orchestrator := orchestrator s;
     transcription_results := transcription_results s;
     markdown_result := markdown_result s;
     original_filename := original_filename s;
     progress_bar := progress_bar s; status_text := status_text s;
     messages := messages s; balloons := f (balloons s) |}.

(** A method call on the orchestrator held by the session: it runs on
    that object and on the same world. *)
Definition in_session {A} (c : M (Machine O) A) : M (Machine (Session O)) A :=
  fun m =>
    match c {| self := orchestrator (self m); world := world m |} with
    | (r, m') => (r, {| self := set_orchestrator (self m') (self m);
                        world := world m' |})
    end.

(** [progress_bar.progress(v)] *)
Definition st_progress (v : Z) : M (Machine (Session O)) unit :=
  with_self (set_progress_bar (Some v)).

(** [status_text.text(line)] *)
Definition st_text (line : str) : M (Machine (Session O)) unit :=
  with_self (set_status_text (Some line)).

(** [st.error(body)], [st.success(body)] *)
Definition st_show (kind : element) (body : str)
    : M (Machine (Session O)) unit :=
  with_self (set_messages (cons (kind, body))).

(** [st.balloons()] *)
Definition st_balloons : M (Machine (Session O)) unit :=
  with_self (set_balloons Datatypes.S).

(** [progress_bar = st.progress(0)] and [status_text = st.empty()] *)
Definition st_placeholders : M (Machine (Session O)) unit :=
  with_self (set_progress_bar (Some 0)) ;;
  with_self (set_status_text None).

(** [progress_bar.empty()] and [status_text.empty()] *)
Definition st_clear : M (Machine (Session O)) unit :=
  with_self (set_progress_bar None) ;;
  with_self (set_status_text None).

(** [with tempfile.NamedTemporaryFile(delete=False, suffix=..) as tmp_file:
    tmp_file.write(uploaded_file.read())]: the upload is staged in a new
    file whose name ends in the suffix of the uploaded file's name. *)
Definition stage_upload (name : str) : M (Machine (Session O)) str :=
  mkstemp (path_suffix name) (u"tmp").

(** The handler of both [process_file] and [process_uploaded_file]:
    ['tmp_path' in locals()] holds whenever it runs, the statements of
    the [try] block in front of the assignment raising nothing here. *)
Definition on_processing_error (tmp_path : str) (e : exn)
    : M (Machine (Session O)) unit :=
  st_show st_error (u"❌ エラーが発生しました: " ++ exn_str e) ;;
  present <- exists_ tmp_path ;;
  if present then unlink tmp_path else ret tt.

End SessionOps.

Module App.

(** The elements rendered for an upload of [len] bytes, and whether the
    script run was halted by [st.stop()]; nothing after [st.stop()] is
    rendered, the start button included. *)
Definition upload_section (len : N) : list element * bool :=
  let mb := file_size_mb len in
  let shown := [st_success; st_info] in
  if Qlt_bool 500 mb then (shown ++ [st_warning] ++ [st_button], false)
  else if Qlt_bool 1000 mb then (shown ++ [st_error], true)
  else (shown ++ [st_button], false).

(** [process_file(uploaded_file)], for an upload named [name].  A
    [return] inside the [try] leaves through the [finally] block. *)
Definition process_file (env : Env) (name : str)
    : M (Machine (Session AudioProcessor.t)) unit :=
  st_placeholders ;;
  try_finally
    (st_text (u"📁 ファイルを準備中...") ;;
     st_progress 10 ;;
     tmp_path <- stage_upload name ;;
     try_except
       (st_text (u"🤖 モデルを準備中...") ;;
        st_progress 30 ;;
        st_text (u"🎵 音声を解析中...") ;;
        st_progress 50 ;;
        results <- in_session (AudioProcessor.process_file env tmp_path) ;;
        match results with
        | [] => st_show st_error (u"❌ 文字起こし結果が得られませんでした")
        | _ :: _ =>
          st_text (u"📝 結果を生成中...") ;;
          st_progress 80 ;;
          let markdown_content :=
            AudioProcessor.results_to_markdown env results name in
          with_self (set_markdown_result (Some markdown_content)) ;;
          with_self (set_original_filename (Some name)) ;;
          st_text (u"✅ 処理完了！") ;;
          st_progress 100 ;;
          st_show st_success
            (u"🎉 " ++ str_of_nat (length results)
               ++ u"個のセグメントを処理しました！") ;;
          unlink tmp_path
        end)
       (on_processing_error tmp_path))
    st_clear.

End App.

Module WebApp.

Definition upload_section (len : N) : list element * bool :=
  let mb := file_size_mb len in
  let shown := [st_success; st_info; st_info] in
  if Qlt_bool 500 mb then (shown ++ [st_warning] ++ [st_button], false)
  else (shown ++ [st_button], false).

(** [process_uploaded_file(uploaded_file)], for an upload named [name]. *)
Definition process_uploaded_file (env : Env) (name : str)
    : M (Machine (Session AudioTranscriber.t)) unit :=
  st_placeholders ;;
  try_finally
    (st_text (u"📁 ファイルを準備中...") ;;
     st_progress 20 ;;
     tmp_path <- stage_upload name ;;
     try_except
       (st_text (u"🤖 AIモデルを準備中...") ;;
        st_progress 40 ;;
        st_text (u"🎵 音声解析中...") ;;
        st_progress 60 ;;
        results <- in_session (AudioTranscriber.transcribe_file env tmp_path) ;;
        match results with
        | [] => st_show st_error (u"❌ 文字起こし結果が得られませんでした")
        | _ :: _ =>
          st_text (u"📝 レポート生成中...") ;;
          st_progress 80 ;;
          let markdown_content :=
            AudioTranscriber.create_markdown_report env results name in
          with_self (set_transcription_results (Some results)) ;;
          with_self (set_markdown_result (Some markdown_content)) ;;
          with_self (set_original_filename (Some name)) ;;
          st_text (u"✅ 処理完了！") ;;
          st_progress 100 ;;
          st_balloons ;;
          unlink tmp_path
        end)
       (on_processing_error tmp_path))
    st_clear.

End WebApp.

(* ===================================================================== *)
(** * Vocabulary of the specification *)
(* ===================================================================== *)

(** A stored text is non-empty and carries no whitespace at either end. *)
Definition trimmed_nonempty (r : TranscriptSegment) : Prop :=
  text r <> [] /\ strip (text r) = text r.

(** All four model fields are set. *)
Definition loaded_T (o : AudioTranscriber.t) : Prop :=
  is_Some (AudioTranscriber.diarization_pipeline o)
  /\ is_Some (AudioTranscriber.whisper_processor o)
  /\ is_Some (AudioTranscriber.whisper_model o)
  /\ is_Some (AudioTranscriber.audio_handler o).

Definition loaded_P (o : AudioProcessor.t) : Prop :=
  is_Some (AudioProcessor.pipeline o)
  /\ is_Some (AudioProcessor.processor o)
  /\ is_Some (AudioProcessor.model o)
  /\ is_Some (AudioProcessor.audio_handler o).

(** The segment can be cropped, at a sample rate other than zero. *)
Definition croppable (env : Env) (audio_path : str) (tr : Track) : Prop :=
  exists waveform sample_rate,
    crop env audio_path (fst tr) = Returns (waveform, sample_rate)
    /\ sample_rate <> 0.

(** What the recogniser's wrapper returns on a crop: the text, or [None]
    when the recogniser raises. *)
Definition heard (env : Env) (waveform : Waveform) (sample_rate : Z)
    : option str :=
  match whisper env waveform sample_rate with
  | Returns txt => Some txt
  | Fails _ => None
  end.

(** The transcription output fixed for a segment: what the recogniser
    answers on the segment's crop; [None] when it raises. *)
Definition transcription_output (env : Env) (audio_path : str)
    (tr : Track) : option str :=
  match crop env audio_path (fst tr) with
  | Returns (waveform, sample_rate) => heard env waveform sample_rate
  | Fails _ => None
  end.


(** Below the minimum duration, as [transcribe_file] tests it: on the
    segment's own duration, against 0.5 s. *)
Definition below_T (tr : Track) : bool :=
  Qlt_bool (seg_duration (fst tr)) (1 # 2).

(** Below the minimum duration, as [process_file] tests it: on the length
    of the cropped waveform, against 0.1 s. *)
Definition below_P (env : Env) (audio_path : str) (tr : Track) : bool :=
  match crop env audio_path (fst tr) with
  | Returns (waveform, sample_rate) =>
    Qlt_bool (inject_Z (shape_last waveform) / inject_Z sample_rate) (1 # 10)
  | Fails _ => false
  end.



(** The machine after a call of [Audio.crop], and after a run of the
    recogniser: the call is on record, nothing else moved. *)
Definition crop_logged {O} (audio_path : str) (segment : Segment)
    (m : Machine O) : Machine O :=
  {| self := self m;
     world := set_crop_log (cons (audio_path, segment)) (world m) |}.

Definition asr_logged {O} (waveform : Waveform) (sample_rate : Z)
    (m : Machine O) : Machine O :=
  {| self := self m;
     world := set_asr_log (cons (waveform, sample_rate)) (world m) |}.

(** The test both loops apply to a transcribed text before storing it:
    [text and text.strip()]. *)
Definition keeps (txt : str) : bool :=
  negb (is_empty txt) && negb (is_empty (strip txt)).

(** The result list after one segment was transcribed to [transcribed]:
    the entry is appended when the text is kept. *)
Definition appended (fmt : Q -> str) (segment : Segment) (label : str)
    (transcribed : option str) (results : list TranscriptSegment)
    : list TranscriptSegment :=
  match transcribed with
  | Some txt =>
    if keeps txt
    then results ++ [{| start := fmt (seg_start segment);
                        end_ := fmt (seg_end segment);
                        speaker := label;
                        text := strip txt |}]
    else results
  | None => results
  end.

(** Two machines that differ in the two call records at most. *)
Definition same_but_logs {O} (m m' : Machine O) : Prop :=
  self m' = self m
  /\ files (world m') = files (world m)
  /\ unlink_log (world m') = unlink_log (world m)
  /\ tmp_counter (world m') = tmp_counter (world m)
  /\ next_id (world m') = next_id (world m)
  /\ written (world m') = written (world m)
  /\ stdout (world m') = stdout (world m).

(** A computation that leaves a view of the machine as it found it. *)
Definition preserves {O X A : Type} (view : Machine O -> X)
    (c : M (Machine O) A) : Prop :=
  forall m, view (snd (c m)) = view m.

(** The machine with other contents in the two output records. *)
Definition annotated {O : Type} (hw : list (str * str) -> list (str * str))
    (hs : list str -> list str) (m : Machine O) : Machine O :=
  {| self := self m;
     world := set_written hw (set_stdout hs (world m)) |}.

(** A computation that neither reads nor writes the two output records:
    run on a machine with other contents there, it does the same. *)
Definition ignores_output {O A : Type} (c : M (Machine O) A) : Prop :=
  forall hw hs m,
    c (annotated hw hs m) = (fst (c m), annotated hw hs (snd (c m))).

(** The files, the deletions so far, and the temporary names handed out. *)
Definition files_view {O : Type} (m : Machine O)
    : gset str * list str * nat :=
  (files (world m), unlink_log (world m), tmp_counter (world m)).

(** The loaded models of an [AudioProcessor], and how many objects exist. *)
Definition models_P (m : Machine AudioProcessor.t)
    : option handle * option handle * option handle * option handle * handle :=
  (AudioProcessor.pipeline (self m), AudioProcessor.processor (self m),
   AudioProcessor.model (self m), AudioProcessor.audio_handler (self m),
   next_id (world m)).

(** HH:MM:SS for a whole number of seconds, each field on two digits. *)
Definition two_digits (n : Z) : str :=
  if n <? 10 then u"0" ++ str_of_N (Z.to_N n) else str_of_N (Z.to_N n).

Definition hh_mm_ss (total : Z) : str :=
  two_digits (total / 3600) ++ u":" ++ two_digits (total / 60 mod 60)
    ++ u":" ++ two_digits (total mod 60).

(* ===================================================================== *)
(** * Concrete runs *)
(* ===================================================================== *)

Definition empty_world : World :=
  {| files := ∅; unlink_log := []; tmp_counter := 0%nat; next_id := 0%nat;
     crop_log := []; asr_log := []; written := []; stdout := [] |}.

Definition segment_of (a b : Q) : Segment :=
  {| seg_start := a; seg_end := b; seg_duration := (b - a)%Q |}.

(** A 16 kHz mono crop: as many samples as the segment lasts. *)
Definition crop_16k (segment : Segment) : Waveform * Z :=
  ({| ndim := 2;
      samples := repeat 0%Q
                   (Z.to_nat (py_int (seg_duration segment * 16000)%Q)) |},
   16000).

(** A recogniser that hears a greeting in two-second crops, an answer in
    three-second crops, and nothing elsewhere. *)
Definition whisper_demo (waveform : Waveform) (sample_rate : Z) : outcome str :=
  if shape_last waveform =? 32000 then Returns (u" こんにちは ")
  else if shape_last waveform =? 48000 then Returns (u"はい")
  else Returns [].

(** Every collaborator succeeds. *)
Definition demo_env : Env :=
  {| MOVIEPY_AVAILABLE := true;
     load_answer := fun _ => None;
     VideoFileClip := fun _ => VideoWriteOk;
     diarize := fun _ =>
       Returns [ (segment_of 0 (1 # 20), u"SPEAKER_00");
                 (segment_of 1 3, u"SPEAKER_01");
                 (segment_of 4 7, u"SPEAKER_00") ];
     crop := fun _ segment => Returns (crop_16k segment);
     whisper := whisper_demo;
     write_answer := fun _ => WriteOk;
     now := u"2024年07月24日 10:00:00" |}.

(** As [demo_env], but cropping the segment that starts at second 1 fails. *)
Definition crop_fails_env : Env :=
  {| MOVIEPY_AVAILABLE := true;
     load_answer := fun _ => None;
     VideoFileClip := fun _ => VideoWriteOk;
     diarize := diarize demo_env;
     crop := fun _ segment =>
       if Qeq_bool (seg_start segment) 1 then Fails (u"crop failed")
       else Returns (crop_16k segment);
     whisper := whisper_demo;
     write_answer := fun _ => WriteOk;
     now := now demo_env |}.

(** As [demo_env], but the recogniser fails on two-second crops. *)
Definition whisper_fails_env : Env :=
  {| MOVIEPY_AVAILABLE := true;
     load_answer := fun _ => None;
     VideoFileClip := fun _ => VideoWriteOk;
     diarize := diarize demo_env;
     crop := crop demo_env;
     whisper := fun waveform sample_rate =>
       if shape_last waveform =? 32000 then Fails (u"out of memory")
       else whisper_demo waveform sample_rate;
     write_answer := fun _ => WriteOk;
     now := now demo_env |}.

(** As [demo_env], but the recogniser hears only silence: it answers
    with blanks whatever the crop. *)
Definition silence_env : Env :=
  {| MOVIEPY_AVAILABLE := true;
     load_answer := fun _ => None;
     VideoFileClip := fun _ => VideoWriteOk;
     diarize := diarize demo_env;
     crop := crop demo_env;
     whisper := fun _ _ => Returns (u"  ");
     write_answer := fun _ => WriteOk;
     now := now demo_env |}.

(** As [demo_env], but the video has no audio track. *)
Definition no_audio_env : Env :=
  {| MOVIEPY_AVAILABLE := true;
     load_answer := fun _ => None;
     VideoFileClip := fun _ => VideoNoAudio;
     diarize := diarize demo_env;
     crop := crop demo_env;
     whisper := whisper_demo;
     write_answer := fun _ => WriteOk;
     now := now demo_env |}.

(** As [demo_env], but the Whisper model cannot be loaded. *)
Definition model_fails_env : Env :=
  {| MOVIEPY_AVAILABLE := true;
     load_answer := fun step =>
       match step with
       | LoadModel => Some (u"download failed")
       | _ => None
       end;
     VideoFileClip := fun _ => VideoWriteOk;
     diarize := diarize demo_env;
     crop := crop demo_env;
     whisper := whisper_demo;
     write_answer := fun _ => WriteOk;
     now := now demo_env |}.

(** As [demo_env], but no report can be saved: every [open] for writing
    is refused. *)
Definition write_fails_env : Env :=
  {| MOVIEPY_AVAILABLE := true;
     load_answer := fun _ => None;
     VideoFileClip := fun _ => VideoWriteOk;
     diarize := diarize demo_env;
     crop := crop demo_env;
     whisper := whisper_demo;
     write_answer := fun _ => OpenFails (u"Permission denied");
     now := now demo_env |}.

(** A world where the recording to process exists. *)
Definition meeting_world : World :=
  set_files (fun _ => {[ u"meeting.wav" ]}) empty_world.

Definition meeting_args : Main.Args :=
  {| Main.input_file := u"meeting.wav"; Main.output := None |}.

Definition fresh_T (w : World) : Machine AudioTranscriber.t :=
  {| self := AudioTranscriber.__init__; world := w |}.

Definition fresh_P (w : World) : Machine AudioProcessor.t :=
  {| self := AudioProcessor.__init__; world := w |}.

(** Machines whose models are loaded, as [_load_models] leaves them. *)
Definition ready_T : Machine AudioTranscriber.t :=
  snd (AudioTranscriber._load_models demo_env (fresh_T empty_world)).

Definition ready_P : Machine AudioProcessor.t :=
  snd (AudioProcessor._load_models demo_env (fresh_P empty_world)).

(** A short silent segment followed by a two-second greeting. *)
Definition short_then_greeting : list Track :=
  [ (segment_of 0 (1 # 20), u"SPEAKER_00");
    (segment_of 1 3, u"SPEAKER_01") ].

Definition greeting_T : TranscriptSegment :=
  {| start := u"00:00:01"; end_ := u"00:00:03";
     speaker := u"SPEAKER_01"; text := u"こんにちは" |}.

Definition answer_T : TranscriptSegment :=
  {| start := u"00:00:04"; end_ := u"00:00:07";
     speaker := u"SPEAKER_00"; text := u"はい" |}.

(* ===================================================================== *)
(** * Vocabulary for the behaviour of the code *)
(* ===================================================================== *)

(** The test both orchestrators apply to the input path before they
    extract audio. *)
Definition is_video (path : str) : bool :=
  bool_decide (lower (path_suffix path)
                 ∈ [u".mp4"; u".avi"; u".mov"; u".mkv"; u".webm"]).

(** What a loop emits for the tracks, in their order: nothing for a track
    below the threshold, and otherwise the entry for its transcription
    when the text is kept. *)
Definition emitted (fmt : Q -> str) (below : Track -> bool) (env : Env)
    (audio_path : str) (tracks : list Track) : list TranscriptSegment :=
  flat_map (fun tr =>
              if below tr then []
              else appended fmt (fst tr) (snd tr)
                     (transcription_output env audio_path tr) [])
    tracks.

(** An entry made from a track: the track's label, and its start and end
    as timestamps. *)
Definition made_from (fmt : Q -> str) (r : TranscriptSegment) (tr : Track)
    : Prop :=
  speaker r = snd tr
  /\ start r = fmt (seg_start (fst tr))
  /\ end_ r = fmt (seg_end (fst tr)).

(** Every step of model loading succeeds. *)
Definition loads_succeed (env : Env) : Prop :=
  forall step, load_answer env step = None.

(** The name [mkstemp] hands out next. *)
Definition next_tmp {O : Type} (prefix : str) (m : Machine O) : str :=
  tmp_name prefix (u".wav") (tmp_counter (world m)).

(** A computation that raises nothing but [Exception]s: never
    [SystemExit], never [KeyboardInterrupt]. *)
Definition only_Exceptions {O A : Type} (c : M (Machine O) A) : Prop :=
  forall m e, fst (c m) = Raise e -> is_Exception e = true.

(** The output path [main] decides on. *)
Definition output_path_of (args : Main.Args) : str :=
  match Main.output args with
  | Some o => if is_empty o then Main.default_output (Main.input_file args)
              else o
  | None => Main.default_output (Main.input_file args)
  end.

(** What [main] has printed when it calls the pipeline, latest first, on
    top of what was printed before. *)
Definition printed_before_pipeline (args : Main.Args) (before : list str)
    : list str :=
  u"🚀 処理を開始します..." :: []
  :: (u"📄 出力ファイル: " ++ path_name (output_path_of args))
  :: (u"📁 入力ファイル: " ++ path_name (Main.input_file args))
  :: concat (repeat (u"=") 50) :: u"🎵 音声文字起こしツール" :: before.

(** The statements of [main] that follow the call of the pipeline, for
    the list it returned. *)
Definition after_pipeline (env : Env) (args : Main.Args)
    (results : list TranscriptSegment) : M (Machine AudioTranscriber.t) unit :=
  match results with
  | [] => print (u"❌ 文字起こし結果が得られませんでした") ;;
          Main.sys_exit 1
  | _ :: _ =>
    print (u"📝 レポートを生成中...") ;;
    AudioTranscriber.save_markdown_file env
      (AudioTranscriber.create_markdown_report env results
         (path_name (Main.input_file args)))
      (output_path_of args) ;;
    print [] ;;
    print (u"✅ 処理完了！") ;;
    print (u"👥 話者数: "
             ++ str_of_nat (size (list_to_set (map speaker results)
                                    : gset str))
             ++ u"名") ;;
    print (u"📊 セグメント数: " ++ str_of_nat (length results) ++ u"個") ;;
    print (u"📄 出力ファイル: " ++ output_path_of args)
  end.

(** The two handlers of [main]. *)
Definition on_interrupt : M (Machine AudioTranscriber.t) unit :=
  print (newline ++ u"⚠️ 処理が中断されました") ;; Main.sys_exit 1.

Definition on_error (e : exn) : M (Machine AudioTranscriber.t) unit :=
  print (u"❌ エラーが発生しました: " ++ exn_str e) ;; Main.sys_exit 1.

(** Whether a path exists. *)
Definition has_file {O : Type} (p : str) (m : Machine O) : bool :=
  bool_decide (p ∈ files (world m)).

(** The path under which a handler stages the upload named [name]. *)
Definition staged_path {O : Type} (name : str) (m : Machine O) : str :=
  tmp_name (u"tmp") (path_suffix name) (tmp_counter (world m)).

(** The orchestrator and the world as the handler hands them to the
    pipeline: the upload is staged, nothing else has changed. *)
Definition after_staging {O : Type} (name : str) (m : Machine (Session O))
    : Machine O :=
  {| self := orchestrator (self m);
     world := set_tmp_counter Datatypes.S
                (set_files (fun fs => {[staged_path name m]} ∪ fs)
                   (world m)) |}.

(** The result fields of the session state. *)
Definition stored {O : Type} (s : Session O)
    : option (list TranscriptSegment) * option str * option str :=
  (transcription_results s, markdown_result s, original_filename s).

(** The name offered for the download:
    [f"{Path(st.session_state.original_filename).stem}_transcript.md"]. *)
Definition download_name (original_filename : str) : str :=
  path_stem original_filename ++ u"_transcript.md".

(** The number of newlines in a string, and the number of lines it has,
    [len(s.split("\n"))]. *)
Fixpoint newlines (s : str) : nat :=
  match s with
  | [] => 0%nat
  | c :: r => ((if (c =? 10)%N then 1 else 0) + newlines r)%nat
  end.

Definition line_count (s : str) : nat := Datatypes.S (newlines s).

(** An entry none of whose fields holds a newline. *)
Definition single_line_entry (r : TranscriptSegment) : Prop :=
  newlines (start r) = 0%nat /\ newlines (end_ r) = 0%nat
  /\ newlines (speaker r) = 0%nat /\ newlines (text r) = 0%nat.

(* ===================================================================== *)
(** * Strings: trimming and numerals *)
(* ===================================================================== *)

Lemma lstrip_suffix (s : str) :
  exists spaces, s = spaces ++ lstrip s.
Proof.
  induction s as [|c r [sp IH]]; simpl.
  - exists []. reflexivity.
  - destruct (is_space c).
    + exists (c :: sp). simpl. f_equal. exact IH.
    + exists []. reflexivity.
Qed.

Lemma lstrip_head (s : str) :
  match lstrip s with
  | [] => True
  | c :: _ => is_space c = false
  end.
Proof.
  induction s as [|c r IH]; simpl; [exact I|].
  destruct (is_space c) eqn:E; [exact IH | exact E].
Qed.

Lemma lstrip_fixed (s : str) :
  match s with [] => True | c :: _ => is_space c = false end ->
  lstrip s = s.
Proof.
  destruct s as [|c r]; simpl; [reflexivity|].
  intros ->. reflexivity.
Qed.

Lemma lstrip_idem (s : str) : lstrip (lstrip s) = lstrip s.
Proof. apply lstrip_fixed, lstrip_head. Qed.

Lemma rstrip_prefix (s : str) :
  exists spaces, s = rstrip s ++ spaces.
Proof.
  unfold rstrip. destruct (lstrip_suffix (rev s)) as [sp E].
  exists (rev sp). rewrite <- rev_app_distr, <- E, rev_involutive.
  reflexivity.
Qed.

Lemma rstrip_idem (s : str) : rstrip (rstrip s) = rstrip s.
Proof.
  unfold rstrip. rewrite rev_involutive, lstrip_idem. reflexivity.
Qed.

(** Trimming the right end keeps the left end as it is. *)
Lemma lstrip_rstrip_fixed (s : str) :
  lstrip s = s -> lstrip (rstrip s) = rstrip s.
Proof.
  intros Hs. apply lstrip_fixed.
  pose proof (lstrip_head s) as Hh. rewrite Hs in Hh.
  destruct (rstrip_prefix s) as [sp E].
  destruct (rstrip s) as [|c r]; [exact I|].
  rewrite E in Hh. exact Hh.
Qed.

Lemma strip_idem (s : str) : strip (strip s) = strip s.
Proof.
  unfold strip.
  rewrite (lstrip_rstrip_fixed (lstrip s) (lstrip_idem s)).
  apply rstrip_idem.
Qed.

Lemma strip_nil : strip [] = [].
Proof. reflexivity. Qed.

Lemma is_empty_false (s : str) : is_empty s = false <-> s <> [].
Proof. destruct s; simpl; split; congruence. Qed.

Lemma keeps_strip (txt : str) : keeps txt = negb (is_empty (strip txt)).
Proof.
  unfold keeps. destruct txt as [|c r]; [reflexivity|].
  reflexivity.
Qed.

(** A kept text is stored trimmed, and what is stored is clean. *)
Lemma keeps_trimmed (txt : str) :
  keeps txt = true -> strip txt <> [] /\ strip (strip txt) = strip txt.
Proof.
  rewrite keeps_strip. intros H. split; [|apply strip_idem].
  apply is_empty_false. destruct (is_empty (strip txt)); [discriminate|reflexivity].
Qed.

Lemma digits_from_value (fuel : nat) :
  forall (n : N) (acc : str),
    (n < 2 ^ N.of_nat fuel)%N -> (0 < fuel)%nat ->
    fold_left (fun a d => (10 * a + (d - 48))%N) (digits_from fuel n acc) 0%N
    = fold_left (fun a d => (10 * a + (d - 48))%N) acc n.
Proof.
  induction fuel as [|fuel IH]; intros n acc Hn Hf; [lia|].
  simpl digits_from.
  destruct (N.eqb_spec (n / 10) 0) as [Hz|Hz].
  - cbn [fold_left]. f_equal.
    assert (n < 10)%N by (apply N.div_small_iff in Hz; [exact Hz | lia]).
    rewrite N.mod_small by exact H. clear IH Hn. lia.
  - assert (Hfuel : (0 < fuel)%nat).
    { destruct fuel; [|lia]. simpl in Hn.
      assert (n = 0 \/ n = 1)%N as [-> | ->] by lia; contradiction Hz; reflexivity. }
    rewrite IH; [|
      rewrite Nat2N.inj_succ, N.pow_succ_r' in Hn;
      apply N.Div0.div_lt_upper_bound; lia | exact Hfuel].
    cbn [fold_left]. f_equal.
    pose proof (N.div_mod n 10 ltac:(lia)) as E. clear IH Hn Hz.
    set (q := (n / 10)%N) in *. set (r := (n mod 10)%N) in *.
    clearbody q r. lia.
Qed.

(** The numeral written for [n] reads back as [n]. *)
Lemma str_of_N_denotes (n : N) : N_of_digits (str_of_N n) = n.
Proof.
  unfold N_of_digits, str_of_N.
  rewrite digits_from_value; [reflexivity| |lia].
  rewrite Nat2N.inj_succ, N2Nat.id.
  destruct n as [|p]; [reflexivity|].
  apply N.log2_spec. lia.
Qed.

Lemma str_of_nat_inj (a b : nat) : str_of_nat a = str_of_nat b -> a = b.
Proof.
  unfold str_of_nat. intros H.
  apply (f_equal N_of_digits) in H.
  rewrite !str_of_N_denotes in H. lia.
Qed.

(* ===================================================================== *)
(** * Timestamps *)
(* ===================================================================== *)

Lemma py_int_nonneg (s : Q) : (0 <= s)%Q -> py_int s = Qfloor s /\ 0 <= py_int s.
Proof.
  destruct s as [n d]. unfold Qle, py_int, Qfloor. simpl. intros Hn.
  assert (0 <= n) by lia.
  rewrite Z.quot_div_nonneg by lia.
  split; [reflexivity|]. apply Z.div_pos; lia.
Qed.

Lemma fmt_02_nonneg (z : Z) : 0 <= z -> fmt_02 z = two_digits z.
Proof.
  intros Hz. unfold fmt_02, two_digits.
  destruct (Z.ltb_spec z 0); [lia|reflexivity].
Qed.

Lemma minutes_of_remainder (t : Z) :
  0 <= t -> (t mod 3600) / 60 = t / 60 mod 60 /\ (t mod 3600) mod 60 = t mod 60.
Proof.
  intros Ht.
  pose proof (Z.div_mod t 3600 ltac:(lia)) as E1.
  pose proof (Z.mod_pos_bound t 3600 ltac:(lia)) as B1.
  pose proof (Z.div_mod (t mod 3600) 60 ltac:(lia)) as E2.
  pose proof (Z.mod_pos_bound (t mod 3600) 60 ltac:(lia)) as B2.
  pose proof (Z.div_mod t 60 ltac:(lia)) as E3.
  pose proof (Z.mod_pos_bound t 60 ltac:(lia)) as B3.
  pose proof (Z.div_mod (t / 60) 60 ltac:(lia)) as E4.
  pose proof (Z.mod_pos_bound (t / 60) 60 ltac:(lia)) as B4.
  set (h := t / 3600) in *. set (r := t mod 3600) in *.
  set (m := r / 60) in *. set (s := r mod 60) in *.
  set (q := t / 60) in *. set (s' := t mod 60) in *.
  set (h' := q / 60) in *. set (m' := q mod 60) in *.
  clearbody h r m s q s' h' m'. lia.
Qed.

(** C9.  Both timestamp functions are the same function of the seconds.
    For non-negative seconds the result is HH:MM:SS of the seconds
    truncated to a whole number, each field zero-padded to two digits; and
    0, 65 and 3661 seconds give 00:00:00, 00:01:05 and 01:01:01. *)
Theorem timestamp_format (s : Q) :
  AudioTranscriber._seconds_to_timestamp s = AudioProcessor._format_time s
  /\ ((0 <= s)%Q -> AudioProcessor._format_time s = hh_mm_ss (Qfloor s))
  /\ AudioProcessor._format_time 0 = u"00:00:00"
  /\ AudioProcessor._format_time 65 = u"00:01:05"
  /\ AudioProcessor._format_time 3661 = u"01:01:01".
Proof.
  split; [reflexivity|]. split; [|repeat apply conj; vm_compute; reflexivity].
  intros Hs. destruct (py_int_nonneg s Hs) as [E Hp].
  unfold AudioProcessor._format_time, divmod, hh_mm_ss. rewrite E in *.
  set (t := Qfloor s) in *. clearbody t.
  destruct (minutes_of_remainder t Hp) as [-> ->].
  rewrite !fmt_02_nonneg; [reflexivity| | |].
  - apply Z.mod_pos_bound; lia.
  - apply Z.mod_pos_bound; lia.
  - apply Z.div_pos; lia.
Qed.

Lemma timestamp_format_witness :
  (0 <= 7323 # 2)%Q
  /\ AudioProcessor._format_time (7323 # 2) = hh_mm_ss (Qfloor (7323 # 2)).
Proof.
  assert (H : (0 <= 7323 # 2)%Q) by (unfold Qle; simpl; lia).
  split; [exact H|].
  exact (proj1 (proj2 (timestamp_format (7323 # 2))) H).
Defined.

(* ===================================================================== *)
(** * Reports *)
(* ===================================================================== *)

(** [len(set(..))] counts the distinct values. *)
Lemma size_of_labels (labels all : list str) :
  NoDup labels -> (forall s, s ∈ labels <-> s ∈ all) ->
  size (list_to_set all : gset str) = length labels.
Proof.
  intros Hnd Hiff.
  assert (E : (list_to_set all : gset str) = list_to_set labels).
  { apply set_eq. intros x. rewrite !elem_of_list_to_set. symmetry. apply Hiff. }
  rewrite E. apply size_list_to_set. exact Hnd.
Qed.

(** C8.  In both report builders the speaker line shows the number of
    distinct speaker labels of the input ([labels] lists each of them
    once), the segment line shows the length of the input list, and the
    report is these lines joined by newlines. *)
Theorem report_counts (env : Env) (results : list TranscriptSegment)
    (input_filename : str) (labels : list str)
    (Hnodup : NoDup labels)
    (Hlabels : forall s, s ∈ labels <-> s ∈ map speaker results) :
  AudioTranscriber.markdown_lines env results input_filename !! 4%nat
    = Some (u"**👥 話者数**: " ++ str_of_nat (length labels) ++ u"名")
  /\ AudioTranscriber.markdown_lines env results input_filename !! 5%nat
    = Some (u"**📊 総セグメント数**: " ++ str_of_nat (length results) ++ u"個")
  /\ AudioTranscriber.create_markdown_report env results input_filename
    = join newline (AudioTranscriber.markdown_lines env results input_filename)
  /\ AudioProcessor.markdown_lines env results input_filename !! 4%nat
    = Some (u"**話者数**: " ++ str_of_nat (length labels) ++ u"名")
  /\ AudioProcessor.markdown_lines env results input_filename !! 5%nat
    = Some (u"**総セグメント数**: " ++ str_of_nat (length results) ++ u"個")
  /\ AudioProcessor.results_to_markdown env results input_filename
    = join newline (AudioProcessor.markdown_lines env results input_filename).
Proof.
  pose proof (size_of_labels labels (map speaker results) Hnodup Hlabels) as E.
  repeat split; try reflexivity;
    unfold AudioTranscriber.markdown_lines, AudioProcessor.markdown_lines;
    rewrite E; reflexivity.
Qed.

Lemma report_counts_witness :
  NoDup [u"SPEAKER_01"; u"SPEAKER_00"]
  /\ (forall s, s ∈ [u"SPEAKER_01"; u"SPEAKER_00"]
                 <-> s ∈ map speaker [greeting_T; answer_T; greeting_T])
  /\ AudioProcessor.markdown_lines demo_env [greeting_T; answer_T; greeting_T]
       (u"meeting.mp4") !! 4%nat
     = Some (u"**話者数**: " ++ str_of_nat 2 ++ u"名").
Proof.
  assert (Hnd : NoDup [u"SPEAKER_01"; u"SPEAKER_00"]).
  { apply (bool_decide_unpack _). vm_compute. exact I. }
  assert (Hl : forall s, s ∈ [u"SPEAKER_01"; u"SPEAKER_00"]
                     <-> s ∈ map speaker [greeting_T; answer_T; greeting_T]).
  { intros s. simpl. rewrite !elem_of_cons, !elem_of_nil. tauto. }
  split; [exact Hnd|]. split; [exact Hl|].
  exact (proj1 (proj2 (proj2 (proj2
    (report_counts demo_env [greeting_T; answer_T; greeting_T]
       (u"meeting.mp4") _ Hnd Hl))))).
Defined.

(* ===================================================================== *)
(** * Upload size checks *)
(* ===================================================================== *)

Lemma above_1000_above_500 (q : Q) :
  Qlt_bool 1000 q = true -> Qlt_bool 500 q = true.
Proof.
  unfold Qlt_bool. intros H.
  destruct (Qle_bool q 500) eqn:E; [|reflexivity].
  apply Qle_bool_iff in E.
  assert (E' : (q <= 1000)%Q).
  { eapply Qle_trans; [exact E|]. unfold Qle. simpl. lia. }
  apply Qle_bool_iff in E'. rewrite E' in H. discriminate.
Qed.

(** C6, on the code.  An upload of 1500 MB to app.py gets the warning and
    the start button, and the run is not halted; indeed for no size does
    app.py reach its [st.stop()], the test for 1000 MB standing behind the
    test for 500 MB.  The warning above 500 MB is shown by both variants. *)
Theorem hard_stop_never_reached :
  App.upload_section (1500 * 1024 * 1024)
    = ([st_success; st_info; st_warning; st_button], false)
  /\ (forall len, snd (App.upload_section len) = false
                  /\ st_button ∈ fst (App.upload_section len))
  /\ (forall len, Qlt_bool 500 (file_size_mb len) = true ->
        st_warning ∈ fst (App.upload_section len)
        /\ st_warning ∈ fst (WebApp.upload_section len)).
Proof.
  split; [vm_compute; reflexivity|]. split.
  - intros len. unfold App.upload_section.
    destruct (Qlt_bool 500 (file_size_mb len)) eqn:E5; simpl.
    + split; [reflexivity|]. rewrite !elem_of_cons. tauto.
    + destruct (Qlt_bool 1000 (file_size_mb len)) eqn:E10.
      * apply above_1000_above_500 in E10. congruence.
      * simpl. split; [reflexivity|]. rewrite !elem_of_cons. tauto.
  - intros len H. unfold App.upload_section, WebApp.upload_section.
    rewrite H. simpl. rewrite !elem_of_cons. tauto.
Qed.

(* ===================================================================== *)
(** * One segment at a time *)
(* ===================================================================== *)

Ltac unfold_monad :=
  unfold bind, try_except, try_finally, get_self, get_world, with_world,
    with_self, modify, of_outcome, ret, raise, attr_of, callable in *.

Lemma audio_crop_run {O} (env : Env) (h : option handle) (audio_path : str)
    (segment : Segment) (m : Machine O) :
  audio_crop env h audio_path segment m =
  match h with
  | None => (Raise AttributeError, m)
  | Some _ =>
    (match crop env audio_path segment with
     | Returns a => Ok a
     | Fails msg => Raise (ModelError msg)
     end, crop_logged audio_path segment m)
  end.
Proof.
  destruct h; [|reflexivity].
  unfold audio_crop. unfold_monad. simpl.
  destruct (crop env audio_path segment); reflexivity.
Qed.

Lemma run_whisper_run {O} (env : Env) (p md : option handle)
    (waveform : Waveform) (sample_rate : Z) (m : Machine O) :
  run_whisper env p md waveform sample_rate m =
  match p, md with
  | Some _, Some _ =>
    (match whisper env waveform sample_rate with
     | Returns txt => Ok txt
     | Fails msg => Raise (ModelError msg)
     end, asr_logged waveform sample_rate m)
  | None, _ => (Raise TypeError, m)
  | Some _, None => (Raise AttributeError, m)
  end.
Proof.
  destruct p, md; try reflexivity.
  unfold run_whisper. unfold_monad. simpl.
  destruct (whisper env waveform sample_rate); reflexivity.
Qed.

(** The recogniser's wrapper never raises. *)
Lemma transcribe_audio_segment_run (env : Env) (waveform : Waveform)
    (sample_rate : Z) (m : Machine AudioTranscriber.t) :
  AudioTranscriber._transcribe_audio_segment env waveform sample_rate m =
  match AudioTranscriber.whisper_processor (self m),
        AudioTranscriber.whisper_model (self m) with
  | Some _, Some _ =>
    (Ok (heard env waveform sample_rate), asr_logged waveform sample_rate m)
  | _, _ => (Ok None, m)
  end.
Proof.
  unfold AudioTranscriber._transcribe_audio_segment, try_except, bind at 1.
  unfold get_self at 1. unfold bind. rewrite run_whisper_run. unfold heard.
  destruct (AudioTranscriber.whisper_processor (self m)),
           (AudioTranscriber.whisper_model (self m)); try reflexivity.
  destruct (whisper env waveform sample_rate); reflexivity.
Qed.

Lemma transcribe_segment_run (env : Env) (waveform : Waveform)
    (sample_rate : Z) (m : Machine AudioProcessor.t) :
  AudioProcessor._transcribe_segment env waveform sample_rate m =
  match AudioProcessor.processor (self m), AudioProcessor.model (self m) with
  | Some _, Some _ =>
    (Ok (heard env waveform sample_rate), asr_logged waveform sample_rate m)
  | _, _ => (Ok None, m)
  end.
Proof.
  unfold AudioProcessor._transcribe_segment, try_except, bind at 1.
  unfold get_self at 1. unfold bind. rewrite run_whisper_run. unfold heard.
  destruct (AudioProcessor.processor (self m)),
           (AudioProcessor.model (self m)); try reflexivity.
  destruct (whisper env waveform sample_rate); reflexivity.
Qed.

(** One iteration of the loop of [transcribe_file], case by case. *)
Lemma transcribe_loop_cons (env : Env) (audio_path : str) (segment : Segment)
    (label : str) (rest : list Track) (acc : list TranscriptSegment)
    (m : Machine AudioTranscriber.t) :
  AudioTranscriber.transcribe_loop env audio_path ((segment, label) :: rest)
    acc m =
  if Qlt_bool (seg_duration segment) (1 # 2)
  then AudioTranscriber.transcribe_loop env audio_path rest acc m
  else
    match AudioTranscriber.audio_handler (self m) with
    | None => (Raise AttributeError, m)
    | Some _ =>
      match crop env audio_path segment with
      | Fails msg =>
        (Raise (ModelError msg), crop_logged audio_path segment m)
      | Returns (waveform, sample_rate) =>
        match AudioTranscriber.whisper_processor (self m),
              AudioTranscriber.whisper_model (self m) with
        | Some _, Some _ =>
          AudioTranscriber.transcribe_loop env audio_path rest
            (appended AudioTranscriber._seconds_to_timestamp segment label
               (heard env waveform sample_rate) acc)
            (asr_logged waveform sample_rate
               (crop_logged audio_path segment m))
        | _, _ =>
          AudioTranscriber.transcribe_loop env audio_path rest acc
            (crop_logged audio_path segment m)
        end
      end
    end.
Proof.
  cbn [AudioTranscriber.transcribe_loop].
  destruct (Qlt_bool (seg_duration segment) (1 # 2)); [reflexivity|].
  unfold bind at 1. unfold get_self at 1.
  unfold bind at 1. rewrite audio_crop_run.
  destruct (AudioTranscriber.audio_handler (self m)); [|reflexivity].
  destruct (crop env audio_path segment) as [[waveform sample_rate]|msg];
    [|reflexivity].
  unfold bind at 1. rewrite transcribe_audio_segment_run. simpl self.
  destruct (AudioTranscriber.whisper_processor (self m)),
           (AudioTranscriber.whisper_model (self m)); try reflexivity.
  unfold appended, keeps.
  destruct (heard env waveform sample_rate) as [txt|]; [|reflexivity].
  destruct (negb (is_empty txt) && negb (is_empty (strip txt))); reflexivity.
Qed.

(** One iteration of the loop of [process_file], case by case: whatever
    happens, the iteration ends normally. *)
Lemma process_segment_run (env : Env) (audio_path : str) (segment : Segment)
    (label : str) (acc : list TranscriptSegment)
    (m : Machine AudioProcessor.t) :
  AudioProcessor.process_segment env audio_path segment label acc m =
  match AudioProcessor.audio_handler (self m) with
  | None => (Ok acc, m)
  | Some _ =>
    let m1 := crop_logged audio_path segment m in
    match crop env audio_path segment with
    | Fails _ => (Ok acc, m1)
    | Returns (waveform, sample_rate) =>
      if sample_rate =? 0 then (Ok acc, m1)
      else if Qlt_bool (inject_Z (shape_last waveform) / inject_Z sample_rate)
                (1 # 10)
      then (Ok acc, m1)
      else
        match AudioProcessor.processor (self m),
              AudioProcessor.model (self m) with
        | Some _, Some _ =>
          (Ok (appended AudioProcessor._format_time segment label
                 (heard env waveform sample_rate) acc),
           asr_logged waveform sample_rate m1)
        | _, _ => (Ok acc, m1)
        end
    end
  end.
Proof.
  unfold AudioProcessor.process_segment, try_except.
  unfold bind at 1. unfold get_self at 1.
  unfold bind at 1. rewrite audio_crop_run.
  destruct (AudioProcessor.audio_handler (self m)); [|reflexivity].
  destruct (crop env audio_path segment) as [[waveform sample_rate]|msg];
    [|reflexivity].
  cbn zeta. unfold bind at 1. unfold AudioProcessor.cropped_duration.
  destruct (sample_rate =? 0); [reflexivity|].
  unfold ret at 1.
  destruct (Qlt_bool _ (1 # 10)); [reflexivity|].
  unfold bind. rewrite transcribe_segment_run. simpl self.
  destruct (AudioProcessor.processor (self m)),
           (AudioProcessor.model (self m)); try reflexivity.
  unfold appended, keeps.
  destruct (heard env waveform sample_rate) as [txt|]; [|reflexivity].
  destruct (negb (is_empty txt) && negb (is_empty (strip txt))); reflexivity.
Qed.

Lemma process_loop_cons (env : Env) (audio_path : str) (segment : Segment)
    (label : str) (rest : list Track) (acc : list TranscriptSegment)
    (m : Machine AudioProcessor.t) :
  AudioProcessor.process_loop env audio_path ((segment, label) :: rest) acc m =
  match AudioProcessor.process_segment env audio_path segment label acc m with
  | (Ok acc', m') => AudioProcessor.process_loop env audio_path rest acc' m'
  | (Raise e, m') => (Raise e, m')
  end.
Proof. reflexivity. Qed.

(* ===================================================================== *)
(** * What the loops leave alone *)
(* ===================================================================== *)

Lemma same_but_logs_refl {O} (m : Machine O) : same_but_logs m m.
Proof. repeat split. Qed.

Lemma same_but_logs_trans {O} (m1 m2 m3 : Machine O) :
  same_but_logs m1 m2 -> same_but_logs m2 m3 -> same_but_logs m1 m3.
Proof.
  unfold same_but_logs. intros (A1 & A2 & A3 & A4 & A5 & A6 & A7)
                               (B1 & B2 & B3 & B4 & B5 & B6 & B7).
  repeat split; congruence.
Qed.

Lemma same_but_logs_crop {O} (audio_path : str) (segment : Segment)
    (m : Machine O) :
  same_but_logs m (crop_logged audio_path segment m).
Proof. repeat split. Qed.

Lemma same_but_logs_asr {O} (waveform : Waveform) (sample_rate : Z)
    (m : Machine O) :
  same_but_logs m (asr_logged waveform sample_rate m).
Proof. repeat split. Qed.

Create HintDb frame.
#[local] Hint Resolve same_but_logs_refl same_but_logs_crop
  same_but_logs_asr : frame.

Lemma transcribe_loop_frame (env : Env) (audio_path : str)
    (tracks : list Track) :
  forall acc m,
    same_but_logs m
      (snd (AudioTranscriber.transcribe_loop env audio_path tracks acc m)).
Proof.
  induction tracks as [|[segment label] rest IH]; intros acc m.
  - apply same_but_logs_refl.
  - rewrite transcribe_loop_cons.
    destruct (Qlt_bool _ _); [apply IH|].
    destruct (AudioTranscriber.audio_handler (self m)); [|auto with frame].
    destruct (crop env audio_path segment) as [[waveform sample_rate]|msg];
      [|simpl; auto with frame].
    destruct (AudioTranscriber.whisper_processor (self m)),
             (AudioTranscriber.whisper_model (self m));
      (eapply same_but_logs_trans; [|apply IH]);
      try (eapply same_but_logs_trans; [apply same_but_logs_crop|]);
      auto with frame.
Qed.

Lemma process_segment_frame (env : Env) (audio_path : str)
    (segment : Segment) (label : str) (acc : list TranscriptSegment)
    (m : Machine AudioProcessor.t) :
  same_but_logs m
    (snd (AudioProcessor.process_segment env audio_path segment label acc m)).
Proof.
  rewrite process_segment_run.
  destruct (AudioProcessor.audio_handler (self m)); [|auto with frame].
  cbn zeta.
  destruct (crop env audio_path segment) as [[waveform sample_rate]|msg];
    [|simpl; auto with frame].
  destruct (sample_rate =? 0); [simpl; auto with frame|].
  destruct (Qlt_bool _ _); [simpl; auto with frame|].
  destruct (AudioProcessor.processor (self m)),
           (AudioProcessor.model (self m)); simpl; auto with frame.
  eapply same_but_logs_trans;
    [apply same_but_logs_crop | apply same_but_logs_asr].
Qed.

(** An iteration of [process_file]'s loop always ends normally. *)
Lemma process_segment_total (env : Env) (audio_path : str)
    (segment : Segment) (label : str) (acc : list TranscriptSegment)
    (m : Machine AudioProcessor.t) :
  exists acc',
    fst (AudioProcessor.process_segment env audio_path segment label acc m)
    = Ok acc'.
Proof.
  rewrite process_segment_run.
  destruct (AudioProcessor.audio_handler (self m)); [|eauto].
  cbn zeta.
  destruct (crop env audio_path segment) as [[waveform sample_rate]|msg];
    [|eauto].
  destruct (sample_rate =? 0); [eauto|].
  destruct (Qlt_bool _ _); [eauto|].
  destruct (AudioProcessor.processor (self m)),
           (AudioProcessor.model (self m)); eauto.
Qed.

Lemma process_loop_frame (env : Env) (audio_path : str)
    (tracks : list Track) :
  forall acc m,
    same_but_logs m
      (snd (AudioProcessor.process_loop env audio_path tracks acc m)).
Proof.
  induction tracks as [|[segment label] rest IH]; intros acc m.
  - apply same_but_logs_refl.
  - rewrite process_loop_cons.
    pose proof (process_segment_frame env audio_path segment label acc m) as F.
    destruct (AudioProcessor.process_segment env audio_path segment label acc m)
      as [[acc'|e] m']; simpl in F.
    + eapply same_but_logs_trans; [exact F|apply IH].
    + exact F.
Qed.

(** No crop error and no transcription error ends the loop of
    [process_file]: it runs through all segments and returns a list. *)
Lemma process_loop_total (env : Env) (audio_path : str)
    (tracks : list Track) :
  forall acc m,
    exists results,
      fst (AudioProcessor.process_loop env audio_path tracks acc m)
      = Ok results.
Proof.
  induction tracks as [|[segment label] rest IH]; intros acc m.
  - exists acc. reflexivity.
  - rewrite process_loop_cons.
    destruct (process_segment_total env audio_path segment label acc m)
      as [acc' E].
    destruct (AudioProcessor.process_segment env audio_path segment label acc m)
      as [[acc''|e] m']; simpl in E; [|discriminate].
    apply IH.
Qed.

(** In the loop of [transcribe_file] a failure of the recogniser is
    contained: with a working cropper the loop returns a list. *)
Lemma transcribe_loop_total (env : Env) (audio_path : str)
    (tracks : list Track) :
  forall acc m,
    is_Some (AudioTranscriber.audio_handler (self m)) ->
    Forall (croppable env audio_path) tracks ->
    exists results,
      fst (AudioTranscriber.transcribe_loop env audio_path tracks acc m)
      = Ok results.
Proof.
  induction tracks as [|[segment label] rest IH]; intros acc m Hh Hc.
  - exists acc. reflexivity.
  - rewrite transcribe_loop_cons.
    inversion Hc as [|? ? (waveform & sample_rate & Ec & _) Hrest]; subst.
    simpl in Ec.
    destruct (Qlt_bool _ _); [apply IH; assumption|].
    destruct Hh as [h Hh]. rewrite Hh, Ec.
    destruct (AudioTranscriber.whisper_processor (self m)),
             (AudioTranscriber.whisper_model (self m));
      apply IH; simpl; eauto.
Qed.

(* ===================================================================== *)
(** * Stored texts *)
(* ===================================================================== *)

Lemma appended_trimmed (fmt : Q -> str) (segment : Segment) (label : str)
    (transcribed : option str) (acc : list TranscriptSegment) :
  Forall trimmed_nonempty acc ->
  Forall trimmed_nonempty (appended fmt segment label transcribed acc).
Proof.
  intros Hacc. unfold appended.
  destruct transcribed as [txt|]; [|exact Hacc].
  destruct (keeps txt) eqn:Ek; [|exact Hacc].
  apply Forall_app. split; [exact Hacc|].
  constructor; [|constructor].
  unfold trimmed_nonempty. simpl. apply keeps_trimmed. exact Ek.
Qed.

Lemma transcribe_loop_trimmed (env : Env) (audio_path : str)
    (tracks : list Track) :
  forall acc m results,
    Forall trimmed_nonempty acc ->
    fst (AudioTranscriber.transcribe_loop env audio_path tracks acc m)
      = Ok results ->
    Forall trimmed_nonempty results.
Proof.
  induction tracks as [|[segment label] rest IH]; intros acc m results Hacc.
  - simpl. intros [= <-]. exact Hacc.
  - rewrite transcribe_loop_cons.
    destruct (Qlt_bool _ _); [apply IH; exact Hacc|].
    destruct (AudioTranscriber.audio_handler (self m)); [|discriminate].
    destruct (crop env audio_path segment) as [[waveform sample_rate]|msg];
      [|discriminate].
    destruct (AudioTranscriber.whisper_processor (self m)),
             (AudioTranscriber.whisper_model (self m));
      apply IH; try exact Hacc.
    apply appended_trimmed. exact Hacc.
Qed.

Lemma process_segment_trimmed (env : Env) (audio_path : str)
    (segment : Segment) (label : str) (acc : list TranscriptSegment)
    (m : Machine AudioProcessor.t) (acc' : list TranscriptSegment) :
  Forall trimmed_nonempty acc ->
  fst (AudioProcessor.process_segment env audio_path segment label acc m)
    = Ok acc' ->
  Forall trimmed_nonempty acc'.
Proof.
  intros Hacc. rewrite process_segment_run.
  destruct (AudioProcessor.audio_handler (self m));
    [|intros [= <-]; exact Hacc].
  cbn zeta.
  destruct (crop env audio_path segment) as [[waveform sample_rate]|msg];
    [|intros [= <-]; exact Hacc].
  destruct (sample_rate =? 0); [intros [= <-]; exact Hacc|].
  destruct (Qlt_bool _ _); [intros [= <-]; exact Hacc|].
  destruct (AudioProcessor.processor (self m)),
           (AudioProcessor.model (self m));
    intros [= <-]; try exact Hacc.
  apply appended_trimmed. exact Hacc.
Qed.

Lemma process_loop_trimmed (env : Env) (audio_path : str)
    (tracks : list Track) :
  forall acc m results,
    Forall trimmed_nonempty acc ->
    fst (AudioProcessor.process_loop env audio_path tracks acc m)
      = Ok results ->
    Forall trimmed_nonempty results.
Proof.
  induction tracks as [|[segment label] rest IH]; intros acc m results Hacc.
  - simpl. intros [= <-]. exact Hacc.
  - rewrite process_loop_cons.
    pose proof (process_segment_trimmed env audio_path segment label acc m)
      as Hs.
    destruct (AudioProcessor.process_segment env audio_path segment label acc m)
      as [[acc'|e] m']; simpl in Hs; [|discriminate].
    apply IH. apply Hs; [exact Hacc|reflexivity].
Qed.

(* ===================================================================== *)
(** * How many segments are emitted *)
(* ===================================================================== *)






Lemma demo_croppable (audio_path : str) (tracks : list Track) :
  Forall (croppable demo_env audio_path) tracks.
Proof.
  apply Forall_forall. intros [segment label] _.
  exists (fst (crop_16k segment)), 16000. split; [reflexivity|lia].
Defined.

Lemma ready_T_loaded : loaded_T (self ready_T).
Proof. repeat split; eexists; vm_compute; reflexivity. Defined.

Lemma ready_P_loaded : loaded_P (self ready_P).
Proof. repeat split; eexists; vm_compute; reflexivity. Defined.


(* ===================================================================== *)
(** * Which calls are made *)
(* ===================================================================== *)

Lemma Forall_witness_cons {X : Type} (Q : X -> Track -> Prop) (tr0 : Track)
    (rest : list Track) (l : list X) :
  Forall (fun x => exists tr, tr ∈ rest /\ Q x tr) l ->
  Forall (fun x => exists tr, tr ∈ tr0 :: rest /\ Q x tr) l.
Proof.
  apply Forall_impl. intros x (tr & Hin & HQ).
  exists tr. split; [right; exact Hin|exact HQ].
Qed.

(** The calls the loop of [transcribe_file] adds to the records: crops of
    segments that are not below the threshold, and runs of the recogniser
    on such crops. *)
Lemma transcribe_loop_calls (env : Env) (audio_path : str)
    (tracks : list Track) :
  forall acc m,
    exists crops asrs,
      let m' :=
        snd (AudioTranscriber.transcribe_loop env audio_path tracks acc m) in
      crop_log (world m') = crops ++ crop_log (world m)
      /\ asr_log (world m') = asrs ++ asr_log (world m)
      /\ Forall (fun c => exists tr, tr ∈ tracks
                                     /\ (c = (audio_path, fst tr)
                                         /\ below_T tr = false)) crops
      /\ Forall (fun a => exists tr, tr ∈ tracks
                                     /\ (below_T tr = false
                                         /\ crop env audio_path (fst tr)
                                            = Returns a)) asrs.
Proof.
  induction tracks as [|[segment label] rest IH]; intros acc m.
  - exists [], []. simpl. repeat split; constructor.
  - rewrite transcribe_loop_cons.
    destruct (Qlt_bool (seg_duration segment) (1 # 2)) eqn:Eb.
    { destruct (IH acc m) as (crops & asrs & Hc & Ha & Fc & Fa).
      exists crops, asrs. cbn zeta.
      repeat split; try assumption; apply Forall_witness_cons; assumption. }
    destruct (AudioTranscriber.audio_handler (self m)).
    2:{ exists [], []. simpl. repeat split; constructor. }
    assert (Hthis : exists tr : Track,
               tr ∈ (segment, label) :: rest
               /\ ((audio_path, segment) = (audio_path, fst tr)
                   /\ below_T tr = false)).
    { exists (segment, label). split; [left|]. split; [reflexivity|exact Eb]. }
    destruct (crop env audio_path segment) as [[waveform sample_rate]|msg] eqn:Ec.
    2:{ exists [(audio_path, segment)], []. simpl.
        repeat split; repeat constructor. exact Hthis. }
    destruct (AudioTranscriber.whisper_processor (self m)),
             (AudioTranscriber.whisper_model (self m)).
    1:{ destruct (IH (appended AudioTranscriber._seconds_to_timestamp segment
                        label (heard env waveform sample_rate) acc)
                     (asr_logged waveform sample_rate
                        (crop_logged audio_path segment m)))
          as (crops & asrs & Hc & Ha & Fc & Fa).
        exists (crops ++ [(audio_path, segment)]),
               (asrs ++ [(waveform, sample_rate)]).
        cbn zeta in *. rewrite Hc, Ha. simpl. rewrite <- !app_assoc.
        repeat split.
        - apply Forall_app. split; [|repeat constructor; exact Hthis].
          apply Forall_witness_cons. exact Fc.
        - apply Forall_app. split; [apply Forall_witness_cons; exact Fa|].
          repeat constructor. exists (segment, label).
          split; [left|]. split; [exact Eb|exact Ec]. }
    all: destruct (IH acc (crop_logged audio_path segment m))
           as (crops & asrs & Hc & Ha & Fc & Fa);
         exists (crops ++ [(audio_path, segment)]), asrs;
         cbn zeta in *; rewrite Hc, Ha; simpl; rewrite <- !app_assoc;
         repeat split;
         [ apply Forall_app; split; [|repeat constructor; exact Hthis];
           apply Forall_witness_cons; exact Fc
         | apply Forall_witness_cons; exact Fa ].
Qed.

(** One iteration of [process_file]'s loop runs the recogniser at most
    once, and only on a crop that is not below the threshold. *)
Lemma process_segment_calls (env : Env) (audio_path : str)
    (segment : Segment) (label : str) (acc : list TranscriptSegment)
    (m : Machine AudioProcessor.t) :
  exists asrs,
    let m' :=
      snd (AudioProcessor.process_segment env audio_path segment label acc m) in
    asr_log (world m') = asrs ++ asr_log (world m)
    /\ Forall (fun a => below_P env audio_path (segment, label) = false
                        /\ crop env audio_path segment = Returns a) asrs.
Proof.
  rewrite process_segment_run.
  destruct (AudioProcessor.audio_handler (self m));
    [|exists []; split; [reflexivity|constructor]].
  cbn zeta.
  destruct (crop env audio_path segment) as [[waveform sample_rate]|msg] eqn:Ec;
    [|exists []; split; [reflexivity|constructor]].
  destruct (sample_rate =? 0);
    [exists []; split; [reflexivity|constructor]|].
  destruct (Qlt_bool _ (1 # 10)) eqn:Eb;
    [exists []; split; [reflexivity|constructor]|].
  destruct (AudioProcessor.processor (self m)),
           (AudioProcessor.model (self m));
    try (exists []; split; [reflexivity|constructor]).
  exists [(waveform, sample_rate)]. split; [reflexivity|].
  repeat constructor. unfold below_P. cbn [fst]. rewrite Ec. exact Eb.
Qed.

Lemma process_loop_calls (env : Env) (audio_path : str)
    (tracks : list Track) :
  forall acc m,
    exists asrs,
      let m' :=
        snd (AudioProcessor.process_loop env audio_path tracks acc m) in
      asr_log (world m') = asrs ++ asr_log (world m)
      /\ Forall (fun a => exists tr, tr ∈ tracks
                                     /\ (below_P env audio_path tr = false
                                         /\ crop env audio_path (fst tr)
                                            = Returns a)) asrs.
Proof.
  induction tracks as [|[segment label] rest IH]; intros acc m.
  - exists []. simpl. split; [reflexivity|constructor].
  - rewrite process_loop_cons.
    destruct (process_segment_calls env audio_path segment label acc m)
      as (asrs1 & Ha1 & F1).
    assert (F1' : Forall (fun a => exists tr : Track,
                            tr ∈ (segment, label) :: rest
                            /\ (below_P env audio_path tr = false
                                /\ crop env audio_path (fst tr) = Returns a))
                    asrs1).
    { revert F1. apply Forall_impl. intros a Ha.
      exists (segment, label). split; [left|exact Ha]. }
    destruct (AudioProcessor.process_segment env audio_path segment label acc m)
      as [[acc'|e] m1]; cbn zeta in Ha1; simpl in Ha1.
    + destruct (IH acc' m1) as (asrs & Ha & F).
      exists (asrs ++ asrs1). cbn zeta in *.
      rewrite Ha, Ha1, app_assoc. split; [reflexivity|].
      apply Forall_app. split; [apply Forall_witness_cons; exact F|exact F1'].
    + exists asrs1. simpl. split; [exact Ha1|exact F1'].
Qed.

(** With an audio handler, the loop of [process_file] crops every segment,
    in order, whatever its duration. *)
Lemma process_loop_crops (env : Env) (audio_path : str)
    (tracks : list Track) :
  forall acc m,
    is_Some (AudioProcessor.audio_handler (self m)) ->
    crop_log (world (snd (AudioProcessor.process_loop env audio_path tracks
                            acc m)))
    = rev (map (fun tr => (audio_path, fst tr)) tracks) ++ crop_log (world m).
Proof.
  induction tracks as [|[segment label] rest IH]; intros acc m Hh.
  - reflexivity.
  - rewrite process_loop_cons.
    pose proof (process_segment_frame env audio_path segment label acc m) as F.
    assert (Hc : crop_log (world (snd (AudioProcessor.process_segment env
                                         audio_path segment label acc m)))
                 = (audio_path, segment) :: crop_log (world m)).
    { rewrite process_segment_run. destruct Hh as [h ->]. cbn zeta.
      destruct (crop env audio_path segment) as [[waveform sample_rate]|msg];
        [|reflexivity].
      destruct (sample_rate =? 0); [reflexivity|].
      destruct (Qlt_bool _ _); [reflexivity|].
      destruct (AudioProcessor.processor (self m)),
               (AudioProcessor.model (self m)); reflexivity. }
    destruct (process_segment_total env audio_path segment label acc m)
      as [acc' E].
    destruct (AudioProcessor.process_segment env audio_path segment label acc m)
      as [[acc''|e] m1]; simpl in E; [|discriminate].
    simpl in Hc, F. rewrite IH.
    + rewrite Hc. simpl. rewrite <- app_assoc. reflexivity.
    + destruct F as (-> & _). exact Hh.
Qed.

(** C5, amended.  [transcribe_file] skips a segment below its threshold
    before anything else: every crop and every run of the recogniser its
    loop adds is for a segment that is not below 0.5 s.  [process_file]
    crops first, every segment, and tests the crop: every run of the
    recogniser its loop adds is on a crop that is not below 0.1 s. *)
Theorem skipped_before_transcription (env : Env) (audio_path : str)
    (tracks : list Track) (acc : list TranscriptSegment) :
  (forall m,
     exists crops asrs,
       let m' :=
         snd (AudioTranscriber.transcribe_loop env audio_path tracks acc m) in
       crop_log (world m') = crops ++ crop_log (world m)
       /\ asr_log (world m') = asrs ++ asr_log (world m)
       /\ Forall (fun c => exists tr, tr ∈ tracks
                                      /\ (c = (audio_path, fst tr)
                                          /\ below_T tr = false)) crops
       /\ Forall (fun a => exists tr, tr ∈ tracks
                                      /\ (below_T tr = false
                                          /\ crop env audio_path (fst tr)
                                             = Returns a)) asrs)
  /\ (forall m,
     exists asrs,
       let m' :=
         snd (AudioProcessor.process_loop env audio_path tracks acc m) in
       asr_log (world m') = asrs ++ asr_log (world m)
       /\ Forall (fun a => exists tr, tr ∈ tracks
                                      /\ (below_P env audio_path tr = false
                                          /\ crop env audio_path (fst tr)
                                             = Returns a)) asrs)
  /\ (forall m,
     is_Some (AudioProcessor.audio_handler (self m)) ->
     crop_log (world (snd (AudioProcessor.process_loop env audio_path tracks
                             acc m)))
     = rev (map (fun tr => (audio_path, fst tr)) tracks)
         ++ crop_log (world m)).
Proof.
  split; [|split]; intros m.
  - apply transcribe_loop_calls.
  - apply process_loop_calls.
  - apply process_loop_crops.
Qed.

Lemma skipped_before_transcription_witness :
  is_Some (AudioProcessor.audio_handler (self ready_P))
  /\ crop_log (world (snd (AudioProcessor.process_loop demo_env
                             (u"meeting.wav") short_then_greeting []
                             ready_P)))
     = rev (map (fun tr => (u"meeting.wav", fst tr)) short_then_greeting)
         ++ crop_log (world ready_P).
Proof.
  assert (H : is_Some (AudioProcessor.audio_handler (self ready_P)))
    by (eexists; vm_compute; reflexivity).
  split; [exact H|].
  exact (proj2 (proj2 (skipped_before_transcription demo_env (u"meeting.wav")
                         short_then_greeting [])) ready_P H).
Defined.

(** C5, as stated, fails for [process_file].  The segment lasts 0.05 s and
    so does its crop (800 samples at 16 kHz), below both thresholds; the
    loop of [process_file] has cropped it all the same, and has not run the
    recogniser. *)
Lemma short_segment_is_cropped :
  let short := segment_of 0 (1 # 20) in
  let m' := snd (AudioProcessor.process_loop demo_env (u"meeting.wav")
                   [(short, u"SPEAKER_00")] [] ready_P) in
  Qlt_bool (seg_duration short) (1 # 10) = true
  /\ below_P demo_env (u"meeting.wav") (short, u"SPEAKER_00") = true
  /\ crop_log (world ready_P) = []
  /\ crop_log (world m') = [(u"meeting.wav", short)]
  /\ asr_log (world m') = [].
Proof. repeat apply conj; vm_compute; reflexivity. Qed.

(* ===================================================================== *)
(** * From the loops to the whole functions *)
(* ===================================================================== *)

Lemma bind_Ok {S A B : Type} (c : M S A) (k : A -> M S B) (s : S) (b : B) :
  fst (bind c k s) = Ok b ->
  exists a s1, c s = (Ok a, s1) /\ fst (k a s1) = Ok b.
Proof.
  unfold bind. destruct (c s) as [[a|e] s1]; [|discriminate].
  intros H. exists a, s1. split; [reflexivity|exact H].
Qed.

Lemma try_finally_Ok {S A : Type} (c : M S A) (fin : M S unit) (s : S)
    (a : A) :
  fst (try_finally c fin s) = Ok a -> fst (c s) = Ok a.
Proof.
  unfold try_finally. destruct (c s) as [r s1].
  destruct (fin s1) as [[[]|e] s2]; [|discriminate].
  intros H. exact H.
Qed.

(** A list returned by [transcribe_file] is a list returned by its loop,
    started on the empty list. *)
Lemma transcribe_file_results (env : Env) (file_path : str)
    (m : Machine AudioTranscriber.t) (results : list TranscriptSegment) :
  fst (AudioTranscriber.transcribe_file env file_path m) = Ok results ->
  exists audio_path tracks m1,
    fst (AudioTranscriber.transcribe_loop env audio_path tracks [] m1)
    = Ok results.
Proof.
  unfold AudioTranscriber.transcribe_file. intros H.
  apply bind_Ok in H as (? & m1 & _ & H).
  apply bind_Ok in H as ([audio_path temp_file] & m2 & _ & H).
  apply try_finally_Ok in H.
  apply bind_Ok in H as (? & m3 & _ & H).
  apply bind_Ok in H as (? & m4 & _ & H).
  apply bind_Ok in H as (tracks & m5 & _ & H).
  eauto.
Qed.

Lemma process_file_results (env : Env) (input_path : str)
    (m : Machine AudioProcessor.t) (results : list TranscriptSegment) :
  fst (AudioProcessor.process_file env input_path m) = Ok results ->
  exists audio_path tracks m1,
    fst (AudioProcessor.process_loop env audio_path tracks [] m1)
    = Ok results.
Proof.
  unfold AudioProcessor.process_file. intros H.
  apply bind_Ok in H as (? & m1 & _ & H).
  apply bind_Ok in H as (? & m2 & _ & H).
  apply bind_Ok in H as (audio_path & m3 & _ & H).
  apply bind_Ok in H as (? & m4 & _ & H).
  apply bind_Ok in H as (? & m5 & _ & H).
  apply bind_Ok in H as (tracks & m6 & _ & H).
  eauto.
Qed.

(** C10.  Every entry of a list returned by [process_file] or by
    [transcribe_file] has a text that is non-empty and equal to its own
    trimmed value. *)
Theorem stored_text_trimmed (env : Env) (path : str)
    (results : list TranscriptSegment) :
  (forall m, fst (AudioProcessor.process_file env path m) = Ok results ->
             Forall trimmed_nonempty results)
  /\ (forall m, fst (AudioTranscriber.transcribe_file env path m) = Ok results ->
                Forall trimmed_nonempty results).
Proof.
  split; intros m H.
  - apply process_file_results in H as (audio_path & tracks & m1 & H).
    eapply process_loop_trimmed; [constructor|exact H].
  - apply transcribe_file_results in H as (audio_path & tracks & m1 & H).
    eapply transcribe_loop_trimmed; [constructor|exact H].
Qed.

Lemma stored_text_trimmed_witness :
  fst (AudioProcessor.process_file demo_env (u"meeting.mp4")
         (fresh_P empty_world)) = Ok [greeting_T; answer_T]
  /\ fst (AudioTranscriber.transcribe_file demo_env (u"meeting.mp4")
            (fresh_T empty_world)) = Ok [greeting_T; answer_T]
  /\ Forall trimmed_nonempty [greeting_T; answer_T].
Proof.
  assert (HP : fst (AudioProcessor.process_file demo_env (u"meeting.mp4")
                      (fresh_P empty_world)) = Ok [greeting_T; answer_T])
    by (vm_compute; reflexivity).
  assert (HT : fst (AudioTranscriber.transcribe_file demo_env (u"meeting.mp4")
                      (fresh_T empty_world)) = Ok [greeting_T; answer_T])
    by (vm_compute; reflexivity).
  split; [exact HP|]. split; [exact HT|].
  pose proof (proj1 (stored_text_trimmed demo_env (u"meeting.mp4")
                       [greeting_T; answer_T]) (fresh_P empty_world) HP) as _.
  exact (proj2 (stored_text_trimmed demo_env (u"meeting.mp4")
                  [greeting_T; answer_T]) (fresh_T empty_world) HT).
Defined.

(* ===================================================================== *)
(** * Errors on one segment *)
(* ===================================================================== *)

(** In [transcribe_file] a crop that raises ends the loop with that
    exception, whatever segments remain. *)
Lemma transcribe_loop_crop_error (env : Env) (audio_path : str)
    (segment : Segment) (label : str) (rest : list Track)
    (acc : list TranscriptSegment) (m : Machine AudioTranscriber.t)
    (msg : str) :
  below_T (segment, label) = false ->
  is_Some (AudioTranscriber.audio_handler (self m)) ->
  crop env audio_path segment = Fails msg ->
  AudioTranscriber.transcribe_loop env audio_path ((segment, label) :: rest)
    acc m
  = (Raise (ModelError msg), crop_logged audio_path segment m).
Proof.
  unfold below_T. cbn [fst]. intros Hb [h Hh] Hc.
  rewrite transcribe_loop_cons, Hb, Hh, Hc. reflexivity.
Qed.

(** C1, on the code.  The diarization gives three segments; cropping the
    second, which lasts two seconds, fails.  [process_file] skips it and
    returns the third; [transcribe_file], where the crop stands outside
    any [try], ends with the cropper's exception, the third segment never
    looked at.  An error of the recogniser is contained by both. *)
Theorem crop_error_ends_transcribe_file :
  fst (AudioProcessor.process_file whisper_fails_env (u"meeting.wav")
         (fresh_P empty_world)) = Ok [answer_T]
  /\ fst (AudioTranscriber.transcribe_file whisper_fails_env (u"meeting.wav")
            (fresh_T empty_world)) = Ok [answer_T]
  /\ fst (AudioProcessor.process_file crop_fails_env (u"meeting.wav")
            (fresh_P empty_world)) = Ok [answer_T]
  /\ fst (AudioTranscriber.transcribe_file crop_fails_env (u"meeting.wav")
            (fresh_T empty_world)) = Raise (ModelError (u"crop failed"))
  /\ map snd (crop_log (world (snd (AudioTranscriber.transcribe_file
                                      crop_fails_env (u"meeting.wav")
                                      (fresh_T empty_world)))))
     = [segment_of 1 3].
Proof. repeat apply conj; vm_compute; reflexivity. Qed.

(* ===================================================================== *)
(** * The pipeline and the output records *)
(* ===================================================================== *)

Section IgnoresOutput.
Context {O : Type}.

Lemma ignores_ret {A} (a : A) : ignores_output (O := O) (ret a).
Proof. intros hw hs m. reflexivity. Qed.

Lemma ignores_raise {A} (e : exn) :
  ignores_output (raise e : M (Machine O) A).
Proof. intros hw hs m. reflexivity. Qed.

Lemma ignores_bind {A B} (c : M (Machine O) A) (k : A -> M (Machine O) B) :
  ignores_output c -> (forall a, ignores_output (k a)) ->
  ignores_output (bind c k).
Proof.
  intros Hc Hk hw hs m. unfold bind. rewrite Hc.
  destruct (c m) as [[a|e] m1]; simpl; [apply Hk|reflexivity].
Qed.

Lemma ignores_try_except {A} (c : M (Machine O) A)
    (handler : exn -> M (Machine O) A) :
  ignores_output c -> (forall e, ignores_output (handler e)) ->
  ignores_output (try_except c handler).
Proof.
  intros Hc Hh hw hs m. unfold try_except. rewrite Hc.
  destruct (c m) as [[a|e] m1]; simpl; [reflexivity|].
  destruct (is_Exception e); [apply Hh|reflexivity].
Qed.

Lemma ignores_try_finally {A} (c : M (Machine O) A)
    (fin : M (Machine O) unit) :
  ignores_output c -> ignores_output fin ->
  ignores_output (try_finally c fin).
Proof.
  intros Hc Hf hw hs m. unfold try_finally. rewrite Hc.
  destruct (c m) as [r m1]. simpl. rewrite Hf.
  destruct (fin m1) as [[[]|e] m2]; reflexivity.
Qed.

Lemma ignores_get_self : ignores_output (O := O) get_self.
Proof. intros hw hs m. reflexivity. Qed.

Lemma ignores_with_self (f : O -> O) : ignores_output (with_self f).
Proof. intros hw hs m. reflexivity. Qed.

Lemma ignores_exists_ (path : str) : ignores_output (O := O) (exists_ path).
Proof. intros hw hs m. reflexivity. Qed.

Lemma ignores_unlink (path : str) : ignores_output (O := O) (unlink path).
Proof.
  intros hw hs m. unfold unlink. unfold_monad. simpl.
  destruct (bool_decide (path ∈ files (world m))); reflexivity.
Qed.

Lemma ignores_mkstemp (suffix prefix : str) :
  ignores_output (O := O) (mkstemp suffix prefix).
Proof. intros hw hs m. reflexivity. Qed.

Lemma ignores_new_object : ignores_output (O := O) new_object.
Proof. intros hw hs m. reflexivity. Qed.

Lemma ignores_check (env : Env) (step : load_step) :
  ignores_output (O := O) (check env step).
Proof.
  intros hw hs m. unfold check.
  destruct (load_answer env step); reflexivity.
Qed.

Lemma ignores_load (env : Env) (step : load_step) :
  ignores_output (O := O) (load env step).
Proof.
  apply ignores_bind; [apply ignores_check|].
  intros _. apply ignores_new_object.
Qed.

Lemma ignores_of_outcome {A} (o : outcome A) :
  ignores_output (O := O) (of_outcome o).
Proof. intros hw hs m. destruct o; reflexivity. Qed.

Lemma ignores_attr_of (field : option handle) :
  ignores_output (O := O) (attr_of field).
Proof. intros hw hs m. destruct field; reflexivity. Qed.

Lemma ignores_callable (field : option handle) :
  ignores_output (O := O) (callable field).
Proof. intros hw hs m. destruct field; reflexivity. Qed.

Lemma ignores_audio_crop (env : Env) (h : option handle) (audio_path : str)
    (segment : Segment) :
  ignores_output (O := O) (audio_crop env h audio_path segment).
Proof.
  intros hw hs m. rewrite !audio_crop_run. destruct h; reflexivity.
Qed.

Lemma ignores_run_whisper (env : Env) (p md : option handle)
    (waveform : Waveform) (sample_rate : Z) :
  ignores_output (O := O) (run_whisper env p md waveform sample_rate).
Proof.
  intros hw hs m. rewrite !run_whisper_run. destruct p, md; reflexivity.
Qed.

(** What ignores the output records leaves them as they were. *)
Lemma ignores_output_frame {A} (c : M (Machine O) A) :
  ignores_output c ->
  forall m, written (world (snd (c m))) = written (world m)
            /\ stdout (world (snd (c m))) = stdout (world m).
Proof.
  intros Hc m.
  pose proof (Hc (fun _ => written (world m)) (fun _ => stdout (world m)) m)
    as E.
  assert (Em : annotated (fun _ => written (world m))
                 (fun _ => stdout (world m)) m = m)
    by (destruct m as [o []]; reflexivity).
  rewrite Em in E. apply (f_equal snd) in E. simpl in E.
  rewrite E. split; reflexivity.
Qed.

End IgnoresOutput.

Create HintDb ignores.
#[local] Hint Resolve ignores_ret ignores_raise ignores_get_self
  ignores_with_self ignores_exists_ ignores_unlink ignores_mkstemp
  ignores_new_object ignores_check ignores_load ignores_of_outcome
  ignores_attr_of ignores_callable ignores_audio_crop ignores_run_whisper
  : ignores.

Ltac ignores_step :=
  first
    [ solve [auto with ignores]
    | apply ignores_bind; [|intros ?]
    | apply ignores_try_except; [|intros ?]
    | apply ignores_try_finally
    | match goal with
      | |- ignores_output (match ?x with _ => _ end) => destruct x
      end ].

Lemma ignores_load_models_T (env : Env) :
  ignores_output (AudioTranscriber._load_models env).
Proof.
  unfold AudioTranscriber._load_models. repeat ignores_step.
Qed.

Lemma ignores_transcribe_audio_segment (env : Env) (waveform : Waveform)
    (sample_rate : Z) :
  ignores_output
    (AudioTranscriber._transcribe_audio_segment env waveform sample_rate).
Proof.
  unfold AudioTranscriber._transcribe_audio_segment. repeat ignores_step.
Qed.

Lemma ignores_transcribe_loop (env : Env) (audio_path : str)
    (tracks : list Track) :
  forall acc,
    ignores_output
      (AudioTranscriber.transcribe_loop env audio_path tracks acc).
Proof.
  induction tracks as [|[segment label] rest IH]; intros acc.
  - apply ignores_ret.
  - cbn [AudioTranscriber.transcribe_loop].
    destruct (Qlt_bool _ _); [apply IH|].
    apply ignores_bind; [apply ignores_get_self|intros o].
    apply ignores_bind; [apply ignores_audio_crop|intros [waveform sample_rate]].
    apply ignores_bind;
      [apply ignores_transcribe_audio_segment|intros [txt|]]; [|apply IH].
    destruct (negb (is_empty txt) && negb (is_empty (strip txt))); apply IH.
Qed.

Lemma ignores_extract_audio_from_mp4 (env : Env) (mp4_path : str) :
  ignores_output (AudioTranscriber.extract_audio_from_mp4 env mp4_path).
Proof.
  unfold AudioTranscriber.extract_audio_from_mp4. repeat ignores_step.
Qed.

(** [transcribe_file] neither prints nor writes a report. *)
Lemma ignores_transcribe_file (env : Env) (file_path : str) :
  ignores_output (AudioTranscriber.transcribe_file env file_path).
Proof.
  unfold AudioTranscriber.transcribe_file.
  apply ignores_bind; [apply ignores_load_models_T|intros _].
  apply ignores_bind.
  - destruct (bool_decide _); [|apply ignores_ret].
    apply ignores_bind; [apply ignores_extract_audio_from_mp4|intros ?].
    apply ignores_ret.
  - intros [audio_path temp_file]. apply ignores_try_finally.
    + apply ignores_bind; [apply ignores_get_self|intros o].
      apply ignores_bind; [apply ignores_callable|intros ?].
      apply ignores_bind; [apply ignores_of_outcome|intros tracks].
      apply ignores_transcribe_loop.
    + destruct temp_file as [f|]; [|apply ignores_ret].
      apply ignores_bind; [apply ignores_exists_|intros [|]];
        auto with ignores.
Qed.

(* ===================================================================== *)
(** * The command line on an empty result *)
(* ===================================================================== *)

Lemma bind_run {S A B : Type} (c : M S A) (k : A -> M S B) (s s1 : S) (a : A) :
  c s = (Ok a, s1) -> bind c k s = k a s1.
Proof. intros E. unfold bind. rewrite E. reflexivity. Qed.

Lemma bind_raise {S A B : Type} (c : M S A) (k : A -> M S B) (s s1 : S)
    (e : exn) :
  c s = (Raise e, s1) -> bind c k s = (Raise e, s1).
Proof. intros E. unfold bind. rewrite E. reflexivity. Qed.

(** [main] on a command line that parses: the exit status and the world
    the body leaves. *)
Lemma main_parsed (env : Env) (args : Main.Args) (w : World) :
  Main.main env (Main.Parsed args) w
  = match Main.script env args (fresh_T w) with
    | (Ok _, m) => (0, world m)
    | (Raise (SystemExit code), m) => (code, world m)
    | (Raise _, m) => (1, world m)
    end.
Proof. reflexivity. Qed.

(** When the pipeline returns the empty list, the script prints the
    failure line and leaves through [sys.exit(1)]: the report is neither
    built nor saved. *)
Lemma script_on_empty_result (env : Env) (args : Main.Args) (w : World)
    (Hexists : Main.input_file args ∈ files w)
    (Hformat : lower (path_suffix (Main.input_file args))
                 ∈ Main.supported_formats)
    (Hempty : fst (AudioTranscriber.transcribe_file env (Main.input_file args)
                     (fresh_T w)) = Ok []) :
  exists m,
    Main.script env args (fresh_T w) = (Raise (SystemExit 1), m)
    /\ written (world m) = written w
    /\ head (stdout (world m))
       = Some (u"❌ 文字起こし結果が得られませんでした").
Proof.
  unfold Main.script.
  set (output_path := match Main.output args with Some o => _ | None => _ end).
  set (input_path := Main.input_file args) in *.
  rewrite (bind_run _ _ _ (fresh_T w) true);
    [|unfold exists_; unfold_monad; simpl;
      rewrite (bool_decide_eq_true_2 _ Hexists); reflexivity].
  cbn [negb].
  rewrite (bool_decide_eq_true_2 _ Hformat). cbn [negb].
  pose (hs := fun s : list str =>
          u"🚀 処理を開始します..." :: []
          :: (u"📄 出力ファイル: " ++ path_name output_path)
          :: (u"📁 入力ファイル: " ++ path_name input_path)
          :: concat (repeat (u"=") 50) :: u"🎵 音声文字起こしツール" :: s).
  destruct (AudioTranscriber.transcribe_file env input_path (fresh_T w))
    as [r m'] eqn:E.
  simpl in Hempty. subst r.
  pose proof (ignores_output_frame _ (ignores_transcribe_file env input_path)
                (fresh_T w)) as [Fw Fs].
  rewrite E in Fw, Fs. simpl in Fw, Fs.
  exists {| self := self m';
            world := set_stdout (cons (u"❌ 文字起こし結果が得られませんでした"))
                       (world (annotated id hs m')) |}.
  split; [|split; [exact Fw|reflexivity]].
  unfold bind at 1. unfold Main.banner. unfold print. unfold_monad.
  unfold Main.try_except_interrupt. cbn [self world fresh_T].
  match goal with
  | |- context [AudioTranscriber.transcribe_file env input_path ?mm] =>
    change mm with (annotated id hs (fresh_T w))
  end.
  rewrite ignores_transcribe_file, E. reflexivity.
Qed.

(** C4.  For an existing input of a supported format: when no segment
    survives, that is when [transcribe_file] returns the empty list, the
    command line ends with exit status 1; no report file is written, and
    the last line printed says that no transcription was obtained. *)
Theorem empty_result_is_failure (env : Env) (args : Main.Args) (w : World)
    (Hexists : Main.input_file args ∈ files w)
    (Hformat : lower (path_suffix (Main.input_file args))
                 ∈ Main.supported_formats)
    (Hempty : fst (AudioTranscriber.transcribe_file env (Main.input_file args)
                     (fresh_T w)) = Ok []) :
  fst (Main.main env (Main.Parsed args) w) = 1
  /\ written (snd (Main.main env (Main.Parsed args) w)) = written w
  /\ head (stdout (snd (Main.main env (Main.Parsed args) w)))
     = Some (u"❌ 文字起こし結果が得られませんでした").
Proof.
  destruct (script_on_empty_result env args w Hexists Hformat Hempty)
    as (m & E & Hw & Hs).
  rewrite main_parsed. rewrite E. simpl.
  split; [reflexivity|]. split; [exact Hw|exact Hs].
Qed.

Lemma empty_result_is_failure_witness :
  Main.input_file meeting_args ∈ files meeting_world
  /\ lower (path_suffix (Main.input_file meeting_args))
       ∈ Main.supported_formats
  /\ fst (AudioTranscriber.transcribe_file silence_env
            (Main.input_file meeting_args) (fresh_T meeting_world)) = Ok []
  /\ fst (Main.main silence_env (Main.Parsed meeting_args) meeting_world) = 1.
Proof.
  assert (H1 : Main.input_file meeting_args ∈ files meeting_world)
    by (apply (bool_decide_unpack _); vm_compute; exact I).
  assert (H2 : lower (path_suffix (Main.input_file meeting_args))
                 ∈ Main.supported_formats)
    by (apply (bool_decide_unpack _); vm_compute; exact I).
  assert (H3 : fst (AudioTranscriber.transcribe_file silence_env
                      (Main.input_file meeting_args) (fresh_T meeting_world))
               = Ok [])
    by (vm_compute; reflexivity).
  split; [exact H1|]. split; [exact H2|]. split; [exact H3|].
  exact (proj1 (empty_result_is_failure silence_env meeting_args
                  meeting_world H1 H2 H3)).
Defined.

(* ===================================================================== *)
(** * Loading the models *)
(* ===================================================================== *)

(** After a call of [AudioTranscriber._load_models] that returned, the
    diarization pipeline is set. *)
Lemma load_models_T_sets_pipeline (env : Env)
    (m m1 : Machine AudioTranscriber.t) :
  AudioTranscriber._load_models env m = (Ok tt, m1) ->
  is_Some (AudioTranscriber.diarization_pipeline (self m1)).
Proof.
  unfold AudioTranscriber._load_models, load, check, new_object.
  unfold_monad. simpl.
  destruct (AudioTranscriber.diarization_pipeline (self m)) eqn:Ep.
  - intros [= <-]. rewrite Ep. eauto.
  - destruct (load_answer env LoadPipeline); [discriminate|].
    destruct (load_answer env PipelineToDevice); [discriminate|].
    destruct (load_answer env LoadProcessor); [discriminate|].
    destruct (load_answer env LoadModel); [discriminate|].
    simpl. intros [= <-]. simpl. eauto.
Qed.

(** With the pipeline set, [AudioTranscriber._load_models] does nothing. *)
Lemma load_models_T_guard (env : Env) (m : Machine AudioTranscriber.t) :
  is_Some (AudioTranscriber.diarization_pipeline (self m)) ->
  AudioTranscriber._load_models env m = (Ok tt, m).
Proof.
  intros [p Hp]. unfold AudioTranscriber._load_models.
  unfold bind, get_self. rewrite Hp. reflexivity.
Qed.

Lemma bind_get_self_run {O B : Type} (k : O -> M (Machine O) B)
    (m : Machine O) :
  bind get_self k m = k (self m) m.
Proof. reflexivity. Qed.

Section Preserves.
Context {O X : Type} (view : Machine O -> X).

Lemma preserves_ret {A} (a : A) : preserves view (ret a).
Proof. intros m. reflexivity. Qed.

Lemma preserves_raise {A} (e : exn) :
  preserves view (raise e : M (Machine O) A).
Proof. intros m. reflexivity. Qed.

Lemma preserves_bind {A B} (c : M (Machine O) A)
    (k : A -> M (Machine O) B) :
  preserves view c -> (forall a, preserves view (k a)) ->
  preserves view (bind c k).
Proof.
  intros Hc Hk m. unfold bind. specialize (Hc m).
  destruct (c m) as [[a|e] m1]; simpl in *; [|exact Hc].
  rewrite Hk. exact Hc.
Qed.

Lemma preserves_try_except {A} (c : M (Machine O) A)
    (handler : exn -> M (Machine O) A) :
  preserves view c -> (forall e, preserves view (handler e)) ->
  preserves view (try_except c handler).
Proof.
  intros Hc Hh m. unfold try_except. specialize (Hc m).
  destruct (c m) as [[a|e] m1]; simpl in *; [exact Hc|].
  destruct (is_Exception e); [|exact Hc].
  rewrite Hh. exact Hc.
Qed.

Lemma preserves_get_self : preserves view get_self.
Proof. intros m. reflexivity. Qed.

Lemma preserves_exists_ (path : str) : preserves view (exists_ path).
Proof. intros m. reflexivity. Qed.

Lemma preserves_of_outcome {A} (o : outcome A) :
  preserves view (of_outcome o).
Proof. intros m. destruct o; reflexivity. Qed.

Lemma preserves_callable (field : option handle) :
  preserves view (callable field).
Proof. intros m. destruct field; reflexivity. Qed.

End Preserves.

Lemma preserves_models_mkstemp (suffix prefix : str) :
  preserves models_P (mkstemp suffix prefix).
Proof. intros m. reflexivity. Qed.

Lemma preserves_models_unlink (path : str) :
  preserves models_P (unlink path).
Proof.
  intros m. unfold unlink. unfold_monad. simpl.
  destruct (bool_decide (path ∈ files (world m))); reflexivity.
Qed.

Lemma preserves_models_extract (env : Env) (video_path : str) :
  preserves models_P (AudioProcessor.extract_audio_from_video env video_path).
Proof.
  unfold AudioProcessor.extract_audio_from_video.
  destruct (negb (MOVIEPY_AVAILABLE env)); [apply preserves_raise|].
  apply preserves_bind; [apply preserves_models_mkstemp|intros tmp].
  apply preserves_try_except.
  - destruct (VideoFileClip env video_path); try apply preserves_raise.
    intros m. reflexivity.
  - intros e. apply preserves_bind; [apply preserves_exists_|intros present].
    apply preserves_bind; [|intros ?; apply preserves_ret].
    destruct present; [apply preserves_models_unlink|apply preserves_ret].
Qed.

Lemma preserves_models_loop (env : Env) (audio_path : str)
    (tracks : list Track) (acc : list TranscriptSegment) :
  preserves models_P (AudioProcessor.process_loop env audio_path tracks acc).
Proof.
  intros m.
  destruct (process_loop_frame env audio_path tracks acc m)
    as (Hs & _ & _ & _ & Hn & _).
  unfold models_P. rewrite Hs, Hn. reflexivity.
Qed.

(** With the pipeline set, [process_file] loads nothing: the four model
    fields and the number of objects are as before. *)
Lemma process_file_keeps_models (env : Env) (input_path : str)
    (m : Machine AudioProcessor.t) :
  is_Some (AudioProcessor.pipeline (self m)) ->
  models_P (snd (AudioProcessor.process_file env input_path m)) = models_P m.
Proof.
  intros [p Hp]. unfold AudioProcessor.process_file.
  rewrite bind_get_self_run, Hp.
  apply (preserves_bind models_P); [apply preserves_ret|intros _].
  apply preserves_bind.
  - destruct (bool_decide _); [|apply preserves_ret].
    apply preserves_bind; [apply preserves_models_extract|].
    intros [path|]; [apply preserves_ret|apply preserves_raise].
  - intros audio_path.
    apply preserves_bind; [apply preserves_get_self|intros o].
    apply preserves_bind; [apply preserves_callable|intros ?].
    apply preserves_bind; [apply preserves_of_outcome|intros tracks].
    apply preserves_models_loop.
Qed.

(** C7, amended.  Once [AudioTranscriber._load_models] has returned, every
    further call of it returns at once and leaves the object and the world
    untouched.  [AudioProcessor._load_models] has no such guard;
    [process_file] calls it only while the pipeline is unset, so with the
    pipeline set a call of [process_file] leaves the four model fields as
    they are and creates no object. *)
Theorem loaded_models_stay (env : Env) :
  (forall env0 m m1,
     AudioTranscriber._load_models env0 m = (Ok tt, m1) ->
     AudioTranscriber._load_models env m1 = (Ok tt, m1))
  /\ (forall input_path m,
        is_Some (AudioProcessor.pipeline (self m)) ->
        models_P (snd (AudioProcessor.process_file env input_path m))
        = models_P m).
Proof.
  split.
  - intros env0 m m1 H. apply load_models_T_guard.
    exact (load_models_T_sets_pipeline env0 m m1 H).
  - intros input_path m H. apply process_file_keeps_models. exact H.
Qed.

Lemma loaded_models_stay_witness :
  AudioTranscriber._load_models demo_env (fresh_T empty_world)
    = (Ok tt, ready_T)
  /\ AudioTranscriber._load_models crop_fails_env ready_T = (Ok tt, ready_T)
  /\ is_Some (AudioProcessor.pipeline (self ready_P))
  /\ models_P (snd (AudioProcessor.process_file demo_env (u"meeting.mp4")
                      ready_P))
     = models_P ready_P.
Proof.
  assert (H : AudioTranscriber._load_models demo_env (fresh_T empty_world)
              = (Ok tt, ready_T)) by (vm_compute; reflexivity).
  assert (HP : is_Some (AudioProcessor.pipeline (self ready_P)))
    by (eexists; vm_compute; reflexivity).
  split; [exact H|].
  split; [exact (proj1 (loaded_models_stay crop_fails_env) demo_env _ _ H)|].
  split; [exact HP|].
  exact (proj2 (loaded_models_stay demo_env) (u"meeting.mp4") ready_P HP).
Defined.

(** C7, as stated, fails for [AudioProcessor._load_models].  Called on an
    object whose models are loaded, it loads all four again: the fields
    hold other objects afterwards. *)
Lemma processor_load_models_loads_again :
  fst (AudioProcessor._load_models demo_env (fresh_P empty_world)) = Ok tt
  /\ fst (AudioProcessor._load_models demo_env ready_P) = Ok tt
  /\ models_P ready_P = (Some 0, Some 1, Some 2, Some 3, 4)%nat
  /\ models_P (snd (AudioProcessor._load_models demo_env ready_P))
     = (Some 4, Some 5, Some 6, Some 7, 8)%nat.
Proof. repeat apply conj; vm_compute; reflexivity. Qed.

(* ===================================================================== *)
(** * The temporary audio file *)
(* ===================================================================== *)

Lemma preserves_files_load_models_T (env : Env) :
  preserves files_view (AudioTranscriber._load_models env).
Proof.
  unfold AudioTranscriber._load_models.
  apply preserves_bind; [apply preserves_get_self|intros o].
  destruct (AudioTranscriber.diarization_pipeline o); [apply preserves_ret|].
  assert (Hcheck : forall step, preserves (O := AudioTranscriber.t)
                                  files_view (check env step)).
  { intros step m. unfold check. destruct (load_answer env step); reflexivity. }
  assert (Hnew : preserves (O := AudioTranscriber.t) files_view new_object)
    by (intros m; reflexivity).
  assert (Hload : forall step, preserves (O := AudioTranscriber.t)
                                 files_view (load env step)).
  { intros step. apply preserves_bind; [apply Hcheck|intros _; exact Hnew]. }
  assert (Hself : forall f, preserves (O := AudioTranscriber.t)
                              files_view (with_self f))
    by (intros f m; reflexivity).
  repeat first [ apply Hself | apply Hnew | apply Hload | apply Hcheck
               | apply preserves_bind; [|intros ?] ].
Qed.

Lemma preserves_files_transcribe_loop (env : Env) (audio_path : str)
    (tracks : list Track) (acc : list TranscriptSegment) :
  preserves files_view
    (AudioTranscriber.transcribe_loop env audio_path tracks acc).
Proof.
  intros m.
  destruct (transcribe_loop_frame env audio_path tracks acc m)
    as (_ & Hf & Hu & Ht & _).
  unfold files_view. rewrite Hf, Hu, Ht. reflexivity.
Qed.

Lemma added_then_removed (f : str) (fs : gset str) :
  ({[f]} ∪ fs) ∖ {[f]} = fs ∖ {[f]}.
Proof.
  apply set_eq. intros x.
  rewrite !elem_of_difference, elem_of_union, elem_of_singleton. tauto.
Qed.

Lemma exists_run {O : Type} (f : str) (m : Machine O) :
  f ∈ files (world m) -> exists_ f m = (Ok true, m).
Proof.
  intros Hin. unfold exists_. unfold_monad.
  rewrite (bool_decide_eq_true_2 _ Hin). reflexivity.
Qed.

Lemma unlink_run {O : Type} (f : str) (m : Machine O) :
  f ∈ files (world m) ->
  unlink f m
  = (Ok tt,
     {| self := self m;
        world := set_unlink_log (cons f)
                   (set_files (fun fs => fs ∖ {[f]}) (world m)) |}).
Proof.
  intros Hin. unfold unlink. unfold_monad.
  rewrite (bool_decide_eq_true_2 _ Hin). reflexivity.
Qed.

(** Extraction either hands over the new file, or has deleted it, once,
    by the time it raises. *)
Lemma extract_audio_from_mp4_run (env : Env) (mp4_path : str)
    (m : Machine AudioTranscriber.t) :
  let tmp := tmp_name (u"extracted_audio_") (u".wav")
               (tmp_counter (world m)) in
  let r := AudioTranscriber.extract_audio_from_mp4 env mp4_path m in
  match fst r with
  | Ok path =>
    path = tmp
    /\ files (world (snd r)) = {[tmp]} ∪ files (world m)
    /\ unlink_log (world (snd r)) = unlink_log (world m)
  | Raise _ =>
    files (world (snd r)) = ({[tmp]} ∪ files (world m)) ∖ {[tmp]}
    /\ unlink_log (world (snd r)) = tmp :: unlink_log (world m)
  end.
Proof.
  intros tmp r. subst r.
  destruct (AudioTranscriber.extract_audio_from_mp4 env mp4_path m)
    as [r m2] eqn:E.
  cbn [fst snd]. revert E.
  unfold AudioTranscriber.extract_audio_from_mp4.
  set (m1 := {| self := self m;
                world := set_tmp_counter S
                           (set_files (fun fs => {[tmp]} ∪ fs) (world m)) |}).
  rewrite (bind_run _ _ m m1 tmp) by reflexivity.
  assert (Hin : tmp ∈ files (world m1))
    by (apply elem_of_union_l, elem_of_singleton; reflexivity).
  assert (Hfail : forall e,
            (present <- exists_ tmp ;;
             (if present then unlink tmp else ret tt) ;;
             raise (RuntimeError (u"音声抽出失敗: " ++ exn_str e))) m1
            = (Raise (RuntimeError (u"音声抽出失敗: " ++ exn_str e)),
               {| self := self m1;
                  world := set_unlink_log (cons tmp)
                             (set_files (fun fs => fs ∖ {[tmp]})
                                (world m1)) |})
              :> Res str * Machine AudioTranscriber.t).
  { intros e. rewrite (bind_run _ _ _ _ _ (exists_run tmp m1 Hin)).
    rewrite (bind_run _ _ _ _ _ (unlink_run tmp m1 Hin)). reflexivity. }
  unfold try_except.
  destruct (VideoFileClip env mp4_path); unfold raise at 1, ret at 1;
    cbn [is_Exception]; rewrite ?Hfail; intros E;
    pose proof (f_equal fst E) as E1; pose proof (f_equal snd E) as E2;
    cbn [fst snd] in E1, E2; subst r m2;
    cbn [world files unlink_log set_unlink_log set_files set_tmp_counter m1];
    repeat split; reflexivity.
Qed.

(** X1.  On a video input, once the models are loaded, [transcribe_file]
    deletes the extracted audio file exactly once and touches no other
    file, however the run ends. *)
Lemma transcribe_file_removes_temp_file (env : Env) (file_path : str)
    (m : Machine AudioTranscriber.t) :
  lower (path_suffix file_path)
    ∈ [u".mp4"; u".avi"; u".mov"; u".mkv"; u".webm"] ->
  fst (AudioTranscriber._load_models env m) = Ok tt ->
  let tmp := tmp_name (u"extracted_audio_") (u".wav")
               (tmp_counter (world m)) in
  let m' := snd (AudioTranscriber.transcribe_file env file_path m) in
  unlink_log (world m') = tmp :: unlink_log (world m)
  /\ files (world m') = files (world m) ∖ {[tmp]}.
Proof.
  intros Hvideo Hload tmp. cbn zeta.
  destruct (AudioTranscriber.transcribe_file env file_path m)
    as [r m'] eqn:E.
  cbn [snd]. revert E.
  unfold AudioTranscriber.transcribe_file.
  pose proof (preserves_files_load_models_T env m) as Hv.
  destruct (AudioTranscriber._load_models env m) as [r0 m1] eqn:El.
  simpl in Hload, Hv. subst r0.
  rewrite (bind_run _ _ _ _ _ El).
  rewrite (bool_decide_eq_true_2 _ Hvideo).
  unfold files_view in Hv. injection Hv as Hf Hu Ht.
  pose proof (extract_audio_from_mp4_run env file_path m1) as Hx.
  cbn zeta in Hx. rewrite Ht in Hx. fold tmp in Hx.
  unfold bind at 1. unfold bind at 1.
  destruct (AudioTranscriber.extract_audio_from_mp4 env file_path m1)
    as [[path|e] m2]; simpl in Hx.
  - destruct Hx as (-> & Hf2 & Hu2). unfold ret at 1. cbn iota beta.
    unfold try_finally.
    match goal with
    | |- context [let (_, _) := ?body m2 in _] =>
      assert (Hb : preserves files_view body);
      [|specialize (Hb m2); destruct (body m2) as [rb m3]]
    end.
    { apply preserves_bind; [apply preserves_get_self|intros o].
      apply preserves_bind; [apply preserves_callable|intros ?].
      apply preserves_bind; [apply preserves_of_outcome|intros tracks].
      apply preserves_files_transcribe_loop. }
    simpl in Hb. unfold files_view in Hb. injection Hb as Hf3 Hu3 _.
    assert (Hin : tmp ∈ files (world m3)).
    { rewrite Hf3, Hf2. apply elem_of_union_l, elem_of_singleton. reflexivity. }
    rewrite (bind_run _ _ _ _ _ (exists_run tmp m3 Hin)).
    rewrite (unlink_run tmp m3 Hin).
    intros E. apply (f_equal snd) in E. cbn [snd] in E. subst m'.
    cbn [world unlink_log files set_unlink_log set_files].
    rewrite Hf3, Hu3, Hf2, Hu2, Hf, Hu. split; [reflexivity|].
    apply added_then_removed.
  - destruct Hx as (Hf2 & Hu2).
    intros E. apply (f_equal snd) in E. cbn [snd] in E. subst m'.
    rewrite Hf2, Hu2, Hf, Hu. split; [reflexivity|].
    apply added_then_removed.
Qed.

(** C3, on the code.  A video is processed by [process_file], from a fresh
    object; every collaborator succeeds.  When the call has returned its
    two entries, the extracted audio file is still there and nothing has
    been deleted.  A second call extracts to a second file and forgets the
    first: both files exist afterwards, and [cleanup] removes only the
    second.  [transcribe_file], on the same input, has deleted its
    extracted file, once, by the time it returns. *)
Theorem process_file_leaves_temp_file :
  let run1 := AudioProcessor.process_file demo_env (u"meeting.mp4")
                (fresh_P empty_world) in
  let run2 := AudioProcessor.process_file demo_env (u"meeting.mp4")
                (snd run1) in
  let cleaned := snd (AudioProcessor.cleanup (snd run2)) in
  let sibling := AudioTranscriber.transcribe_file demo_env (u"meeting.mp4")
                   (fresh_T empty_world) in
  fst run1 = Ok [greeting_T; answer_T]
  /\ elements (files (world (snd run1))) = [u"/tmp/audio_0.wav"]
  /\ unlink_log (world (snd run1)) = []
  /\ AudioProcessor.temp_audio_file (self (snd run1))
     = Some (u"/tmp/audio_0.wav")
  /\ fst run2 = Ok [greeting_T; answer_T]
  /\ bool_decide (u"/tmp/audio_0.wav" ∈ files (world (snd run2))) = true
  /\ bool_decide (u"/tmp/audio_1.wav" ∈ files (world (snd run2))) = true
  /\ unlink_log (world (snd run2)) = []
  /\ AudioProcessor.temp_audio_file (self (snd run2))
     = Some (u"/tmp/audio_1.wav")
  /\ unlink_log (world cleaned) = [u"/tmp/audio_1.wav"]
  /\ elements (files (world cleaned)) = [u"/tmp/audio_0.wav"]
  /\ fst sibling = Ok [greeting_T; answer_T]
  /\ unlink_log (world (snd sibling)) = [u"/tmp/extracted_audio_0.wav"]
  /\ elements (files (world (snd sibling))) = [].
Proof. cbn zeta. repeat apply conj; vm_compute; reflexivity. Qed.

(** X2.  When loading the models fails, [transcribe_file] ends there,
    raising what the load raised: no temporary file was created, none is
    deleted. *)
Lemma transcribe_file_load_failure (env : Env) (file_path : str)
    (m : Machine AudioTranscriber.t) (e : exn) :
  fst (AudioTranscriber._load_models env m) = Raise e ->
  fst (AudioTranscriber.transcribe_file env file_path m) = Raise e
  /\ files_view (snd (AudioTranscriber.transcribe_file env file_path m))
     = files_view m.
Proof.
  intros Hload.
  pose proof (preserves_files_load_models_T env m) as Hv.
  unfold AudioTranscriber.transcribe_file.
  destruct (AudioTranscriber._load_models env m) as [r m1] eqn:El.
  simpl in Hload. subst r.
  rewrite (bind_raise _ _ _ _ _ El). split; [reflexivity|exact Hv].
Qed.

(* ===================================================================== *)
(** * Checks of the model on known values *)
(* ===================================================================== *)

Example literal_code_points :
  u"名" = [21517%N] /\ u"a🎵" = [97%N; 127925%N]
  /\ u"00:01:05" = [48; 48; 58; 48; 49; 58; 48; 53]%N.
Proof. repeat apply conj; vm_compute; reflexivity. Qed.

Example strip_examples :
  strip (u" こんにちは ") = u"こんにちは"
  /\ strip (u"  ") = []
  /\ strip (12288%N :: u"はい" ++ [10%N; 9%N]) = u"はい".
Proof. repeat apply conj; vm_compute; reflexivity. Qed.

Example negative_seconds :
  AudioProcessor._format_time (-3 # 2) = u"-1:59:59"
  /\ AudioProcessor._format_time (-1 # 2) = u"00:00:00"
  /\ AudioProcessor._format_time 360000 = u"100:00:00".
Proof. repeat apply conj; vm_compute; reflexivity. Qed.

Example suffix_examples :
  path_suffix (u"/data/rec.v2/meeting.MP4") = u".MP4"
  /\ path_suffix (u".bashrc") = []
  /\ path_suffix (u"notes.") = []
  /\ Main.default_output (u"data/meeting.mp4") = u"data/meeting_transcript.md".
Proof. repeat apply conj; vm_compute; reflexivity. Qed.

(** The scenario of the specification: meeting.mp4, two speakers, three
    segments of 0.05 s, 2 s and 3 s, threshold 0.1 s.  The first segment is
    dropped, and the report counts two segments and two speakers. *)
Example meeting_scenario :
  fst (AudioProcessor.process_file demo_env (u"meeting.mp4")
         (fresh_P empty_world)) = Ok [greeting_T; answer_T]
  /\ AudioProcessor.markdown_lines demo_env [greeting_T; answer_T]
       (u"meeting.mp4") !! 5%nat = Some (u"**総セグメント数**: 2個")
  /\ AudioProcessor.markdown_lines demo_env [greeting_T; answer_T]
       (u"meeting.mp4") !! 4%nat = Some (u"**話者数**: 2名").
Proof. repeat apply conj; vm_compute; reflexivity. Qed.

(** The command line on the same recording as audio: status 0, and one
    report written next to the input. *)
Example meeting_command_line :
  fst (Main.main demo_env (Main.Parsed meeting_args) meeting_world) = 0
  /\ map fst (written (snd (Main.main demo_env (Main.Parsed meeting_args) meeting_world)))
     = [u"meeting_transcript.md"].
Proof. repeat apply conj; vm_compute; reflexivity. Qed.

(* ===================================================================== *)
(** * The loops, entry by entry *)
(* ===================================================================== *)

Lemma appended_app (fmt : Q -> str) (segment : Segment) (label : str)
    (transcribed : option str) (acc : list TranscriptSegment) :
  appended fmt segment label transcribed acc
  = acc ++ appended fmt segment label transcribed [].
Proof.
  unfold appended. destruct transcribed as [txt|]; [|symmetry; apply app_nil_r].
  destruct (keeps txt); [reflexivity|symmetry; apply app_nil_r].
Qed.

Lemma transcribe_loop_emits (env : Env) (audio_path : str)
    (tracks : list Track) :
  forall acc m,
    loaded_T (self m) ->
    Forall (croppable env audio_path) tracks ->
    fst (AudioTranscriber.transcribe_loop env audio_path tracks acc m)
    = Ok (acc ++ emitted AudioTranscriber._seconds_to_timestamp below_T env
                   audio_path tracks).
Proof.
  induction tracks as [|[segment label] rest IH]; intros acc m Hl Hc.
  - simpl. rewrite app_nil_r. reflexivity.
  - rewrite transcribe_loop_cons.
    inversion Hc as [|? ? (waveform & sample_rate & Ec & _) Hrest]; subst.
    simpl in Ec. unfold emitted. cbn [flat_map]. fold (emitted
      AudioTranscriber._seconds_to_timestamp below_T env audio_path rest).
    unfold below_T at 1. cbn [fst snd].
    destruct (Qlt_bool (seg_duration segment) (1 # 2)).
    + rewrite IH by assumption. reflexivity.
    + destruct Hl as ([? Hp] & [? Hw] & [? Hm] & [? Hh]).
      rewrite Hh, Ec, Hw, Hm.
      unfold transcription_output. cbn [fst]. rewrite Ec.
      rewrite IH; [| |exact Hrest].
      * rewrite (appended_app _ _ _ _ acc), <- app_assoc. reflexivity.
      * simpl. unfold loaded_T. rewrite Hp, Hw, Hm, Hh. eauto.
Qed.

Lemma process_loop_emits (env : Env) (audio_path : str)
    (tracks : list Track) :
  forall acc m,
    loaded_P (self m) ->
    Forall (croppable env audio_path) tracks ->
    fst (AudioProcessor.process_loop env audio_path tracks acc m)
    = Ok (acc ++ emitted AudioProcessor._format_time (below_P env audio_path)
                   env audio_path tracks).
Proof.
  induction tracks as [|[segment label] rest IH]; intros acc m Hl Hc.
  - simpl. rewrite app_nil_r. reflexivity.
  - rewrite process_loop_cons, process_segment_run.
    inversion Hc as [|? ? (waveform & sample_rate & Ec & Hsr) Hrest]; subst.
    simpl in Ec. unfold emitted. cbn [flat_map]. fold (emitted
      AudioProcessor._format_time (below_P env audio_path) env audio_path
      rest).
    unfold below_P at 1, transcription_output. cbn [fst snd].
    pose proof Hl as ([? Hp] & [? Hw] & [? Hm] & [? Hh]).
    rewrite Hh, Ec, Hw, Hm. cbn zeta.
    destruct (Z.eqb_spec sample_rate 0) as [|_]; [contradiction|].
    destruct (Qlt_bool _ (1 # 10)).
    + rewrite IH by assumption. reflexivity.
    + rewrite IH by assumption.
      rewrite (appended_app _ _ _ _ acc), <- app_assoc. reflexivity.
Qed.

(** X3.  With the models loaded and every segment croppable, each loop
    returns exactly the entries of the tracks that pass its two tests, in
    the order of the diarization, after what the list held before. *)
Theorem loops_emit_in_order (env : Env) (audio_path : str)
    (tracks : list Track) (acc : list TranscriptSegment)
    (Hcrop : Forall (croppable env audio_path) tracks) :
  (forall m, loaded_T (self m) ->
     fst (AudioTranscriber.transcribe_loop env audio_path tracks acc m)
     = Ok (acc ++ emitted AudioTranscriber._seconds_to_timestamp below_T env
                    audio_path tracks))
  /\ (forall m, loaded_P (self m) ->
     fst (AudioProcessor.process_loop env audio_path tracks acc m)
     = Ok (acc ++ emitted AudioProcessor._format_time
                    (below_P env audio_path) env audio_path tracks)).
Proof.
  split; intros m Hl.
  - apply transcribe_loop_emits; assumption.
  - apply process_loop_emits; assumption.
Qed.

Lemma loops_emit_in_order_witness :
  Forall (croppable demo_env (u"meeting.wav")) short_then_greeting
  /\ loaded_T (self ready_T) /\ loaded_P (self ready_P)
  /\ fst (AudioTranscriber.transcribe_loop demo_env (u"meeting.wav")
            short_then_greeting [answer_T] ready_T)
     = Ok ([answer_T] ++ emitted AudioTranscriber._seconds_to_timestamp
                           below_T demo_env (u"meeting.wav")
                           short_then_greeting)
  /\ fst (AudioProcessor.process_loop demo_env (u"meeting.wav")
            short_then_greeting [answer_T] ready_P)
     = Ok ([answer_T] ++ emitted AudioProcessor._format_time
                           (below_P demo_env (u"meeting.wav")) demo_env
                           (u"meeting.wav") short_then_greeting).
Proof.
  split; [apply demo_croppable|].
  split; [exact ready_T_loaded|]. split; [exact ready_P_loaded|].
  split.
  - exact (proj1 (loops_emit_in_order demo_env (u"meeting.wav")
                    short_then_greeting [answer_T] (demo_croppable _ _))
             ready_T ready_T_loaded).
  - exact (proj2 (loops_emit_in_order demo_env (u"meeting.wav")
                    short_then_greeting [answer_T] (demo_croppable _ _))
             ready_P ready_P_loaded).
Defined.

Lemma appended_made_from (fmt : Q -> str) (segment : Segment) (label : str)
    (transcribed : option str) :
  appended fmt segment label transcribed [] = []
  \/ exists r, appended fmt segment label transcribed [] = [r]
               /\ made_from fmt r (segment, label).
Proof.
  unfold appended. destruct transcribed as [txt|]; [|left; reflexivity].
  destruct (keeps txt); [|left; reflexivity].
  right. eexists. split; [reflexivity|]. repeat split.
Qed.

Lemma transcribe_loop_follows (env : Env) (audio_path : str)
    (tracks : list Track) :
  forall acc m results,
    fst (AudioTranscriber.transcribe_loop env audio_path tracks acc m)
      = Ok results ->
    exists new kept,
      results = acc ++ new /\ sublist kept tracks
      /\ Forall2 (made_from AudioTranscriber._seconds_to_timestamp) new kept.
Proof.
  induction tracks as [|[segment label] rest IH]; intros acc m results.
  - simpl. intros [= <-]. exists [], []. rewrite app_nil_r.
    repeat split; constructor.
  - rewrite transcribe_loop_cons.
    assert (Hskip : forall acc' m',
              fst (AudioTranscriber.transcribe_loop env audio_path rest acc' m')
                = Ok results ->
              acc' = acc ->
              exists new kept,
                results = acc ++ new
                /\ sublist kept ((segment, label) :: rest)
                /\ Forall2 (made_from AudioTranscriber._seconds_to_timestamp)
                     new kept).
    { intros acc' m' H ->. destruct (IH _ _ _ H) as (new & kept & E & Hs & F).
      exists new, kept. split; [exact E|]. split; [|exact F].
      apply sublist_cons. exact Hs. }
    destruct (Qlt_bool _ _); [intros H; exact (Hskip _ _ H eq_refl)|].
    destruct (AudioTranscriber.audio_handler (self m)); [|discriminate].
    destruct (crop env audio_path segment) as [[waveform sample_rate]|msg];
      [|discriminate].
    destruct (AudioTranscriber.whisper_processor (self m)),
             (AudioTranscriber.whisper_model (self m));
      try (intros H; exact (Hskip _ _ H eq_refl)).
    rewrite appended_app. intros H.
    destruct (IH _ _ _ H) as (new & kept & E & Hs & F).
    destruct (appended_made_from AudioTranscriber._seconds_to_timestamp
                segment label (heard env waveform sample_rate))
      as [E0 | (r & E0 & Hr)]; rewrite E0 in E.
    + rewrite app_nil_r in E. exists new, kept. split; [exact E|].
      split; [apply sublist_cons; exact Hs|exact F].
    + exists (r :: new), ((segment, label) :: kept).
      rewrite <- app_assoc in E. split; [exact E|].
      split; [apply sublist_skip; exact Hs|constructor; assumption].
Qed.

Lemma process_segment_follows (env : Env) (audio_path : str)
    (segment : Segment) (label : str) (acc : list TranscriptSegment)
    (m : Machine AudioProcessor.t) :
  fst (AudioProcessor.process_segment env audio_path segment label acc m)
    = Ok acc
  \/ exists r,
       fst (AudioProcessor.process_segment env audio_path segment label acc m)
         = Ok (acc ++ [r])
       /\ made_from AudioProcessor._format_time r (segment, label).
Proof.
  rewrite process_segment_run.
  destruct (AudioProcessor.audio_handler (self m)); [|left; reflexivity].
  cbn zeta.
  destruct (crop env audio_path segment) as [[waveform sample_rate]|msg];
    [|left; reflexivity].
  destruct (sample_rate =? 0); [left; reflexivity|].
  destruct (Qlt_bool _ _); [left; reflexivity|].
  destruct (AudioProcessor.processor (self m)),
           (AudioProcessor.model (self m)); try (left; reflexivity).
  rewrite appended_app.
  destruct (appended_made_from AudioProcessor._format_time segment label
              (heard env waveform sample_rate)) as [E0 | (r & E0 & Hr)];
    rewrite E0.
  - left. rewrite app_nil_r. reflexivity.
  - right. exists r. split; [reflexivity|exact Hr].
Qed.

Lemma process_loop_follows (env : Env) (audio_path : str)
    (tracks : list Track) :
  forall acc m results,
    fst (AudioProcessor.process_loop env audio_path tracks acc m)
      = Ok results ->
    exists new kept,
      results = acc ++ new /\ sublist kept tracks
      /\ Forall2 (made_from AudioProcessor._format_time) new kept.
Proof.
  induction tracks as [|[segment label] rest IH]; intros acc m results.
  - simpl. intros [= <-]. exists [], []. rewrite app_nil_r.
    repeat split; constructor.
  - rewrite process_loop_cons.
    pose proof (process_segment_follows env audio_path segment label acc m)
      as Hs.
    destruct (AudioProcessor.process_segment env audio_path segment label acc m)
      as [[acc'|e] m']; simpl in Hs; [|discriminate].
    intros H. destruct (IH _ _ _ H) as (new & kept & E & Hsub & F).
    destruct Hs as [[= ->] | (r & [= ->] & Hr)].
    + exists new, kept. split; [exact E|].
      split; [apply sublist_cons; exact Hsub|exact F].
    + exists (r :: new), ((segment, label) :: kept).
      rewrite <- app_assoc in E. split; [exact E|].
      split; [apply sublist_skip; exact Hsub|constructor; assumption].
Qed.

(** X4.  Whatever the collaborators do, a list returned by either function
    follows the diarization: its entries are made, one each and in the
    same order, from some of the diarization's tracks, with the track's
    label and its start and end as timestamps. *)
Theorem results_follow_diarization (env : Env) (path : str)
    (results : list TranscriptSegment) :
  (forall m,
     fst (AudioTranscriber.transcribe_file env path m) = Ok results ->
     exists audio_path tracks kept,
       diarize env audio_path = Returns tracks /\ sublist kept tracks
       /\ Forall2 (made_from AudioTranscriber._seconds_to_timestamp)
            results kept)
  /\ (forall m,
     fst (AudioProcessor.process_file env path m) = Ok results ->
     exists audio_path tracks kept,
       diarize env audio_path = Returns tracks /\ sublist kept tracks
       /\ Forall2 (made_from AudioProcessor._format_time) results kept).
Proof.
  split; intros m H.
  - unfold AudioTranscriber.transcribe_file in H.
    apply bind_Ok in H as (? & m1 & _ & H).
    apply bind_Ok in H as ([audio_path temp_file] & m2 & _ & H).
    apply try_finally_Ok in H.
    apply bind_Ok in H as (? & m3 & _ & H).
    apply bind_Ok in H as (? & m4 & _ & H).
    apply bind_Ok in H as (tracks & m5 & Ed & H).
    apply transcribe_loop_follows in H as (new & kept & -> & Hs & F).
    exists audio_path, tracks, kept. split; [|split; assumption].
    unfold of_outcome in Ed. destruct (diarize env audio_path);
      [|discriminate]. injection Ed as -> _. reflexivity.
  - unfold AudioProcessor.process_file in H.
    apply bind_Ok in H as (? & m1 & _ & H).
    apply bind_Ok in H as (? & m2 & _ & H).
    apply bind_Ok in H as (audio_path & m3 & _ & H).
    apply bind_Ok in H as (? & m4 & _ & H).
    apply bind_Ok in H as (? & m5 & _ & H).
    apply bind_Ok in H as (tracks & m6 & Ed & H).
    apply process_loop_follows in H as (new & kept & -> & Hs & F).
    exists audio_path, tracks, kept. split; [|split; assumption].
    unfold of_outcome in Ed. destruct (diarize env audio_path);
      [|discriminate]. injection Ed as -> _. reflexivity.
Qed.

Lemma results_follow_diarization_witness :
  fst (AudioTranscriber.transcribe_file demo_env (u"meeting.mp4")
         (fresh_T empty_world)) = Ok [greeting_T; answer_T]
  /\ exists audio_path tracks kept,
       diarize demo_env audio_path = Returns tracks /\ sublist kept tracks
       /\ Forall2 (made_from AudioTranscriber._seconds_to_timestamp)
            [greeting_T; answer_T] kept.
Proof.
  assert (H : fst (AudioTranscriber.transcribe_file demo_env (u"meeting.mp4")
                     (fresh_T empty_world)) = Ok [greeting_T; answer_T])
    by (vm_compute; reflexivity).
  split; [exact H|].
  exact (proj1 (results_follow_diarization demo_env (u"meeting.mp4")
                  [greeting_T; answer_T]) (fresh_T empty_world) H).
Defined.

(* ===================================================================== *)
(** * Files: what is created, and what is deleted *)
(* ===================================================================== *)

Lemma preserves_try_finally {O X A : Type} (view : Machine O -> X)
    (c : M (Machine O) A) (fin : M (Machine O) unit) :
  preserves view c -> preserves view fin ->
  preserves view (try_finally c fin).
Proof.
  intros Hc Hf m. unfold try_finally. specialize (Hc m).
  destruct (c m) as [r m1]. specialize (Hf m1).
  destruct (fin m1) as [[[]|e] m2]; simpl in *; congruence.
Qed.

Lemma preserves_files_check {O : Type} (env : Env) (step : load_step) :
  preserves (O := O) files_view (check env step).
Proof. intros m. unfold check. destruct (load_answer env step); reflexivity. Qed.

Lemma preserves_files_load {O : Type} (env : Env) (step : load_step) :
  preserves (O := O) files_view (load env step).
Proof.
  apply preserves_bind; [apply preserves_files_check|].
  intros _ m. reflexivity.
Qed.

Lemma preserves_files_with_self {O : Type} (f : O -> O) :
  preserves files_view (with_self f).
Proof. intros m. reflexivity. Qed.

Lemma preserves_files_load_models_P (env : Env) :
  preserves files_view (AudioProcessor._load_models env).
Proof.
  unfold AudioProcessor._load_models.
  repeat first [ apply preserves_files_with_self | apply preserves_files_load
               | apply preserves_files_check
               | apply preserves_bind; [|intros ?] ].
Qed.

Lemma preserves_files_process_loop (env : Env) (audio_path : str)
    (tracks : list Track) (acc : list TranscriptSegment) :
  preserves files_view (AudioProcessor.process_loop env audio_path tracks acc).
Proof.
  intros m.
  destruct (process_loop_frame env audio_path tracks acc m)
    as (_ & Hf & Hu & Ht & _).
  unfold files_view. rewrite Hf, Hu, Ht. reflexivity.
Qed.

Lemma bind_ret_l {S A B : Type} (a : A) (k : A -> M S B) :
  bind (ret a) k = k a.
Proof. reflexivity. Qed.

(** X5.  For an input that is not a video, neither function creates or
    deletes a file, however the run ends. *)
Theorem audio_input_touches_no_file (env : Env) (path : str)
    (Haudio : is_video path = false) :
  (forall m, files_view (snd (AudioTranscriber.transcribe_file env path m))
             = files_view m)
  /\ (forall m, files_view (snd (AudioProcessor.process_file env path m))
                = files_view m).
Proof.
  unfold is_video in Haudio. split.
  - unfold AudioTranscriber.transcribe_file. rewrite Haudio, bind_ret_l.
    apply preserves_bind; [apply preserves_files_load_models_T|intros _].
    apply preserves_try_finally; [|apply preserves_ret].
    apply preserves_bind; [apply preserves_get_self|intros o].
    apply preserves_bind; [apply preserves_callable|intros ?].
    apply preserves_bind; [apply preserves_of_outcome|intros tracks].
    apply preserves_files_transcribe_loop.
  - unfold AudioProcessor.process_file. rewrite Haudio, bind_ret_l.
    apply preserves_bind; [apply preserves_get_self|intros o].
    apply preserves_bind.
    { destruct (AudioProcessor.pipeline o);
        [apply preserves_ret|apply preserves_files_load_models_P]. }
    intros _.
    apply preserves_bind; [apply preserves_get_self|intros o'].
    apply preserves_bind; [apply preserves_callable|intros ?].
    apply preserves_bind; [apply preserves_of_outcome|intros tracks].
    apply preserves_files_process_loop.
Qed.

Lemma audio_input_touches_no_file_witness :
  is_video (u"meeting.wav") = false
  /\ files_view (snd (AudioTranscriber.transcribe_file crop_fails_env
                        (u"meeting.wav") (fresh_T meeting_world)))
     = files_view (fresh_T meeting_world).
Proof.
  assert (H : is_video (u"meeting.wav") = false) by (vm_compute; reflexivity).
  split; [exact H|].
  exact (proj1 (audio_input_touches_no_file crop_fails_env (u"meeting.wav") H)
           (fresh_T meeting_world)).
Defined.

(** X6.  [extract_audio_from_mp4] returns the path of the new file only
    when the video opens, has an audio track and is written out.  In every
    other case it raises [RuntimeError] with the cause in its message, and
    the file it had created is deleted, once. *)
Theorem extract_audio_from_mp4_outcomes (env : Env) (mp4_path : str)
    (m : Machine AudioTranscriber.t) :
  let tmp := next_tmp (u"extracted_audio_") m in
  let r := AudioTranscriber.extract_audio_from_mp4 env mp4_path m in
  let left_behind :=
    files (world (snd r)) = {[tmp]} ∪ files (world m)
    /\ unlink_log (world (snd r)) = unlink_log (world m) in
  let removed :=
    files (world (snd r)) = files (world m) ∖ {[tmp]}
    /\ unlink_log (world (snd r)) = tmp :: unlink_log (world m) in
  self (snd r) = self m
  /\ match VideoFileClip env mp4_path with
     | VideoWriteOk => fst r = Ok tmp /\ left_behind
     | VideoNoAudio =>
       fst r = Raise (RuntimeError
                        (u"音声抽出失敗: "
                         ++ u"MP4ファイルに音声トラックがありません"))
       /\ removed
     | VideoOpenFails msg | VideoWriteFails msg =>
       fst r = Raise (RuntimeError (u"音声抽出失敗: " ++ msg)) /\ removed
     end.
Proof.
  cbn zeta. unfold next_tmp.
  set (tmp := tmp_name (u"extracted_audio_") (u".wav") (tmp_counter (world m))).
  destruct (AudioTranscriber.extract_audio_from_mp4 env mp4_path m)
    as [r m2] eqn:E.
  cbn [fst snd]. revert E.
  unfold AudioTranscriber.extract_audio_from_mp4.
  set (m1 := {| self := self m;
                world := set_tmp_counter S
                           (set_files (fun fs => {[tmp]} ∪ fs) (world m)) |}).
  rewrite (bind_run _ _ m m1 tmp) by reflexivity.
  assert (Hin : tmp ∈ files (world m1))
    by (apply elem_of_union_l, elem_of_singleton; reflexivity).
  assert (Hfail : forall e,
            (present <- exists_ tmp ;;
             (if present then unlink tmp else ret tt) ;;
             raise (RuntimeError (u"音声抽出失敗: " ++ exn_str e))) m1
            = (Raise (RuntimeError (u"音声抽出失敗: " ++ exn_str e)),
               {| self := self m1;
                  world := set_unlink_log (cons tmp)
                             (set_files (fun fs => fs ∖ {[tmp]})
                                (world m1)) |})
              :> Res str * Machine AudioTranscriber.t).
  { intros e. rewrite (bind_run _ _ _ _ _ (exists_run tmp m1 Hin)).
    rewrite (bind_run _ _ _ _ _ (unlink_run tmp m1 Hin)). reflexivity. }
  unfold try_except.
  destruct (VideoFileClip env mp4_path); unfold raise at 1, ret at 1;
    cbn [is_Exception]; rewrite ?Hfail; intros E;
    pose proof (f_equal fst E) as E1; pose proof (f_equal snd E) as E2;
    cbn [fst snd] in E1, E2; subst r m2;
    cbn [self world files unlink_log set_unlink_log set_files set_tmp_counter
         m1 exn_str];
    repeat apply conj; try reflexivity; apply added_then_removed.
Qed.

(** [extract_audio_from_video], case by case. *)
Lemma extract_audio_from_video_run (env : Env) (video_path : str)
    (m : Machine AudioProcessor.t) :
  let tmp := next_tmp (u"audio_") m in
  let r := AudioProcessor.extract_audio_from_video env video_path m in
  if MOVIEPY_AVAILABLE env then
    match VideoFileClip env video_path with
    | VideoWriteOk =>
      fst r = Ok (Some tmp)
      /\ self (snd r) = AudioProcessor.set_temp_audio_file (Some tmp) (self m)
      /\ files (world (snd r)) = {[tmp]} ∪ files (world m)
      /\ unlink_log (world (snd r)) = unlink_log (world m)
    | _ =>
      fst r = Ok None
      /\ self (snd r) = self m
      /\ files (world (snd r)) = files (world m) ∖ {[tmp]}
      /\ unlink_log (world (snd r)) = tmp :: unlink_log (world m)
    end
  else
    r = (Raise (RuntimeError (u"moviepy が必要です: pip install moviepy")), m).
Proof.
  cbn zeta. unfold next_tmp.
  set (tmp := tmp_name (u"audio_") (u".wav") (tmp_counter (world m))).
  unfold AudioProcessor.extract_audio_from_video.
  destruct (MOVIEPY_AVAILABLE env); cbn [negb]; [|reflexivity].
  destruct (_ : Res (option str) * Machine AudioProcessor.t)
    as [r m2] eqn:E.
  cbn [fst snd]. revert E.
  set (m1 := {| self := self m;
                world := set_tmp_counter S
                           (set_files (fun fs => {[tmp]} ∪ fs) (world m)) |}).
  rewrite (bind_run _ _ m m1 tmp) by reflexivity.
  assert (Hin : tmp ∈ files (world m1))
    by (apply elem_of_union_l, elem_of_singleton; reflexivity).
  assert (Hfail :
            (present <- exists_ tmp ;;
             (if present then unlink tmp else ret tt) ;;
             ret None) m1
            = (Ok None,
               {| self := self m1;
                  world := set_unlink_log (cons tmp)
                             (set_files (fun fs => fs ∖ {[tmp]})
                                (world m1)) |})
              :> Res (option str) * Machine AudioProcessor.t).
  { rewrite (bind_run _ _ _ _ _ (exists_run tmp m1 Hin)).
    rewrite (bind_run _ _ _ _ _ (unlink_run tmp m1 Hin)). reflexivity. }
  unfold try_except.
  destruct (VideoFileClip env video_path);
    try (unfold raise at 1; cbn [is_Exception]; rewrite Hfail);
    intros E; cbv beta iota delta [bind with_self modify ret] in E;
    pose proof (f_equal fst E) as E1; pose proof (f_equal snd E) as E2;
    cbn [fst snd] in E1, E2; subst r m2;
    cbn [self world files unlink_log set_unlink_log set_files set_tmp_counter
         m1];
    repeat apply conj; try reflexivity; apply added_then_removed.
Qed.

(** X7.  With moviepy installed, [extract_audio_from_video] never raises.
    It returns the path of the new file, and remembers it in
    [temp_audio_file], only when the video opens, has an audio track and
    is written out; in every other case it returns [None], the file it
    had created is deleted, once, and [temp_audio_file] is as before.
    Without moviepy it raises [RuntimeError] and nothing has changed. *)
Theorem extract_audio_from_video_outcomes (env : Env) (video_path : str)
    (m : Machine AudioProcessor.t) :
  let tmp := next_tmp (u"audio_") m in
  let r := AudioProcessor.extract_audio_from_video env video_path m in
  if MOVIEPY_AVAILABLE env then
    match VideoFileClip env video_path with
    | VideoWriteOk =>
      fst r = Ok (Some tmp)
      /\ self (snd r) = AudioProcessor.set_temp_audio_file (Some tmp) (self m)
      /\ files (world (snd r)) = {[tmp]} ∪ files (world m)
      /\ unlink_log (world (snd r)) = unlink_log (world m)
    | _ =>
      fst r = Ok None
      /\ self (snd r) = self m
      /\ files (world (snd r)) = files (world m) ∖ {[tmp]}
      /\ unlink_log (world (snd r)) = tmp :: unlink_log (world m)
    end
  else
    r = (Raise (RuntimeError (u"moviepy が必要です: pip install moviepy")), m).
Proof.
  exact (extract_audio_from_video_run env video_path m).
Qed.

Lemma load_models_P_run (env : Env) (m : Machine AudioProcessor.t) :
  loads_succeed env ->
  exists m1,
    AudioProcessor._load_models env m = (Ok tt, m1)
    /\ loaded_P (self m1)
    /\ files_view m1 = files_view m
    /\ AudioProcessor.temp_audio_file (self m1)
       = AudioProcessor.temp_audio_file (self m).
Proof.
  intros H. unfold AudioProcessor._load_models, load, check, new_object.
  rewrite !H. eexists. split; [reflexivity|].
  cbn. unfold loaded_P. cbn. repeat split; eauto.
Qed.

(** The first statement of [process_file]: afterwards the pipeline is set,
    when it was set before or when loading succeeds. *)
Lemma process_file_load_step (env : Env) (m : Machine AudioProcessor.t) :
  is_Some (AudioProcessor.pipeline (self m)) \/ loads_succeed env ->
  exists m1,
    match AudioProcessor.pipeline (self m) with
    | None => AudioProcessor._load_models env
    | Some _ => ret tt
    end m = (Ok tt, m1)
    /\ is_Some (AudioProcessor.pipeline (self m1))
    /\ files_view m1 = files_view m
    /\ AudioProcessor.temp_audio_file (self m1)
       = AudioProcessor.temp_audio_file (self m).
Proof.
  intros H. destruct (AudioProcessor.pipeline (self m)) as [p|] eqn:Ep.
  - exists m. rewrite Ep. repeat split; eauto.
  - destruct H as [[? [=]]|H].
    destruct (load_models_P_run env m H) as (m1 & E & Hl & Hf & Ht).
    exists m1. split; [exact E|]. split; [apply Hl|]. split; assumption.
Qed.

(** The end of [process_file], from the diarization on: with the pipeline
    set it either raises what the diarization raises or returns a list. *)
Lemma process_file_tail (env : Env) (audio_path : str)
    (m : Machine AudioProcessor.t) :
  is_Some (AudioProcessor.pipeline (self m)) ->
  let tail :=
    (self <- get_self ;;
     callable (AudioProcessor.pipeline self) ;;
     diarization <- of_outcome (diarize env audio_path) ;;
     AudioProcessor.process_loop env audio_path diarization []) in
  same_but_logs m (snd (tail m))
  /\ (forall tracks, diarize env audio_path = Returns tracks ->
        exists results, fst (tail m) = Ok results)
  /\ (forall msg, diarize env audio_path = Fails msg ->
        fst (tail m) = Raise (ModelError msg)).
Proof.
  intros [p Hp]. cbn zeta. rewrite bind_get_self_run, Hp.
  unfold callable. rewrite bind_ret_l.
  destruct (diarize env audio_path) as [tracks|msg]; unfold of_outcome.
  - rewrite bind_ret_l. split; [apply process_loop_frame|].
    split; [|discriminate]. intros _ _. apply process_loop_total.
  - split; [apply same_but_logs_refl|]. split; [discriminate|].
    intros ? [= <-]. reflexivity.
Qed.

(** X8.  [process_file] returns a list whenever the models are there (set
    before, or loaded now), the audio is there (the input is no video, or
    extraction succeeds) and the diarization answers: no crop and no
    transcription can make it raise. *)
Theorem process_file_returns (env : Env) (input_path : str)
    (m : Machine AudioProcessor.t)
    (Hmodels : is_Some (AudioProcessor.pipeline (self m))
               \/ loads_succeed env)
    (Haudio : is_video input_path = true ->
              MOVIEPY_AVAILABLE env = true
              /\ VideoFileClip env input_path = VideoWriteOk)
    (Hdiarize : forall audio_path,
        exists tracks, diarize env audio_path = Returns tracks) :
  exists results,
    fst (AudioProcessor.process_file env input_path m) = Ok results.
Proof.
  unfold AudioProcessor.process_file. rewrite bind_get_self_run.
  destruct (process_file_load_step env m Hmodels) as (m1 & E1 & Hp & _).
  rewrite (bind_run _ _ _ _ _ E1). fold (is_video input_path).
  assert (Hstep : exists audio_path m2,
            (if is_video input_path
             then extracted <- AudioProcessor.extract_audio_from_video env
                                 input_path ;;
                  match extracted with
                  | None => raise (RuntimeError (u"音声抽出に失敗しました"))
                  | Some path => ret path
                  end
             else ret input_path) m1 = (Ok audio_path, m2)
            /\ is_Some (AudioProcessor.pipeline (self m2))).
  { destruct (is_video input_path).
    - destruct (Haudio eq_refl) as [Hmv Hv].
      pose proof (extract_audio_from_video_run env input_path m1) as Hx.
      cbn zeta in Hx. rewrite Hmv, Hv in Hx.
      destruct (AudioProcessor.extract_audio_from_video env input_path m1)
        as [r m2] eqn:Ex.
      cbn [fst snd] in Hx. destruct Hx as (-> & Hs & _).
      eexists _, m2. rewrite (bind_run _ _ _ _ _ Ex).
      split; [reflexivity|]. rewrite Hs. exact Hp.
    - exists input_path, m1. split; [reflexivity|exact Hp]. }
  destruct Hstep as (audio_path & m2 & E2 & Hp2).
  rewrite (bind_run _ _ _ _ _ E2).
  destruct (process_file_tail env audio_path m2 Hp2) as (_ & Ht & _).
  destruct (Hdiarize audio_path) as [tracks Ed].
  exact (Ht tracks Ed).
Qed.

Lemma process_file_returns_witness :
  (is_Some (AudioProcessor.pipeline (self (fresh_P empty_world)))
   \/ loads_succeed crop_fails_env)
  /\ (is_video (u"meeting.mp4") = true ->
      MOVIEPY_AVAILABLE crop_fails_env = true
      /\ VideoFileClip crop_fails_env (u"meeting.mp4") = VideoWriteOk)
  /\ (forall audio_path,
        exists tracks, diarize crop_fails_env audio_path = Returns tracks)
  /\ exists results,
       fst (AudioProcessor.process_file crop_fails_env (u"meeting.mp4")
              (fresh_P empty_world)) = Ok results.
Proof.
  assert (H1 : is_Some (AudioProcessor.pipeline (self (fresh_P empty_world)))
               \/ loads_succeed crop_fails_env)
    by (right; intros step; reflexivity).
  assert (H2 : is_video (u"meeting.mp4") = true ->
               MOVIEPY_AVAILABLE crop_fails_env = true
               /\ VideoFileClip crop_fails_env (u"meeting.mp4") = VideoWriteOk)
    by (intros _; split; reflexivity).
  assert (H3 : forall audio_path,
             exists tracks, diarize crop_fails_env audio_path = Returns tracks)
    by (intros audio_path; eexists; reflexivity).
  split; [exact H1|]. split; [exact H2|]. split; [exact H3|].
  exact (process_file_returns crop_fails_env (u"meeting.mp4")
           (fresh_P empty_world) H1 H2 H3).
Defined.

(** [process_file] on a video whose extraction succeeds. *)
Lemma process_file_extracted_file (env : Env) (input_path : str)
    (m : Machine AudioProcessor.t)
    (Hvideo : is_video input_path = true)
    (Hmodels : is_Some (AudioProcessor.pipeline (self m))
               \/ loads_succeed env)
    (Hmoviepy : MOVIEPY_AVAILABLE env = true)
    (Hwritten : VideoFileClip env input_path = VideoWriteOk) :
  let tmp := next_tmp (u"audio_") m in
  let m' := snd (AudioProcessor.process_file env input_path m) in
  AudioProcessor.temp_audio_file (self m') = Some tmp
  /\ files (world m') = {[tmp]} ∪ files (world m)
  /\ unlink_log (world m') = unlink_log (world m).
Proof.
  cbn zeta. unfold AudioProcessor.process_file. rewrite bind_get_self_run.
  destruct (process_file_load_step env m Hmodels)
    as (m1 & E1 & Hp & Hf1 & _).
  rewrite (bind_run _ _ _ _ _ E1). fold (is_video input_path).
  rewrite Hvideo.
  pose proof (extract_audio_from_video_run env input_path m1) as Hx.
  cbn zeta in Hx. rewrite Hmoviepy, Hwritten in Hx.
  unfold files_view in Hf1. injection Hf1 as Hf Hu Ht.
  unfold next_tmp in *. rewrite Ht in Hx.
  set (tmp := tmp_name (u"audio_") (u".wav") (tmp_counter (world m))) in *.
  destruct (AudioProcessor.extract_audio_from_video env input_path m1)
    as [r m2] eqn:Ex.
  cbn [fst snd] in Hx. destruct Hx as (-> & Hs & Hf2 & Hu2).
  rewrite (bind_run _ _ _ _ _
             (bind_run _ _ _ _ _ Ex : (extracted <- _ ;; _) m1 = _)).
  assert (Hp2 : is_Some (AudioProcessor.pipeline (self m2)))
    by (rewrite Hs; exact Hp).
  destruct (process_file_tail env tmp m2 Hp2)
    as ((Fs & Ff & Fu & _) & _).
  cbn zeta in Fs, Ff, Fu. rewrite Fs, Ff, Fu, Hs, Hf2, Hu2, Hf, Hu.
  repeat split.
Qed.

(** X9.  On a video whose extraction succeeds, [process_file] leaves the
    extracted file behind on every exit, also when the diarization raises:
    the file exists afterwards, nothing was deleted, and
    [temp_audio_file] names it. *)
Theorem process_file_keeps_extracted_file (env : Env) (input_path : str)
    (m : Machine AudioProcessor.t)
    (Hvideo : is_video input_path = true)
    (Hmodels : is_Some (AudioProcessor.pipeline (self m))
               \/ loads_succeed env)
    (Hmoviepy : MOVIEPY_AVAILABLE env = true)
    (Hwritten : VideoFileClip env input_path = VideoWriteOk) :
  let tmp := next_tmp (u"audio_") m in
  let m' := snd (AudioProcessor.process_file env input_path m) in
  AudioProcessor.temp_audio_file (self m') = Some tmp
  /\ files (world m') = {[tmp]} ∪ files (world m)
  /\ unlink_log (world m') = unlink_log (world m).
Proof.
  exact (process_file_extracted_file env input_path m Hvideo Hmodels
           Hmoviepy Hwritten).
Qed.

Lemma process_file_keeps_extracted_file_witness :
  is_video (u"meeting.mp4") = true
  /\ (is_Some (AudioProcessor.pipeline (self ready_P))
      \/ loads_succeed demo_env)
  /\ MOVIEPY_AVAILABLE demo_env = true
  /\ VideoFileClip demo_env (u"meeting.mp4") = VideoWriteOk
  /\ unlink_log (world (snd (AudioProcessor.process_file demo_env
                               (u"meeting.mp4") ready_P)))
     = unlink_log (world ready_P).
Proof.
  assert (H1 : is_video (u"meeting.mp4") = true) by (vm_compute; reflexivity).
  assert (H2 : is_Some (AudioProcessor.pipeline (self ready_P))
               \/ loads_succeed demo_env)
    by (right; intros step; reflexivity).
  split; [exact H1|]. split; [exact H2|].
  split; [reflexivity|]. split; [reflexivity|].
  exact (proj2 (proj2 (process_file_keeps_extracted_file demo_env
                         (u"meeting.mp4") ready_P H1 H2 eq_refl eq_refl))).
Defined.

(** X10.  On a video whose extraction fails, [process_file] raises
    [RuntimeError]; the file the extraction had created is deleted, once,
    and [temp_audio_file] is as before. *)
Theorem process_file_extraction_failure (env : Env) (input_path : str)
    (m : Machine AudioProcessor.t)
    (Hvideo : is_video input_path = true)
    (Hmodels : is_Some (AudioProcessor.pipeline (self m))
               \/ loads_succeed env)
    (Hmoviepy : MOVIEPY_AVAILABLE env = true)
    (Hfailed : VideoFileClip env input_path <> VideoWriteOk) :
  let tmp := next_tmp (u"audio_") m in
  let r := AudioProcessor.process_file env input_path m in
  fst r = Raise (RuntimeError (u"音声抽出に失敗しました"))
  /\ AudioProcessor.temp_audio_file (self (snd r))
     = AudioProcessor.temp_audio_file (self m)
  /\ files (world (snd r)) = files (world m) ∖ {[tmp]}
  /\ unlink_log (world (snd r)) = tmp :: unlink_log (world m).
Proof.
  cbn zeta. unfold AudioProcessor.process_file. rewrite bind_get_self_run.
  destruct (process_file_load_step env m Hmodels)
    as (m1 & E1 & Hp & Hf1 & Htemp).
  rewrite (bind_run _ _ _ _ _ E1). fold (is_video input_path).
  rewrite Hvideo.
  pose proof (extract_audio_from_video_run env input_path m1) as Hx.
  cbn zeta in Hx. rewrite Hmoviepy in Hx.
  unfold files_view in Hf1. injection Hf1 as Hf Hu Ht.
  unfold next_tmp in *. rewrite Ht in Hx.
  set (tmp := tmp_name (u"audio_") (u".wav") (tmp_counter (world m))) in *.
  destruct (AudioProcessor.extract_audio_from_video env input_path m1)
    as [r m2] eqn:Ex.
  cbn [fst snd] in Hx.
  assert (Hnone : r = Ok None
                  /\ self m2 = self m1
                  /\ files (world m2) = files (world m1) ∖ {[tmp]}
                  /\ unlink_log (world m2) = tmp :: unlink_log (world m1))
    by (destruct (VideoFileClip env input_path);
        [exact Hx|exact Hx|exact Hx|contradiction]).
  destruct Hnone as (-> & Hs & Hf2 & Hu2).
  rewrite (bind_raise _ _ _ m2 (RuntimeError (u"音声抽出に失敗しました")));
    [|rewrite (bind_run _ _ _ _ _ Ex); reflexivity].
  cbn [fst snd]. rewrite Hs, Hf2, Hu2, Hf, Hu, Htemp. repeat split.
Qed.

Lemma process_file_extraction_failure_witness :
  is_video (u"meeting.mp4") = true
  /\ (is_Some (AudioProcessor.pipeline (self (fresh_P empty_world)))
      \/ loads_succeed no_audio_env)
  /\ MOVIEPY_AVAILABLE no_audio_env = true
  /\ VideoFileClip no_audio_env (u"meeting.mp4") <> VideoWriteOk
  /\ fst (AudioProcessor.process_file no_audio_env (u"meeting.mp4")
            (fresh_P empty_world))
     = Raise (RuntimeError (u"音声抽出に失敗しました")).
Proof.
  assert (H1 : is_video (u"meeting.mp4") = true) by (vm_compute; reflexivity).
  assert (H2 : is_Some (AudioProcessor.pipeline (self (fresh_P empty_world)))
               \/ loads_succeed no_audio_env)
    by (right; intros step; reflexivity).
  assert (H3 : VideoFileClip no_audio_env (u"meeting.mp4") <> VideoWriteOk)
    by discriminate.
  split; [exact H1|]. split; [exact H2|]. split; [reflexivity|].
  split; [exact H3|].
  exact (proj1 (process_file_extraction_failure no_audio_env (u"meeting.mp4")
                  (fresh_P empty_world) H1 H2 eq_refl H3)).
Defined.

(** [cleanup] on an object that remembers a file that exists. *)
Lemma cleanup_run (f : str) (m : Machine AudioProcessor.t) :
  AudioProcessor.temp_audio_file (self m) = Some f ->
  f ∈ files (world m) ->
  AudioProcessor.cleanup m
  = (Ok tt,
     {| self := AudioProcessor.set_temp_audio_file None (self m);
        world := set_unlink_log (cons f)
                   (set_files (fun fs => fs ∖ {[f]}) (world m)) |}).
Proof.
  intros Ht Hin. unfold AudioProcessor.cleanup.
  rewrite bind_get_self_run, Ht.
  rewrite (bind_run _ _ _ _ _ (exists_run f m Hin)).
  unfold try_except. rewrite (bind_run _ _ _ _ _ (unlink_run f m Hin)).
  reflexivity.
Qed.

(** X11.  [cleanup] never raises, and a second [cleanup] right after it
    changes nothing.  When the object remembers a file that exists, the
    file is deleted, once, and forgotten; when the file does not exist,
    or none is remembered, nothing changes. *)
Theorem cleanup_outcomes (m : Machine AudioProcessor.t) :
  let m' := snd (AudioProcessor.cleanup m) in
  fst (AudioProcessor.cleanup m) = Ok tt
  /\ AudioProcessor.cleanup m' = (Ok tt, m')
  /\ match AudioProcessor.temp_audio_file (self m) with
     | Some f =>
       if bool_decide (f ∈ files (world m))
       then AudioProcessor.temp_audio_file (self m') = None
            /\ files (world m') = files (world m) ∖ {[f]}
            /\ unlink_log (world m') = f :: unlink_log (world m)
       else m' = m
     | None => m' = m
     end.
Proof.
  cbn zeta.
  destruct (AudioProcessor.temp_audio_file (self m)) as [f|] eqn:Ht.
  - destruct (bool_decide (f ∈ files (world m))) eqn:Eb.
    + apply bool_decide_eq_true_1 in Eb.
      rewrite (cleanup_run f m Ht Eb). cbn [fst snd].
      repeat split; reflexivity.
    + assert (E : AudioProcessor.cleanup m = (Ok tt, m)).
      { unfold AudioProcessor.cleanup. rewrite bind_get_self_run, Ht.
        unfold exists_, bind, get_world, ret. rewrite Eb. reflexivity. }
      rewrite E. cbn [fst snd]. rewrite E. repeat split; reflexivity.
  - assert (E : AudioProcessor.cleanup m = (Ok tt, m)).
    { unfold AudioProcessor.cleanup. rewrite bind_get_self_run, Ht.
      reflexivity. }
    rewrite E. cbn [fst snd]. rewrite E. repeat split; reflexivity.
Qed.

(** X12.  One run, then [cleanup]: after [process_file] on a video whose
    extraction succeeds, [cleanup] deletes the extracted file, once, and
    the object remembers no file. *)
Theorem process_file_then_cleanup (env : Env) (input_path : str)
    (m : Machine AudioProcessor.t)
    (Hvideo : is_video input_path = true)
    (Hmodels : is_Some (AudioProcessor.pipeline (self m))
               \/ loads_succeed env)
    (Hmoviepy : MOVIEPY_AVAILABLE env = true)
    (Hwritten : VideoFileClip env input_path = VideoWriteOk) :
  let tmp := next_tmp (u"audio_") m in
  let m' := snd (AudioProcessor.cleanup
                   (snd (AudioProcessor.process_file env input_path m))) in
  AudioProcessor.temp_audio_file (self m') = None
  /\ files (world m') = files (world m) ∖ {[tmp]}
  /\ unlink_log (world m') = tmp :: unlink_log (world m).
Proof.
  cbn zeta.
  destruct (process_file_extracted_file env input_path m Hvideo Hmodels
              Hmoviepy Hwritten) as (Ht & Hf & Hu).
  cbn zeta in Ht, Hf, Hu.
  set (m1 := snd (AudioProcessor.process_file env input_path m)) in *.
  assert (Hin : next_tmp (u"audio_") m ∈ files (world m1))
    by (rewrite Hf; apply elem_of_union_l, elem_of_singleton; reflexivity).
  rewrite (cleanup_run _ m1 Ht Hin).
  cbn [snd self world files unlink_log set_unlink_log set_files
       AudioProcessor.temp_audio_file AudioProcessor.set_temp_audio_file].
  rewrite Hf, Hu. repeat split. apply added_then_removed.
Qed.

Lemma process_file_then_cleanup_witness :
  is_video (u"meeting.mp4") = true
  /\ unlink_log (world (snd (AudioProcessor.cleanup
                               (snd (AudioProcessor.process_file demo_env
                                       (u"meeting.mp4")
                                       (fresh_P empty_world))))))
     = next_tmp (u"audio_") (fresh_P empty_world)
       :: unlink_log (world (fresh_P empty_world)).
Proof.
  assert (H1 : is_video (u"meeting.mp4") = true) by (vm_compute; reflexivity).
  split; [exact H1|].
  refine (proj2 (proj2 (process_file_then_cleanup demo_env (u"meeting.mp4")
                          (fresh_P empty_world) H1 _ eq_refl eq_refl))).
  right. intros step. reflexivity.
Defined.

(* ===================================================================== *)
(** * After a failed load *)
(* ===================================================================== *)

(** Without an audio handler the loop of [process_file] skips every
    segment: each crop attempt raises inside the [try]. *)
Lemma process_loop_without_handler (env : Env) (audio_path : str)
    (tracks : list Track) :
  forall acc m,
    AudioProcessor.audio_handler (self m) = None ->
    AudioProcessor.process_loop env audio_path tracks acc m = (Ok acc, m).
Proof.
  induction tracks as [|[segment label] rest IH]; intros acc m Hh.
  - reflexivity.
  - rewrite process_loop_cons, process_segment_run, Hh. apply IH. exact Hh.
Qed.

(** Without an audio handler the loop of [transcribe_file] raises at the
    first segment it does not skip, and returns normally when it skips
    them all. *)
Lemma transcribe_loop_without_handler (env : Env) (audio_path : str)
    (tracks : list Track) :
  forall acc m,
    AudioTranscriber.audio_handler (self m) = None ->
    AudioTranscriber.transcribe_loop env audio_path tracks acc m
    = (if forallb below_T tracks then Ok acc else Raise AttributeError, m).
Proof.
  induction tracks as [|[segment label] rest IH]; intros acc m Hh.
  - reflexivity.
  - rewrite transcribe_loop_cons. cbn [forallb]. unfold below_T at 1.
    cbn [fst]. destruct (Qlt_bool _ _); cbn [andb].
    + apply IH. exact Hh.
    + rewrite Hh. reflexivity.
Qed.

(** A load that fails after its first step leaves the pipeline set and
    the audio handler unset. *)
Lemma partial_load_T (env : Env) (w : World) :
  load_answer env LoadPipeline = None ->
  ~ loads_succeed env ->
  exists msg m1,
    AudioTranscriber._load_models env (fresh_T w)
    = (Raise (ModelError msg), m1)
    /\ is_Some (AudioTranscriber.diarization_pipeline (self m1))
    /\ AudioTranscriber.audio_handler (self m1) = None
    /\ files_view m1 = files_view (fresh_T w).
Proof.
  intros H1 Hfail.
  unfold AudioTranscriber._load_models, load, check, new_object, fresh_T.
  unfold_monad. cbn. rewrite H1.
  destruct (load_answer env PipelineToDevice) as [msg|] eqn:H2;
    [eexists _, _; repeat split; eauto|].
  destruct (load_answer env LoadProcessor) as [msg|] eqn:H3;
    [eexists _, _; repeat split; eauto|].
  destruct (load_answer env LoadModel) as [msg|] eqn:H4;
    [eexists _, _; repeat split; eauto|].
  contradiction Hfail. intros []; assumption.
Qed.

Lemma partial_load_P (env : Env) (w : World) :
  load_answer env LoadPipeline = None ->
  ~ loads_succeed env ->
  exists msg m1,
    AudioProcessor._load_models env (fresh_P w)
    = (Raise (ModelError msg), m1)
    /\ is_Some (AudioProcessor.pipeline (self m1))
    /\ AudioProcessor.audio_handler (self m1) = None
    /\ files_view m1 = files_view (fresh_P w).
Proof.
  intros H1 Hfail.
  unfold AudioProcessor._load_models, load, check, new_object, fresh_P.
  unfold_monad. cbn. rewrite H1.
  destruct (load_answer env PipelineToDevice) as [msg|] eqn:H2;
    [eexists _, _; repeat split; eauto|].
  destruct (load_answer env LoadProcessor) as [msg|] eqn:H3;
    [eexists _, _; repeat split; eauto|].
  destruct (load_answer env LoadModel) as [msg|] eqn:H4;
    [eexists _, _; repeat split; eauto|].
  contradiction Hfail. intros []; assumption.
Qed.

(** X13.  A load that fails after the pipeline was created is never
    repeated.  The first call, on a new object, raises the loading error.
    A second call on the same object finds the pipeline set and loads
    nothing, even where loading would now succeed: on an audio input
    [process_file] then returns the empty list, every crop failing inside
    its [try]; [transcribe_file] raises [AttributeError] at the first
    segment of half a second or more, and returns the empty list when
    there is none. *)
Theorem failed_load_is_not_repeated (env env' : Env) (path path' : str)
    (w : World) (tracks : list Track)
    (Hfirst : load_answer env LoadPipeline = None)
    (Hfails : ~ loads_succeed env)
    (Haudio : is_video path' = false)
    (Hdiarize : diarize env' path' = Returns tracks) :
  let runT := AudioTranscriber.transcribe_file env path (fresh_T w) in
  let runP := AudioProcessor.process_file env path (fresh_P w) in
  (exists msg, fst runT = Raise (ModelError msg)
               /\ fst runP = Raise (ModelError msg))
  /\ fst (AudioProcessor.process_file env' path' (snd runP)) = Ok []
  /\ fst (AudioTranscriber.transcribe_file env' path' (snd runT))
     = (if forallb below_T tracks then Ok [] else Raise AttributeError).
Proof.
  cbn zeta.
  destruct (partial_load_T env w Hfirst Hfails)
    as (msgT & mT & ET & HpT & HhT & _).
  destruct (partial_load_P env w Hfirst Hfails)
    as (msgP & mP & EP & HpP & HhP & _).
  assert (Emsg : msgT = msgP).
  { revert ET EP.
    unfold AudioTranscriber._load_models, AudioProcessor._load_models,
      load, check, new_object, fresh_T, fresh_P.
    unfold_monad. cbn. rewrite Hfirst.
    destruct (load_answer env PipelineToDevice);
      [intros [= -> _] [= -> _]; reflexivity|].
    destruct (load_answer env LoadProcessor);
      [intros [= -> _] [= -> _]; reflexivity|].
    destruct (load_answer env LoadModel);
      [intros [= -> _] [= -> _]; reflexivity|].
    discriminate. }
  subst msgP.
  assert (ErunT : AudioTranscriber.transcribe_file env path (fresh_T w)
                  = (Raise (ModelError msgT), mT)).
  { unfold AudioTranscriber.transcribe_file.
    apply (bind_raise _ _ _ _ _ ET). }
  assert (ErunP : AudioProcessor.process_file env path (fresh_P w)
                  = (Raise (ModelError msgT), mP)).
  { unfold AudioProcessor.process_file. rewrite bind_get_self_run.
    cbn [fresh_P self AudioProcessor.__init__ AudioProcessor.pipeline].
    apply (bind_raise _ _ _ _ _ EP). }
  rewrite ErunT, ErunP. cbn [fst snd].
  split; [exists msgT; split; reflexivity|]. split.
  - unfold AudioProcessor.process_file. rewrite bind_get_self_run.
    destruct HpP as [p HpP]. rewrite HpP, bind_ret_l.
    fold (is_video path'). rewrite Haudio, bind_ret_l.
    rewrite bind_get_self_run, HpP. unfold callable. rewrite bind_ret_l.
    rewrite Hdiarize. unfold of_outcome. rewrite bind_ret_l.
    rewrite process_loop_without_handler by exact HhP. reflexivity.
  - unfold AudioTranscriber.transcribe_file.
    rewrite (bind_run _ _ _ _ _ (load_models_T_guard env' mT HpT)).
    fold (is_video path'). rewrite Haudio, bind_ret_l.
    unfold try_finally. rewrite bind_get_self_run.
    destruct HpT as [p HpT]. rewrite HpT. unfold callable.
    rewrite bind_ret_l, Hdiarize. unfold of_outcome. rewrite bind_ret_l.
    rewrite transcribe_loop_without_handler by exact HhT. reflexivity.
Qed.

Lemma failed_load_is_not_repeated_witness :
  load_answer model_fails_env LoadPipeline = None
  /\ ~ loads_succeed model_fails_env
  /\ is_video (u"meeting.wav") = false
  /\ diarize demo_env (u"meeting.wav")
     = Returns [ (segment_of 0 (1 # 20), u"SPEAKER_00");
                 (segment_of 1 3, u"SPEAKER_01");
                 (segment_of 4 7, u"SPEAKER_00") ]
  /\ fst (AudioProcessor.process_file demo_env (u"meeting.wav")
            (snd (AudioProcessor.process_file model_fails_env
                    (u"meeting.wav") (fresh_P empty_world)))) = Ok [].
Proof.
  assert (H2 : ~ loads_succeed model_fails_env)
    by (intros H; specialize (H LoadModel); discriminate).
  assert (H3 : is_video (u"meeting.wav") = false) by (vm_compute; reflexivity).
  split; [reflexivity|]. split; [exact H2|]. split; [exact H3|].
  split; [reflexivity|].
  exact (proj1 (proj2 (failed_load_is_not_repeated model_fails_env demo_env
                         (u"meeting.wav") (u"meeting.wav") empty_world _
                         eq_refl H2 H3 eq_refl))).
Defined.

(* ===================================================================== *)
(** * The exceptions the pipeline can raise *)
(* ===================================================================== *)

Section OnlyExceptions.
Context {O : Type}.

Lemma only_ret {A} (a : A) : only_Exceptions (O := O) (ret a).
Proof. intros m e. discriminate. Qed.

Lemma only_raise {A} (e : exn) :
  is_Exception e = true -> only_Exceptions (raise e : M (Machine O) A).
Proof. intros He m e' [= <-]. exact He. Qed.

Lemma only_bind {A B} (c : M (Machine O) A) (k : A -> M (Machine O) B) :
  only_Exceptions c -> (forall a, only_Exceptions (k a)) ->
  only_Exceptions (bind c k).
Proof.
  intros Hc Hk m e. unfold bind. specialize (Hc m).
  destruct (c m) as [[a|e0] m1]; simpl in *.
  - apply Hk.
  - intros [= <-]. apply Hc. reflexivity.
Qed.

Lemma only_try_except {A} (c : M (Machine O) A)
    (handler : exn -> M (Machine O) A) :
  only_Exceptions c -> (forall e, only_Exceptions (handler e)) ->
  only_Exceptions (try_except c handler).
Proof.
  intros Hc Hh m e. unfold try_except. specialize (Hc m).
  destruct (c m) as [[a|e0] m1]; simpl in *; [discriminate|].
  rewrite (Hc e0 eq_refl). apply Hh.
Qed.

Lemma only_try_finally {A} (c : M (Machine O) A) (fin : M (Machine O) unit) :
  only_Exceptions c -> only_Exceptions fin ->
  only_Exceptions (try_finally c fin).
Proof.
  intros Hc Hf m e. unfold try_finally. specialize (Hc m).
  destruct (c m) as [r m1]. specialize (Hf m1).
  destruct (fin m1) as [[[]|e1] m2]; simpl in *.
  - intros ->. apply Hc. reflexivity.
  - intros [= <-]. apply Hf. reflexivity.
Qed.

Lemma only_get_self : only_Exceptions (O := O) get_self.
Proof. intros m e. discriminate. Qed.

Lemma only_with_self (f : O -> O) : only_Exceptions (with_self f).
Proof. intros m e. discriminate. Qed.

Lemma only_exists_ (path : str) : only_Exceptions (O := O) (exists_ path).
Proof. intros m e. discriminate. Qed.

Lemma only_unlink (path : str) : only_Exceptions (O := O) (unlink path).
Proof.
  intros m e. unfold unlink. unfold_monad. simpl.
  destruct (bool_decide _); [discriminate|]. intros [= <-]. reflexivity.
Qed.

Lemma only_mkstemp (suffix prefix : str) :
  only_Exceptions (O := O) (mkstemp suffix prefix).
Proof. intros m e. discriminate. Qed.

Lemma only_new_object : only_Exceptions (O := O) new_object.
Proof. intros m e. discriminate. Qed.

Lemma only_check (env : Env) (step : load_step) :
  only_Exceptions (O := O) (check env step).
Proof.
  intros m e. unfold check. destruct (load_answer env step);
    [intros [= <-]; reflexivity|discriminate].
Qed.

Lemma only_load (env : Env) (step : load_step) :
  only_Exceptions (O := O) (load env step).
Proof.
  apply only_bind; [apply only_check|intros _; apply only_new_object].
Qed.

Lemma only_of_outcome {A} (o : outcome A) :
  only_Exceptions (O := O) (of_outcome o).
Proof. intros m e. destruct o; [discriminate|intros [= <-]; reflexivity]. Qed.

Lemma only_callable (field : option handle) :
  only_Exceptions (O := O) (callable field).
Proof.
  intros m e. destruct field; [discriminate|intros [= <-]; reflexivity].
Qed.

Lemma only_audio_crop (env : Env) (h : option handle) (audio_path : str)
    (segment : Segment) :
  only_Exceptions (O := O) (audio_crop env h audio_path segment).
Proof.
  intros m e. rewrite audio_crop_run. destruct h; simpl.
  - destruct (crop env audio_path segment);
      [discriminate|intros [= <-]; reflexivity].
  - intros [= <-]. reflexivity.
Qed.

End OnlyExceptions.

Lemma only_transcribe_loop (env : Env) (audio_path : str)
    (tracks : list Track) :
  forall acc,
    only_Exceptions
      (AudioTranscriber.transcribe_loop env audio_path tracks acc).
Proof.
  induction tracks as [|[segment label] rest IH]; intros acc.
  - apply only_ret.
  - intros m e. rewrite transcribe_loop_cons.
    destruct (Qlt_bool _ _); [apply IH|].
    destruct (AudioTranscriber.audio_handler (self m));
      [|intros [= <-]; reflexivity].
    destruct (crop env audio_path segment) as [[waveform sample_rate]|msg];
      [|intros [= <-]; reflexivity].
    destruct (AudioTranscriber.whisper_processor (self m)),
             (AudioTranscriber.whisper_model (self m)); apply IH.
Qed.

Lemma only_load_models_T (env : Env) :
  only_Exceptions (AudioTranscriber._load_models env).
Proof.
  unfold AudioTranscriber._load_models.
  apply only_bind; [apply only_get_self|intros o].
  destruct (AudioTranscriber.diarization_pipeline o); [apply only_ret|].
  repeat first [ apply only_with_self | apply only_new_object
               | apply only_load | apply only_check
               | apply only_bind; [|intros ?] ].
Qed.

Lemma only_extract_audio_from_mp4 (env : Env) (mp4_path : str) :
  only_Exceptions (AudioTranscriber.extract_audio_from_mp4 env mp4_path).
Proof.
  unfold AudioTranscriber.extract_audio_from_mp4.
  apply only_bind; [apply only_mkstemp|intros tmp].
  apply only_try_except.
  - destruct (VideoFileClip env mp4_path);
      first [apply only_ret | apply only_raise; reflexivity].
  - intros e. apply only_bind; [apply only_exists_|intros present].
    apply only_bind; [|intros ?; apply only_raise; reflexivity].
    destruct present; [apply only_unlink|apply only_ret].
Qed.

Lemma only_transcribe_file (env : Env) (file_path : str) :
  only_Exceptions (AudioTranscriber.transcribe_file env file_path).
Proof.
  unfold AudioTranscriber.transcribe_file.
  apply only_bind; [apply only_load_models_T|intros _].
  apply only_bind.
  - destruct (bool_decide _); [|apply only_ret].
    apply only_bind; [apply only_extract_audio_from_mp4|intros ?].
    apply only_ret.
  - intros [audio_path temp_file]. apply only_try_finally.
    + apply only_bind; [apply only_get_self|intros o].
      apply only_bind; [apply only_callable|intros ?].
      apply only_bind; [apply only_of_outcome|intros tracks].
      apply only_transcribe_loop.
    + destruct temp_file as [f|]; [|apply only_ret].
      apply only_bind; [apply only_exists_|intros [|]];
        [apply only_unlink|apply only_ret].
Qed.

Lemma only_process_loop (env : Env) (audio_path : str)
    (tracks : list Track) (acc : list TranscriptSegment) :
  only_Exceptions (AudioProcessor.process_loop env audio_path tracks acc).
Proof.
  intros m e H.
  destruct (process_loop_total env audio_path tracks acc m) as [results E].
  congruence.
Qed.

Lemma only_process_file (env : Env) (input_path : str) :
  only_Exceptions (AudioProcessor.process_file env input_path).
Proof.
  unfold AudioProcessor.process_file.
  apply only_bind; [apply only_get_self|intros o].
  apply only_bind.
  { destruct (AudioProcessor.pipeline o); [apply only_ret|].
    unfold AudioProcessor._load_models.
    repeat first [ apply only_with_self | apply only_new_object
                 | apply only_load | apply only_check
                 | apply only_bind; [|intros ?] ]. }
  intros _. apply only_bind.
  - destruct (bool_decide _); [|apply only_ret].
    apply only_bind.
    + unfold AudioProcessor.extract_audio_from_video.
      destruct (negb _); [apply only_raise; reflexivity|].
      apply only_bind; [apply only_mkstemp|intros tmp].
      apply only_try_except.
      * destruct (VideoFileClip env input_path);
          try (apply only_raise; reflexivity).
        apply only_bind; [apply only_with_self|intros ?; apply only_ret].
      * intros e. apply only_bind; [apply only_exists_|intros present].
        apply only_bind; [|intros ?; apply only_ret].
        destruct present; [apply only_unlink|apply only_ret].
    + intros [p|]; [apply only_ret|apply only_raise; reflexivity].
  - intros audio_path.
    apply only_bind; [apply only_get_self|intros o'].
    apply only_bind; [apply only_callable|intros ?].
    apply only_bind; [apply only_of_outcome|intros tracks].
    apply only_process_loop.
Qed.

(** X14.  Whatever the collaborators do, an exception that leaves
    [transcribe_file] or [process_file] is an [Exception]: neither ever
    ends the process with [SystemExit] or raises [KeyboardInterrupt], so
    an [except Exception] around a call catches all they raise. *)
Theorem pipeline_raises_only_Exceptions (env : Env) (path : str)
    (mT : Machine AudioTranscriber.t) (mP : Machine AudioProcessor.t)
    (e : exn)
    (Hraised : fst (AudioTranscriber.transcribe_file env path mT) = Raise e
               \/ fst (AudioProcessor.process_file env path mP) = Raise e) :
  is_Exception e = true.
Proof.
  destruct Hraised as [H|H].
  - exact (only_transcribe_file env path mT e H).
  - exact (only_process_file env path mP e H).
Qed.

Lemma pipeline_raises_only_Exceptions_witness :
  fst (AudioTranscriber.transcribe_file crop_fails_env
         (Main.input_file meeting_args) (fresh_T meeting_world))
  = Raise (ModelError (u"crop failed"))
  /\ is_Exception (ModelError (u"crop failed")) = true.
Proof.
  assert (H : fst (AudioTranscriber.transcribe_file crop_fails_env
                     (Main.input_file meeting_args) (fresh_T meeting_world))
              = Raise (ModelError (u"crop failed")))
    by (vm_compute; reflexivity).
  split; [exact H|].
  exact (pipeline_raises_only_Exceptions crop_fails_env
           (Main.input_file meeting_args) (fresh_T meeting_world)
           (fresh_P meeting_world) _ (or_introl H)).
Defined.

(* ===================================================================== *)
(** * The command line, case by case *)
(* ===================================================================== *)

Lemma try_except_interrupt_bind {S A B : Type} (c : M S A) (k : A -> M S B)
    (h1 : M S B) (h2 : exn -> M S B) (s : S) :
  Main.try_except_interrupt (bind c k) h1 h2 s
  = match c s with
    | (Ok a, s1) => Main.try_except_interrupt (k a) h1 h2 s1
    | (Raise e, s1) => Main.try_except_interrupt (raise e) h1 h2 s1
    end.
Proof.
  unfold Main.try_except_interrupt, bind, raise.
  destruct (c s) as [[a|e] s1]; reflexivity.
Qed.

(** [main] up to the call of the pipeline, for an input that passes the
    two checks. *)
Lemma script_reaches_pipeline (env : Env) (args : Main.Args) (w : World)
    (Hexists : Main.input_file args ∈ files w)
    (Hformat : lower (path_suffix (Main.input_file args))
                 ∈ Main.supported_formats) :
  Main.script env args (fresh_T w)
  = match AudioTranscriber.transcribe_file env (Main.input_file args)
            (fresh_T w) with
    | (Ok results, m1) =>
      Main.try_except_interrupt (after_pipeline env args results)
        on_interrupt on_error
        (annotated id (printed_before_pipeline args) m1)
    | (Raise e, m1) =>
      Main.try_except_interrupt (raise e) on_interrupt on_error
        (annotated id (printed_before_pipeline args) m1)
    end.
Proof.
  unfold Main.script.
  rewrite (bind_run _ _ _ (fresh_T w) true);
    [|unfold exists_; unfold_monad; simpl;
      rewrite (bool_decide_eq_true_2 _ Hexists); reflexivity].
  cbn [negb].
  rewrite (bool_decide_eq_true_2 _ Hformat). cbn [negb].
  fold (output_path_of args).
  pose proof (ignores_transcribe_file env (Main.input_file args) id
                (printed_before_pipeline args) (fresh_T w)) as E.
  destruct (AudioTranscriber.transcribe_file env (Main.input_file args)
              (fresh_T w)) as [r m1] eqn:Er.
  cbn [fst snd] in E.
  transitivity
    (Main.try_except_interrupt
       (results <- AudioTranscriber.transcribe_file env (Main.input_file args) ;;
        after_pipeline env args results)
       on_interrupt on_error
       (annotated id (printed_before_pipeline args) (fresh_T w)));
    [reflexivity|].
  rewrite try_except_interrupt_bind, E. destruct r; reflexivity.
Qed.

(** [main] on an input that does not exist, and on one whose suffix is
    not supported. *)
Lemma script_rejects_input (env : Env) (args : Main.Args) (w : World) :
  (Main.input_file args ∉ files w ->
   Main.script env args (fresh_T w)
   = (Raise (SystemExit 1),
      {| self := AudioTranscriber.__init__;
         world := set_stdout
                    (cons (u"❌ エラー: ファイルが見つかりません: "
                           ++ Main.input_file args)) w |}))
  /\ (Main.input_file args ∈ files w ->
      lower (path_suffix (Main.input_file args)) ∉ Main.supported_formats ->
      Main.script env args (fresh_T w)
      = (Raise (SystemExit 1),
         {| self := AudioTranscriber.__init__;
            world := set_stdout
                       (fun printed =>
                          (u"対応形式: " ++ join (u", ") Main.supported_formats)
                          :: (u"❌ エラー: 対応していないファイル形式です: "
                              ++ path_suffix (Main.input_file args))
                          :: printed) w |})).
Proof.
  split.
  - intros Hmissing. unfold Main.script.
    rewrite (bind_run _ _ _ (fresh_T w) false);
      [reflexivity|].
    unfold exists_. unfold_monad. simpl.
    rewrite (bool_decide_eq_false_2 _ Hmissing). reflexivity.
  - intros Hexists Hformat. unfold Main.script.
    rewrite (bind_run _ _ _ (fresh_T w) true);
      [|unfold exists_; unfold_monad; simpl;
        rewrite (bool_decide_eq_true_2 _ Hexists); reflexivity].
    cbn [negb]. rewrite (bool_decide_eq_false_2 _ Hformat). reflexivity.
Qed.

(** X15.  An input that does not exist, or whose suffix is not one of the
    nine supported ones, ends [main] with status 1 before anything else
    happens: the only change is what was printed, the message and, for the
    suffix, the list of supported formats. *)
Theorem main_rejects_input (env : Env) (args : Main.Args) (w : World) :
  (Main.input_file args ∉ files w ->
   Main.main env (Main.Parsed args) w
   = (1, set_stdout
           (cons (u"❌ エラー: ファイルが見つかりません: "
                  ++ Main.input_file args)) w))
  /\ (Main.input_file args ∈ files w ->
      lower (path_suffix (Main.input_file args)) ∉ Main.supported_formats ->
      Main.main env (Main.Parsed args) w
      = (1, set_stdout
              (fun printed =>
                 (u"対応形式: " ++ join (u", ") Main.supported_formats)
                 :: (u"❌ エラー: 対応していないファイル形式です: "
                     ++ path_suffix (Main.input_file args))
                 :: printed) w)).
Proof.
  rewrite main_parsed. split.
  - intros Hmissing.
    rewrite (proj1 (script_rejects_input env args w) Hmissing). reflexivity.
  - intros Hexists Hformat.
    rewrite (proj2 (script_rejects_input env args w) Hexists Hformat).
    reflexivity.
Qed.

Lemma main_rejects_input_witness :
  (Main.input_file {| Main.input_file := u"notes.txt"; Main.output := None |}
     ∉ files meeting_world)
  /\ fst (Main.main demo_env
            (Main.Parsed
               {| Main.input_file := u"notes.txt"; Main.output := None |})
            meeting_world) = 1.
Proof.
  assert (H : Main.input_file
                {| Main.input_file := u"notes.txt"; Main.output := None |}
              ∉ files meeting_world).
  { apply (bool_decide_unpack _). vm_compute. exact I. }
  split; [exact H|].
  exact (f_equal fst (proj1 (main_rejects_input demo_env _ meeting_world) H)).
Defined.

(** X16.  For an input that passes the checks: when the pipeline returns
    a list that is not empty and the report can be saved, [main] ends with
    status 0, having written one file, at the output path, whose content
    is the report of that list under the input's file name; the file
    exists afterwards. *)
Theorem main_writes_report (env : Env) (args : Main.Args) (w : World)
    (r : TranscriptSegment) (rest : list TranscriptSegment)
    (Hexists : Main.input_file args ∈ files w)
    (Hformat : lower (path_suffix (Main.input_file args))
                 ∈ Main.supported_formats)
    (Hresults : fst (AudioTranscriber.transcribe_file env
                       (Main.input_file args) (fresh_T w)) = Ok (r :: rest))
    (Hwrite : write_answer env (output_path_of args) = WriteOk) :
  fst (Main.main env (Main.Parsed args) w) = 0
  /\ written (snd (Main.main env (Main.Parsed args) w))
     = (output_path_of args,
        AudioTranscriber.create_markdown_report env (r :: rest)
          (path_name (Main.input_file args))) :: written w
  /\ output_path_of args ∈ files (snd (Main.main env (Main.Parsed args) w)).
Proof.
  rewrite main_parsed.
  rewrite (script_reaches_pipeline env args w Hexists Hformat).
  pose proof (ignores_output_frame _
                (ignores_transcribe_file env (Main.input_file args))
                (fresh_T w)) as [Fw _].
  destruct (AudioTranscriber.transcribe_file env (Main.input_file args)
              (fresh_T w)) as [res m1].
  cbn [fst snd] in Hresults, Fw. subst res.
  unfold after_pipeline, AudioTranscriber.save_markdown_file.
  rewrite Hwrite. cbn. rewrite Fw. repeat split.
  apply elem_of_union_l, elem_of_singleton. reflexivity.
Qed.

Lemma main_writes_report_witness :
  Main.input_file meeting_args ∈ files meeting_world
  /\ lower (path_suffix (Main.input_file meeting_args))
       ∈ Main.supported_formats
  /\ fst (AudioTranscriber.transcribe_file demo_env
            (Main.input_file meeting_args) (fresh_T meeting_world))
     = Ok [greeting_T; answer_T]
  /\ write_answer demo_env (output_path_of meeting_args) = WriteOk
  /\ fst (Main.main demo_env (Main.Parsed meeting_args) meeting_world) = 0.
Proof.
  assert (H1 : Main.input_file meeting_args ∈ files meeting_world)
    by (apply (bool_decide_unpack _); vm_compute; exact I).
  assert (H2 : lower (path_suffix (Main.input_file meeting_args))
                 ∈ Main.supported_formats)
    by (apply (bool_decide_unpack _); vm_compute; exact I).
  assert (H3 : fst (AudioTranscriber.transcribe_file demo_env
                      (Main.input_file meeting_args) (fresh_T meeting_world))
               = Ok [greeting_T; answer_T])
    by (vm_compute; reflexivity).
  assert (H4 : write_answer demo_env (output_path_of meeting_args) = WriteOk)
    by reflexivity.
  split; [exact H1|]. split; [exact H2|]. split; [exact H3|].
  split; [exact H4|].
  exact (proj1 (main_writes_report demo_env meeting_args meeting_world
                  _ _ H1 H2 H3 H4)).
Defined.

(** X17.  For an input that passes the checks: when the pipeline raises
    an [Exception], one that the clause [except Exception] catches, [main]
    ends with status 1, writes no file, and the last line it prints
    carries the exception's message.  ([KeyboardInterrupt] has a clause
    of its own in front, with another message.) *)
Theorem main_reports_error (env : Env) (args : Main.Args) (w : World)
    (e : exn)
    (Hexists : Main.input_file args ∈ files w)
    (Hformat : lower (path_suffix (Main.input_file args))
                 ∈ Main.supported_formats)
    (Hraises : fst (AudioTranscriber.transcribe_file env
                      (Main.input_file args) (fresh_T w)) = Raise e)
    (Hcaught : is_Exception e = true) :
  fst (Main.main env (Main.Parsed args) w) = 1
  /\ written (snd (Main.main env (Main.Parsed args) w)) = written w
  /\ head (stdout (snd (Main.main env (Main.Parsed args) w)))
     = Some (u"❌ エラーが発生しました: " ++ exn_str e).
Proof.
  rewrite main_parsed.
  rewrite (script_reaches_pipeline env args w Hexists Hformat).
  pose proof (ignores_output_frame _
                (ignores_transcribe_file env (Main.input_file args))
                (fresh_T w)) as [Fw _].
  destruct (AudioTranscriber.transcribe_file env (Main.input_file args)
              (fresh_T w)) as [res m1].
  cbn [fst snd] in Hraises, Fw. subst res.
  unfold Main.try_except_interrupt, raise.
  destruct e; try discriminate Hcaught; cbn; rewrite Fw; repeat split.
Qed.

Lemma main_reports_error_witness :
  Main.input_file meeting_args ∈ files meeting_world
  /\ lower (path_suffix (Main.input_file meeting_args))
       ∈ Main.supported_formats
  /\ fst (AudioTranscriber.transcribe_file crop_fails_env
            (Main.input_file meeting_args) (fresh_T meeting_world))
     = Raise (ModelError (u"crop failed"))
  /\ is_Exception (ModelError (u"crop failed")) = true
  /\ fst (Main.main crop_fails_env (Main.Parsed meeting_args) meeting_world)
     = 1.
Proof.
  assert (H1 : Main.input_file meeting_args ∈ files meeting_world)
    by (apply (bool_decide_unpack _); vm_compute; exact I).
  assert (H2 : lower (path_suffix (Main.input_file meeting_args))
                 ∈ Main.supported_formats)
    by (apply (bool_decide_unpack _); vm_compute; exact I).
  assert (H3 : fst (AudioTranscriber.transcribe_file crop_fails_env
                      (Main.input_file meeting_args) (fresh_T meeting_world))
               = Raise (ModelError (u"crop failed")))
    by (vm_compute; reflexivity).
  assert (H4 : is_Exception (ModelError (u"crop failed")) = true)
    by reflexivity.
  split; [exact H1|]. split; [exact H2|]. split; [exact H3|].
  split; [exact H4|].
  exact (proj1 (main_reports_error crop_fails_env meeting_args meeting_world
                  _ H1 H2 H3 H4)).
Defined.

(** X27.  For an input that passes the checks: when the pipeline returns
    a list that is not empty but the report cannot be saved, [open]
    raising or the write after it, [main] ends with status 1, no write
    was completed, and the last line it prints carries the message of
    the error. *)
Theorem main_write_failure (env : Env) (args : Main.Args) (w : World)
    (r : TranscriptSegment) (rest : list TranscriptSegment) (msg : str)
    (Hexists : Main.input_file args ∈ files w)
    (Hformat : lower (path_suffix (Main.input_file args))
                 ∈ Main.supported_formats)
    (Hresults : fst (AudioTranscriber.transcribe_file env
                       (Main.input_file args) (fresh_T w)) = Ok (r :: rest))
    (Hwrite : write_answer env (output_path_of args) = OpenFails msg
              \/ write_answer env (output_path_of args) = WriteFails msg) :
  fst (Main.main env (Main.Parsed args) w) = 1
  /\ written (snd (Main.main env (Main.Parsed args) w)) = written w
  /\ head (stdout (snd (Main.main env (Main.Parsed args) w)))
     = Some (u"❌ エラーが発生しました: " ++ msg).
Proof.
  rewrite main_parsed.
  rewrite (script_reaches_pipeline env args w Hexists Hformat).
  pose proof (ignores_output_frame _
                (ignores_transcribe_file env (Main.input_file args))
                (fresh_T w)) as [Fw _].
  destruct (AudioTranscriber.transcribe_file env (Main.input_file args)
              (fresh_T w)) as [res m1].
  cbn [fst snd] in Hresults, Fw. subst res.
  unfold after_pipeline, AudioTranscriber.save_markdown_file.
  destruct Hwrite as [-> | ->]; cbn; rewrite Fw; repeat split.
Qed.

Lemma main_write_failure_witness :
  Main.input_file meeting_args ∈ files meeting_world
  /\ lower (path_suffix (Main.input_file meeting_args))
       ∈ Main.supported_formats
  /\ fst (AudioTranscriber.transcribe_file write_fails_env
            (Main.input_file meeting_args) (fresh_T meeting_world))
     = Ok [greeting_T; answer_T]
  /\ write_answer write_fails_env (output_path_of meeting_args)
     = OpenFails (u"Permission denied")
  /\ fst (Main.main write_fails_env (Main.Parsed meeting_args) meeting_world)
     = 1.
Proof.
  assert (H1 : Main.input_file meeting_args ∈ files meeting_world)
    by (apply (bool_decide_unpack _); vm_compute; exact I).
  assert (H2 : lower (path_suffix (Main.input_file meeting_args))
                 ∈ Main.supported_formats)
    by (apply (bool_decide_unpack _); vm_compute; exact I).
  assert (H3 : fst (AudioTranscriber.transcribe_file write_fails_env
                      (Main.input_file meeting_args) (fresh_T meeting_world))
               = Ok [greeting_T; answer_T])
    by (vm_compute; reflexivity).
  assert (H4 : write_answer write_fails_env (output_path_of meeting_args)
               = OpenFails (u"Permission denied"))
    by reflexivity.
  split; [exact H1|]. split; [exact H2|]. split; [exact H3|].
  split; [exact H4|].
  exact (proj1 (main_write_failure write_fails_env meeting_args meeting_world
                  _ _ _ H1 H2 H3 (or_introl H4))).
Defined.

(** X18.  The exit status of [main] and the report.  A malformed command
    line ends it with status 2 and [-h] with status 0, in [parse_args],
    the help printed and nothing else done.  On a command line that
    parses it ends with status 0 or 1, and it has completed a write, one,
    at the output path, exactly when the status is 0. *)
Theorem main_status_and_report (env : Env) (cl : Main.command_line)
    (w : World) :
  match cl with
  | Main.UsageError => Main.main env cl w = (2, w)
  | Main.HelpRequested help =>
    Main.main env cl w = (0, set_stdout (fun printed => rev help ++ printed) w)
  | Main.Parsed args =>
    (fst (Main.main env cl w) = 0
     /\ exists content,
          written (snd (Main.main env cl w))
          = (output_path_of args, content) :: written w)
    \/ (fst (Main.main env cl w) = 1
        /\ written (snd (Main.main env cl w)) = written w)
  end.
Proof.
  destruct cl as [args|help|]; [|reflexivity|reflexivity].
  rewrite main_parsed.
  destruct (decide (Main.input_file args ∈ files w)) as [Hexists|Hmissing].
  2:{ right. rewrite (proj1 (script_rejects_input env args w) Hmissing).
      split; reflexivity. }
  destruct (decide (lower (path_suffix (Main.input_file args))
                      ∈ Main.supported_formats)) as [Hformat|Hformat].
  2:{ right. rewrite (proj2 (script_rejects_input env args w) Hexists Hformat).
      split; reflexivity. }
  rewrite (script_reaches_pipeline env args w Hexists Hformat).
  pose proof (only_transcribe_file env (Main.input_file args) (fresh_T w))
    as He.
  pose proof (ignores_output_frame _
                (ignores_transcribe_file env (Main.input_file args))
                (fresh_T w)) as [Fw _].
  destruct (AudioTranscriber.transcribe_file env (Main.input_file args)
              (fresh_T w)) as [[[|r rest]|e] m1]; cbn [fst snd] in *.
  - right. cbn. rewrite Fw. split; reflexivity.
  - unfold after_pipeline, AudioTranscriber.save_markdown_file.
    destruct (write_answer env (output_path_of args)) as [msg|msg|].
    + right. cbn. rewrite Fw. split; reflexivity.
    + right. cbn. rewrite Fw. split; reflexivity.
    + left. cbn. rewrite Fw. split; [reflexivity|eauto].
  - right. specialize (He e eq_refl).
    unfold Main.try_except_interrupt, raise.
    destruct e; try discriminate He; cbn; rewrite Fw; split; reflexivity.
Qed.

(* ===================================================================== *)
(** * Paths of staged uploads *)
(* ===================================================================== *)

Lemma rsplit_None (sep : N) (s : str) :
  rsplit sep s = None <-> sep ∉ s.
Proof.
  induction s as [|c r IH]; simpl.
  - split; [intros _; apply not_elem_of_nil|reflexivity].
  - rewrite not_elem_of_cons.
    destruct (rsplit sep r) as [[before after]|].
    + split; [discriminate|].
      intros [_ H]. apply IH in H. discriminate H.
    + destruct (N.eqb_spec c sep) as [->|Hc].
      * split; [discriminate|]. intros [H _]. contradiction H. reflexivity.
      * split; [|reflexivity]. intros _. split; [congruence|].
        apply IH. reflexivity.
Qed.

Lemma rsplit_Some (sep : N) (s before after : str) :
  rsplit sep s = Some (before, after)
  <-> s = before ++ sep :: after /\ sep ∉ after.
Proof.
  split.
  - revert before. induction s as [|c r IH]; intros before; simpl;
      [discriminate|].
    destruct (rsplit sep r) as [[b a]|] eqn:E.
    + intros [= <- <-]. destruct (IH b eq_refl) as [-> H].
      split; [reflexivity|exact H].
    + destruct (N.eqb_spec c sep) as [->|Hc]; [|discriminate].
      intros [= <- <-]. split; [reflexivity|].
      apply rsplit_None. exact E.
  - intros [-> Hafter]. induction before as [|c b IH]; simpl.
    + rewrite (proj2 (rsplit_None sep after) Hafter), N.eqb_refl.
      reflexivity.
    + rewrite IH. reflexivity.
Qed.

(** A decimal numeral consists of digits. *)
Lemma digits_from_digits (fuel : nat) :
  forall (n : N) (acc : str) (c : N),
    c ∈ digits_from fuel n acc -> (c ∈ acc) \/ (48 <= c <= 57)%N.
Proof.
  induction fuel as [|fuel IH]; intros n acc c; simpl; [tauto|].
  assert (Hd : (48 <= 48 + n mod 10 <= 57)%N).
  { pose proof (N.mod_upper_bound n 10 ltac:(lia)) as B.
    set (r := (n mod 10)%N) in *. clearbody r. lia. }
  destruct (n / 10 =? 0)%N.
  - rewrite elem_of_cons. intros [->|H]; [right; exact Hd|left; exact H].
  - intros H. apply IH in H. rewrite elem_of_cons in H.
    destruct H as [[->|H]|H]; [right; exact Hd|left; exact H|right; exact H].
Qed.

Lemma str_of_nat_digits (n : nat) (c : N) :
  c ∈ str_of_nat n -> (48 <= c <= 57)%N.
Proof.
  unfold str_of_nat, str_of_N. intros H.
  apply digits_from_digits in H. destruct H as [H|H]; [|exact H].
  apply elem_of_nil in H. contradiction.
Qed.

(** The name of a path holds no separator. *)
Lemma path_name_no_separator (path : str) : 47%N ∉ path_name path.
Proof.
  unfold path_name. destruct (rsplit 47 path) as [[dir name]|] eqn:E.
  - apply rsplit_Some in E. exact (proj2 E).
  - apply rsplit_None. exact E.
Qed.

(** A suffix is empty, or a dot followed by at least one character, with
    no further dot and no separator. *)
Lemma path_suffix_shape (path : str) :
  (path_suffix path = [])
  \/ exists after,
       path_suffix path = 46%N :: after
       /\ after <> [] /\ (46%N ∉ after) /\ (47%N ∉ after).
Proof.
  unfold path_suffix.
  pose proof (path_name_no_separator path) as Hsep.
  destruct (rsplit 46 (path_name path)) as [[before after]|] eqn:E;
    [|left; reflexivity].
  apply rsplit_Some in E. destruct E as [E Hdot].
  destruct before as [|b before]; [left; reflexivity|].
  destruct after as [|a after]; [left; reflexivity|].
  right. exists (a :: after). cbn [is_empty orb].
  split; [reflexivity|]. split; [discriminate|]. split; [exact Hdot|].
  intros H. apply Hsep. rewrite E.
  apply elem_of_app. right. apply elem_of_cons. right. exact H.
Qed.

(** A temporary name made with a suffix taken from a path has that
    suffix. *)
Lemma tmp_name_suffix (prefix : str) (path : str) (n : nat) :
  prefix <> [] -> (46%N ∉ prefix) -> (47%N ∉ prefix) ->
  path_suffix (tmp_name prefix (path_suffix path) n) = path_suffix path.
Proof.
  intros Hne Hdot Hsep.
  assert (Hdigits : forall c, c ∈ str_of_nat n -> c <> 46%N /\ c <> 47%N).
  { intros c H. apply str_of_nat_digits in H. lia. }
  assert (Hstem_dot : 46%N ∉ prefix ++ str_of_nat n).
  { rewrite elem_of_app. intros [H|H]; [exact (Hdot H)|].
    apply Hdigits in H. destruct H as [H _]. apply H. reflexivity. }
  assert (Hstem_sep : 47%N ∉ prefix ++ str_of_nat n).
  { rewrite elem_of_app. intros [H|H]; [exact (Hsep H)|].
    apply Hdigits in H. destruct H as [_ H]. apply H. reflexivity. }
  assert (Hstem_ne : is_empty (prefix ++ str_of_nat n) = false)
    by (destruct prefix; [contradiction Hne; reflexivity|reflexivity]).
  set (suffix := path_suffix path).
  assert (Hname : path_name (tmp_name prefix suffix n)
                  = (prefix ++ str_of_nat n) ++ suffix).
  { unfold path_name, tmp_name.
    replace (u"/tmp/" ++ prefix ++ str_of_nat n ++ suffix)
      with ([47; 116; 109; 112]%N ++ 47%N
              :: ((prefix ++ str_of_nat n) ++ suffix))
      by (rewrite <- (app_assoc prefix); reflexivity).
    rewrite (proj2 (rsplit_Some 47 _ [47; 116; 109; 112]%N
                      ((prefix ++ str_of_nat n) ++ suffix)));
      [reflexivity|].
    split; [reflexivity|].
    rewrite elem_of_app. intros [H|H]; [exact (Hstem_sep H)|].
    subst suffix.
    destruct (path_suffix_shape path) as [E|(after & E & _ & _ & Ha)];
      rewrite E in H.
    - apply elem_of_nil in H. exact H.
    - apply elem_of_cons in H. destruct H as [H|H]; [discriminate H|].
      exact (Ha H). }
  unfold path_suffix at 1. rewrite Hname. subst suffix.
  destruct (path_suffix_shape path) as [E|(after & E & Hafter & Hd & _)];
    rewrite E.
  - rewrite app_nil_r.
    rewrite (proj2 (rsplit_None 46 _) Hstem_dot). reflexivity.
  - rewrite (proj2 (rsplit_Some 46 _ (prefix ++ str_of_nat n) after));
      [|split; [reflexivity|exact Hd]].
    rewrite Hstem_ne. destruct after; [contradiction Hafter|]; reflexivity.
Qed.

(** X19.  Staging an upload creates a file whose suffix is the suffix of
    the uploaded file's name, so that the pipeline takes the staged file
    for a video exactly when the upload's name is a video's. *)
Theorem staged_upload_keeps_suffix (name : str)
    (m : Machine (Session AudioTranscriber.t)) :
  exists tmp_path,
    fst (stage_upload name m) = Ok tmp_path
    /\ tmp_path ∈ files (world (snd (stage_upload name m)))
    /\ path_suffix tmp_path = path_suffix name
    /\ is_video tmp_path = is_video name.
Proof.
  exists (staged_path name m).
  assert (E : path_suffix (staged_path name m) = path_suffix name).
  { unfold staged_path. apply tmp_name_suffix.
    - discriminate.
    - apply (bool_decide_unpack _). vm_compute. exact I.
    - apply (bool_decide_unpack _). vm_compute. exact I. }
  split; [reflexivity|]. split.
  - cbn. apply elem_of_union_l, elem_of_singleton. reflexivity.
  - split; [exact E|]. unfold is_video. rewrite E. reflexivity.
Qed.

(* ===================================================================== *)
(** * The files the pipeline leaves alone *)
(* ===================================================================== *)

Lemma preserves_bind_post {O X A B : Type} (view : Machine O -> X)
    (Q : A -> Prop) (c : M (Machine O) A) (k : A -> M (Machine O) B) :
  preserves view c ->
  (forall m a, fst (c m) = Ok a -> Q a) ->
  (forall a, Q a -> preserves view (k a)) ->
  preserves view (bind c k).
Proof.
  intros Hc Hq Hk m. unfold bind. specialize (Hc m). specialize (Hq m).
  destruct (c m) as [[a|e] m1]; simpl in *; [|exact Hc].
  rewrite (Hk a (Hq a eq_refl)). exact Hc.
Qed.

Lemma has_file_of_files {O A : Type} (p : str) (c : M (Machine O) A) :
  preserves files_view c -> preserves (has_file p) c.
Proof.
  intros H m. specialize (H m). unfold files_view in H.
  unfold has_file. injection H as -> _ _. reflexivity.
Qed.

Lemma has_file_mkstemp {O : Type} (p suffix prefix : str) :
  (forall n, p <> tmp_name prefix suffix n) ->
  preserves (O := O) (has_file p) (mkstemp suffix prefix).
Proof.
  intros Hp m. unfold has_file. cbn.
  apply bool_decide_ext. rewrite elem_of_union, elem_of_singleton.
  specialize (Hp (tmp_counter (world m))). tauto.
Qed.

Lemma mkstemp_returns {O : Type} (suffix prefix : str) (m : Machine O)
    (a : str) :
  fst (mkstemp suffix prefix m) = Ok a -> exists n, a = tmp_name prefix suffix n.
Proof. cbn. intros [= <-]. eauto. Qed.

Lemma has_file_unlink {O : Type} (p f : str) :
  f <> p -> preserves (O := O) (has_file p) (unlink f).
Proof.
  intros Hf m. unfold has_file.
  destruct (decide (f ∈ files (world m))) as [Hin|Hout].
  - rewrite (unlink_run f m Hin). cbn.
    apply bool_decide_ext. rewrite elem_of_difference, elem_of_singleton.
    split; [tauto|]. intros H. split; [exact H|congruence].
  - unfold unlink, bind, get_world.
    rewrite (bool_decide_eq_false_2 _ Hout). reflexivity.
Qed.

(** Deleting a file when it exists. *)
Lemma has_file_remove {O : Type} (p f : str) :
  f <> p ->
  preserves (O := O) (has_file p)
    (present <- exists_ f ;; if present then unlink f else ret tt).
Proof.
  intros Hf. apply preserves_bind; [apply preserves_exists_|intros present].
  destruct present; [apply has_file_unlink; exact Hf|apply preserves_ret].
Qed.

Lemma has_file_extract_audio_from_mp4 (env : Env) (mp4_path p : str) :
  (forall n, p <> tmp_name (u"extracted_audio_") (u".wav") n) ->
  preserves (has_file p) (AudioTranscriber.extract_audio_from_mp4 env mp4_path).
Proof.
  intros Hp. unfold AudioTranscriber.extract_audio_from_mp4.
  apply (preserves_bind_post _
           (fun a => exists n, a = tmp_name (u"extracted_audio_") (u".wav") n)).
  - apply has_file_mkstemp. exact Hp.
  - apply mkstemp_returns.
  - intros tmp [n ->]. apply preserves_try_except.
    + destruct (VideoFileClip env mp4_path);
        first [apply preserves_raise|apply preserves_ret].
    + intros e.
      apply preserves_bind; [apply preserves_exists_|intros present].
      apply preserves_bind; [|intros _; apply preserves_raise].
      destruct present; [|apply preserves_ret].
      apply has_file_unlink. intros E. exact (Hp n (eq_sym E)).
Qed.

Lemma extract_audio_from_mp4_returns (env : Env) (mp4_path : str)
    (m : Machine AudioTranscriber.t) (a : str) :
  fst (AudioTranscriber.extract_audio_from_mp4 env mp4_path m) = Ok a ->
  exists n, a = tmp_name (u"extracted_audio_") (u".wav") n.
Proof.
  intros H. pose proof (extract_audio_from_mp4_run env mp4_path m) as R.
  cbv zeta in R. rewrite H in R. destruct R as [-> _]. eauto.
Qed.

Lemma has_file_transcribe_file (env : Env) (path p : str) :
  (forall n, p <> tmp_name (u"extracted_audio_") (u".wav") n) ->
  preserves (has_file p) (AudioTranscriber.transcribe_file env path).
Proof.
  intros Hp. unfold AudioTranscriber.transcribe_file.
  apply preserves_bind;
    [apply has_file_of_files, preserves_files_load_models_T|intros _].
  assert (Hbody : forall audio_path,
            preserves (has_file p)
              (self <- get_self ;;
               callable (AudioTranscriber.diarization_pipeline self) ;;
               diarization_result <- of_outcome (diarize env audio_path) ;;
               AudioTranscriber.transcribe_loop env audio_path
                 diarization_result [])).
  { intros audio_path.
    apply preserves_bind; [apply preserves_get_self|intros o].
    apply preserves_bind; [apply preserves_callable|intros ?].
    apply preserves_bind; [apply preserves_of_outcome|intros tracks].
    apply has_file_of_files, preserves_files_transcribe_loop. }
  destruct (bool_decide _).
  - apply (preserves_bind_post _
             (fun prepared =>
                exists n, prepared
                          = (tmp_name (u"extracted_audio_") (u".wav") n,
                             Some (tmp_name (u"extracted_audio_") (u".wav") n)))).
    + apply preserves_bind; [|intros a; apply preserves_ret].
      apply has_file_extract_audio_from_mp4. exact Hp.
    + intros m prepared H.
      unfold bind in H.
      destruct (AudioTranscriber.extract_audio_from_mp4 env path m)
        as [[a|e] m1] eqn:E; [|discriminate H].
      cbn in H. injection H as H. subst prepared.
      destruct (extract_audio_from_mp4_returns env path m a) as [n ->];
        [rewrite E; reflexivity|eauto].
    + intros prepared [n ->].
      apply preserves_try_finally; [apply Hbody|].
      apply has_file_remove. intros E. exact (Hp n (eq_sym E)).
  - rewrite bind_ret_l.
    apply preserves_try_finally; [apply Hbody|apply preserves_ret].
Qed.

Lemma has_file_extract_audio_from_video (env : Env) (video_path p : str) :
  (forall n, p <> tmp_name (u"audio_") (u".wav") n) ->
  preserves (has_file p)
    (AudioProcessor.extract_audio_from_video env video_path).
Proof.
  intros Hp. unfold AudioProcessor.extract_audio_from_video.
  destruct (negb (MOVIEPY_AVAILABLE env)); [apply preserves_raise|].
  apply (preserves_bind_post _
           (fun a => exists n, a = tmp_name (u"audio_") (u".wav") n)).
  - apply has_file_mkstemp. exact Hp.
  - apply mkstemp_returns.
  - intros tmp [n ->]. apply preserves_try_except.
    + destruct (VideoFileClip env video_path);
        try apply preserves_raise.
      apply preserves_bind; [|intros _; apply preserves_ret].
      intros m. reflexivity.
    + intros e.
      apply preserves_bind; [apply preserves_exists_|intros present].
      apply preserves_bind; [|intros _; apply preserves_ret].
      destruct present; [|apply preserves_ret].
      apply has_file_unlink. intros E. exact (Hp n (eq_sym E)).
Qed.

Lemma has_file_process_file (env : Env) (path p : str) :
  (forall n, p <> tmp_name (u"audio_") (u".wav") n) ->
  preserves (has_file p) (AudioProcessor.process_file env path).
Proof.
  intros Hp. unfold AudioProcessor.process_file.
  apply preserves_bind; [apply preserves_get_self|intros o].
  apply preserves_bind.
  { destruct (AudioProcessor.pipeline o); [apply preserves_ret|].
    apply has_file_of_files, preserves_files_load_models_P. }
  intros _.
  apply preserves_bind.
  { destruct (bool_decide _); [|apply preserves_ret].
    apply preserves_bind;
      [apply has_file_extract_audio_from_video; exact Hp|intros extracted].
    destruct extracted; [apply preserves_ret|apply preserves_raise]. }
  intros audio_path.
  apply preserves_bind; [apply preserves_get_self|intros o'].
  apply preserves_bind; [apply preserves_callable|intros ?].
  apply preserves_bind; [apply preserves_of_outcome|intros tracks].
  apply has_file_of_files, preserves_files_process_loop.
Qed.

(** Temporary names made with different prefixes are different names. *)
Lemma staged_is_no_extracted_audio (suffix : str) (k n : nat) :
  tmp_name (u"tmp") suffix k <> tmp_name (u"extracted_audio_") (u".wav") n
  /\ tmp_name (u"tmp") suffix k <> tmp_name (u"audio_") (u".wav") n.
Proof.
  unfold tmp_name.
  change (u"/tmp/") with [47; 116; 109; 112; 47]%N.
  change (u"tmp") with [116; 109; 112]%N.
  change (u"extracted_audio_") with (101%N :: u"xtracted_audio_").
  change (u"audio_") with (97%N :: u"udio_").
  cbn [app]. split; intros H; discriminate H.
Qed.



(* ===================================================================== *)
(** * The handlers of the start button *)
(* ===================================================================== *)

Lemma staged_survives_T (env : Env) (name : str)
    (m : Machine (Session AudioTranscriber.t)) :
  staged_path name m
    ∈ files (world (snd (AudioTranscriber.transcribe_file env
                           (staged_path name m) (after_staging name m)))).
Proof.
  pose proof (has_file_transcribe_file env (staged_path name m)
                (staged_path name m)
                (fun n => proj1 (staged_is_no_extracted_audio _ _ n))
                (after_staging name m)) as H.
  unfold has_file in H. apply (bool_decide_unpack _). rewrite H.
  apply bool_decide_pack. cbn.
  apply elem_of_union_l, elem_of_singleton. reflexivity.
Qed.

Lemma staged_survives_P (env : Env) (name : str)
    (m : Machine (Session AudioProcessor.t)) :
  staged_path name m
    ∈ files (world (snd (AudioProcessor.process_file env
                           (staged_path name m) (after_staging name m)))).
Proof.
  pose proof (has_file_process_file env (staged_path name m)
                (staged_path name m)
                (fun n => proj2 (staged_is_no_extracted_audio _ _ n))
                (after_staging name m)) as H.
  unfold has_file in H. apply (bool_decide_unpack _). rewrite H.
  apply bool_decide_pack. cbn.
  apply elem_of_union_l, elem_of_singleton. reflexivity.
Qed.

Lemma process_uploaded_file_run (env : Env) (name : str)
    (m : Machine (Session AudioTranscriber.t)) :
  let tmp_path := staged_path name m in
  let run := AudioTranscriber.transcribe_file env tmp_path
               (after_staging name m) in
  let page := set_status_text None
                (set_progress_bar None
                   (set_orchestrator (self (snd run)) (self m))) in
  let deleted := set_unlink_log (cons tmp_path)
                   (set_files (fun fs => fs ∖ {[tmp_path]})
                      (world (snd run))) in
  WebApp.process_uploaded_file env name m
  = (Ok tt,
     match fst run with
     | Ok [] =>
       {| self := set_messages
                    (cons (st_error, u"❌ 文字起こし結果が得られませんでした"))
                    page;
          world := world (snd run) |}
     | Ok (r :: rest) =>
       {| self := set_balloons Datatypes.S
                    (set_original_filename (Some name)
                       (set_markdown_result
                          (Some (AudioTranscriber.create_markdown_report env
                                   (r :: rest) name))
                          (set_transcription_results (Some (r :: rest))
                             page)));
          world := deleted |}
     | Raise e =>
       {| self := set_messages
                    (cons (st_error, u"❌ エラーが発生しました: " ++ exn_str e))
                    page;
          world := deleted |}
     end).
Proof.
  intros tmp_path run page deleted.
  pose proof (staged_survives_T env name m) as Hin.
  pose proof (only_transcribe_file env tmp_path (after_staging name m)) as Hexn.
  fold tmp_path in Hin. fold run in Hin, Hexn.
  unfold WebApp.process_uploaded_file.
  cbv beta iota delta [bind try_finally try_except st_placeholders st_text
                       st_progress stage_upload mkstemp get_world with_world
                       with_self modify ret in_session st_show st_balloons
                       st_clear on_processing_error exists_].
  cbn [self world fst snd].
  match goal with
  | |- context [AudioTranscriber.transcribe_file env ?a ?b] =>
    change (AudioTranscriber.transcribe_file env a b) with run
  end.
  subst page deleted. clearbody run.
  unfold tmp_path, staged_path in *. clear tmp_path.
  destruct run as [[[|r rest]|e] m1]; cbn [fst snd] in *.
  - reflexivity.
  - rewrite unlink_run by exact Hin. reflexivity.
  - rewrite (Hexn e eq_refl). cbn [self world].
    rewrite (bool_decide_eq_true_2 _ Hin).
    rewrite unlink_run by exact Hin. reflexivity.
Qed.

Lemma app_process_file_run (env : Env) (name : str)
    (m : Machine (Session AudioProcessor.t)) :
  let tmp_path := staged_path name m in
  let run := AudioProcessor.process_file env tmp_path
               (after_staging name m) in
  let page := set_status_text None
                (set_progress_bar None
                   (set_orchestrator (self (snd run)) (self m))) in
  let deleted := set_unlink_log (cons tmp_path)
                   (set_files (fun fs => fs ∖ {[tmp_path]})
                      (world (snd run))) in
  App.process_file env name m
  = (Ok tt,
     match fst run with
     | Ok [] =>
       {| self := set_messages
                    (cons (st_error, u"❌ 文字起こし結果が得られませんでした"))
                    page;
          world := world (snd run) |}
     | Ok (r :: rest) =>
       {| self := set_messages
                    (cons (st_success,
                           u"🎉 " ++ str_of_nat (length (r :: rest))
                             ++ u"個のセグメントを処理しました！"))
                    (set_original_filename (Some name)
                       (set_markdown_result
                          (Some (AudioProcessor.results_to_markdown env
                                   (r :: rest) name))
                          page));
          world := deleted |}
     | Raise e =>
       {| self := set_messages
                    (cons (st_error, u"❌ エラーが発生しました: " ++ exn_str e))
                    page;
          world := deleted |}
     end).
Proof.
  intros tmp_path run page deleted.
  pose proof (staged_survives_P env name m) as Hin.
  pose proof (only_process_file env tmp_path (after_staging name m)) as Hexn.
  fold tmp_path in Hin. fold run in Hin, Hexn.
  unfold App.process_file.
  cbv beta iota delta [bind try_finally try_except st_placeholders st_text
                       st_progress stage_upload mkstemp get_world with_world
                       with_self modify ret in_session st_show st_balloons
                       st_clear on_processing_error exists_].
  cbn [self world fst snd].
  match goal with
  | |- context [AudioProcessor.process_file env ?a ?b] =>
    change (AudioProcessor.process_file env a b) with run
  end.
  subst page deleted. clearbody run.
  unfold tmp_path, staged_path in *. clear tmp_path.
  destruct run as [[[|r rest]|e] m1]; cbn [fst snd] in *.
  - reflexivity.
  - rewrite unlink_run by exact Hin. reflexivity.
  - rewrite (Hexn e eq_refl). cbn [self world].
    rewrite (bool_decide_eq_true_2 _ Hin).
    rewrite unlink_run by exact Hin. reflexivity.
Qed.

Lemma not_in_after_delete (p : str) (w : World) :
  p ∉ files (set_unlink_log (cons p) (set_files (fun fs => fs ∖ {[p]}) w)).
Proof.
  cbn. rewrite elem_of_difference, elem_of_singleton. tauto.
Qed.

(** X21.  Both handlers of the start button return normally whatever the
    pipeline does, and leave the progress bar and the status text
    cleared: no exception of the pipeline reaches their caller. *)
Theorem handlers_always_return (env : Env) (name : str) :
  (forall m,
      fst (WebApp.process_uploaded_file env name m) = Ok tt
      /\ progress_bar (self (snd (WebApp.process_uploaded_file env name m)))
         = None
      /\ status_text (self (snd (WebApp.process_uploaded_file env name m)))
         = None)
  /\ (forall m,
         fst (App.process_file env name m) = Ok tt
         /\ progress_bar (self (snd (App.process_file env name m))) = None
         /\ status_text (self (snd (App.process_file env name m))) = None).
Proof.
  split; intros m.
  - rewrite process_uploaded_file_run. cbv zeta. cbn [fst snd].
    split; [reflexivity|].
    destruct (fst (AudioTranscriber.transcribe_file env _ _)) as [[|r rest]|e];
      split; reflexivity.
  - rewrite app_process_file_run. cbv zeta. cbn [fst snd].
    split; [reflexivity|].
    destruct (fst (AudioProcessor.process_file env _ _)) as [[|r rest]|e];
      split; reflexivity.
Qed.

(** X22.  What [process_uploaded_file] leaves behind, by the outcome of
    the pipeline on the staged upload.  On an empty result the result
    fields of the session are untouched, an error is shown, and the
    staged file is still there; on a result that is not empty the three
    result fields are set and the staged file is deleted; on an exception
    the result fields are untouched, the error shown carries the
    exception's message, and the staged file is deleted. *)
Theorem process_uploaded_file_outcomes (env : Env) (name : str)
    (m : Machine (Session AudioTranscriber.t)) :
  let tmp_path := staged_path name m in
  let after := snd (WebApp.process_uploaded_file env name m) in
  match fst (AudioTranscriber.transcribe_file env tmp_path
               (after_staging name m)) with
  | Ok [] =>
    tmp_path ∈ files (world after)
    /\ stored (self after) = stored (self m)
    /\ messages (self after)
       = (st_error, u"❌ 文字起こし結果が得られませんでした")
           :: messages (self m)
  | Ok results =>
    (tmp_path ∉ files (world after))
    /\ stored (self after)
       = (Some results,
          Some (AudioTranscriber.create_markdown_report env results name),
          Some name)
    /\ messages (self after) = messages (self m)
  | Raise e =>
    (tmp_path ∉ files (world after))
    /\ stored (self after) = stored (self m)
    /\ messages (self after)
       = (st_error, u"❌ エラーが発生しました: " ++ exn_str e)
           :: messages (self m)
  end.
Proof.
  intros tmp_path after. subst after.
  rewrite process_uploaded_file_run. cbv zeta. cbn [snd].
  pose proof (staged_survives_T env name m) as Hin.
  fold tmp_path in Hin |- *.
  destruct (AudioTranscriber.transcribe_file env tmp_path
              (after_staging name m)) as [[[|r rest]|e] m1];
    cbn [fst snd] in *.
  - split; [exact Hin|]. split; reflexivity.
  - split; [apply not_in_after_delete|]. split; reflexivity.
  - split; [apply not_in_after_delete|]. split; reflexivity.
Qed.

(** X23.  What [process_file] of app.py leaves behind, by the outcome of
    the pipeline on the staged upload: as for [process_uploaded_file],
    except that a result that is not empty sets two result fields, the
    report and the file name, and shows the number of segments. *)
Theorem app_process_file_outcomes (env : Env) (name : str)
    (m : Machine (Session AudioProcessor.t)) :
  let tmp_path := staged_path name m in
  let after := snd (App.process_file env name m) in
  match fst (AudioProcessor.process_file env tmp_path
               (after_staging name m)) with
  | Ok [] =>
    tmp_path ∈ files (world after)
    /\ stored (self after) = stored (self m)
    /\ messages (self after)
       = (st_error, u"❌ 文字起こし結果が得られませんでした")
           :: messages (self m)
  | Ok results =>
    (tmp_path ∉ files (world after))
    /\ stored (self after)
       = (transcription_results (self m),
          Some (AudioProcessor.results_to_markdown env results name),
          Some name)
    /\ messages (self after)
       = (st_success,
          u"🎉 " ++ str_of_nat (length results)
            ++ u"個のセグメントを処理しました！") :: messages (self m)
  | Raise e =>
    (tmp_path ∉ files (world after))
    /\ stored (self after) = stored (self m)
    /\ messages (self after)
       = (st_error, u"❌ エラーが発生しました: " ++ exn_str e)
           :: messages (self m)
  end.
Proof.
  intros tmp_path after. subst after.
  rewrite app_process_file_run. cbv zeta. cbn [snd].
  pose proof (staged_survives_P env name m) as Hin.
  fold tmp_path in Hin |- *.
  destruct (AudioProcessor.process_file env tmp_path
              (after_staging name m)) as [[[|r rest]|e] m1];
    cbn [fst snd] in *.
  - split; [exact Hin|]. split; reflexivity.
  - split; [apply not_in_after_delete|]. split; reflexivity.
  - split; [apply not_in_after_delete|]. split; reflexivity.
Qed.

(** The handlers on an upload in which nothing is heard: the staged copy
    of the upload is left in the temporary directory. *)
Example staged_upload_left_behind :
  let m := {| self := new_session AudioTranscriber.__init__;
              world := empty_world |} in
  let after := snd (WebApp.process_uploaded_file silence_env
                      (u"meeting.wav") m) in
  elements (files (world after)) = [u"/tmp/tmp0.wav"]
  /\ unlink_log (world after) = []
  /\ markdown_result (self after) = None.
Proof. cbn zeta. repeat apply conj; vm_compute; reflexivity. Qed.

(* ===================================================================== *)
(** * The files of the command line *)
(* ===================================================================== *)



(* ===================================================================== *)
(** * Names of the outputs *)
(* ===================================================================== *)

(** X25.  For an input [dir/stem.ext] the default output of the command
    line is [dir/stem_transcript.md], beside the input; for an input
    without directory it is [stem_transcript.md], which is also the name
    both pages offer for the download of an upload of that name. *)
Theorem default_output_beside_input (dir stem ext : str)
    (Hstem : stem <> []) (Hext : ext <> [])
    (Hstem_sep : 47%N ∉ stem) (Hext_sep : 47%N ∉ ext)
    (Hext_dot : 46%N ∉ ext) :
  Main.default_output (dir ++ 47%N :: stem ++ 46%N :: ext)
  = dir ++ 47%N :: stem ++ u"_transcript.md"
  /\ Main.default_output (stem ++ 46%N :: ext) = stem ++ u"_transcript.md"
  /\ download_name (stem ++ 46%N :: ext) = stem ++ u"_transcript.md".
Proof.
  assert (Hname : 47%N ∉ stem ++ 46%N :: ext).
  { rewrite elem_of_app, elem_of_cons.
    intros [H|[H|H]]; [exact (Hstem_sep H)|discriminate H|exact (Hext_sep H)]. }
  assert (Hsplit : rsplit 46 (stem ++ 46%N :: ext) = Some (stem, ext))
    by (apply rsplit_Some; split; [reflexivity|exact Hext_dot]).
  assert (Hstem' : is_empty stem = false)
    by (destruct stem; [contradiction Hstem|]; reflexivity).
  assert (Hext' : is_empty ext = false)
    by (destruct ext; [contradiction Hext|]; reflexivity).
  assert (Hbare : path_stem (stem ++ 46%N :: ext) = stem
                  /\ path_dir (stem ++ 46%N :: ext) = []).
  { unfold path_stem, path_dir, path_name.
    rewrite (proj2 (rsplit_None 47 _) Hname), Hsplit, Hstem', Hext'.
    split; reflexivity. }
  destruct Hbare as [Hs Hd].
  split; [|split].
  - unfold Main.default_output, path_stem, path_dir, path_name.
    rewrite (proj2 (rsplit_Some 47 _ dir (stem ++ 46%N :: ext)));
      [|split; [reflexivity|exact Hname]].
    rewrite Hsplit, Hstem', Hext'. cbn [orb].
    rewrite <- app_assoc. reflexivity.
  - unfold Main.default_output. rewrite Hs, Hd. reflexivity.
  - unfold download_name. rewrite Hs. reflexivity.
Qed.

Lemma default_output_beside_input_witness :
  u"meeting" <> [] /\ u"mp4" <> []
  /\ Main.default_output (u"talks" ++ 47%N :: u"meeting" ++ 46%N :: u"mp4")
     = u"talks" ++ 47%N :: u"meeting" ++ u"_transcript.md".
Proof.
  assert (H1 : u"meeting" <> []) by (vm_compute; discriminate).
  assert (H2 : u"mp4" <> []) by (vm_compute; discriminate).
  split; [exact H1|]. split; [exact H2|].
  refine (proj1 (default_output_beside_input (u"talks") (u"meeting") (u"mp4")
                   H1 H2 _ _ _));
    apply (bool_decide_unpack _); vm_compute; exact I.
Defined.

(* ===================================================================== *)
(** * The lines of a report *)
(* ===================================================================== *)

Lemma newlines_app (a b : str) :
  newlines (a ++ b) = (newlines a + newlines b)%nat.
Proof.
  induction a as [|c a IH]; simpl; [reflexivity|]. rewrite IH.
  destruct (c =? 10)%N; reflexivity.
Qed.

Lemma newlines_join (lines : list str) :
  Forall (fun l => newlines l = 0%nat) lines ->
  newlines (join newline lines) = pred (length lines).
Proof.
  induction 1 as [|l rest Hl Hrest IH]; [reflexivity|].
  destruct rest as [|l' rest]; [exact Hl|].
  change (join newline (l :: l' :: rest))
    with (l ++ newline ++ join newline (l' :: rest)).
  rewrite !newlines_app, IH, Hl. reflexivity.
Qed.

Lemma newlines_str_of_nat (n : nat) : newlines (str_of_nat n) = 0%nat.
Proof.
  pose proof (str_of_nat_digits n) as H.
  induction (str_of_nat n) as [|c s IH]; [reflexivity|].
  simpl. rewrite IH by (intros d Hd; apply H; right; exact Hd).
  assert (Hc : (48 <= c <= 57)%N) by (apply H; left).
  destruct (N.eqb_spec c 10); [lia|reflexivity].
Qed.

Lemma entry_lines_length {X : Type} (f : X -> list str) (results : list X) :
  (forall r, length (f r) = 3%nat) ->
  length (flat_map f results) = (3 * length results)%nat.
Proof.
  intros Hf. induction results as [|r rest IH]; [reflexivity|].
  cbn [flat_map]. rewrite length_app, Hf, IH. simpl. lia.
Qed.

Lemma entry_lines_single {X : Type} (f : X -> list str) (ok : X -> Prop)
    (results : list X) :
  (forall r, ok r -> Forall (fun l => newlines l = 0%nat) (f r)) ->
  Forall ok results ->
  Forall (fun l => newlines l = 0%nat) (flat_map f results).
Proof.
  intros Hf. induction 1 as [|r rest Hr Hrest IH]; [constructor|].
  cbn [flat_map]. apply Forall_app. split; [exact (Hf r Hr)|exact IH].
Qed.

Ltac single_line :=
  repeat first
    [ rewrite newlines_app | rewrite newlines_str_of_nat ];
  repeat match goal with
         | H : newlines _ = 0%nat |- _ => rewrite H
         end;
  vm_compute; reflexivity.

(** X26.  When neither the file name, nor the time stamp, nor a field of
    an entry holds a newline, the report of [create_markdown_report] has
    eleven lines of heading and three lines for each entry, and the one
    of [results_to_markdown] nine and three. *)
Theorem report_line_count (env : Env) (results : list TranscriptSegment)
    (input_filename : str)
    (Hname : newlines input_filename = 0%nat)
    (Hnow : newlines (now env) = 0%nat)
    (Hentries : Forall single_line_entry results) :
  line_count (AudioTranscriber.create_markdown_report env results
                input_filename)
  = (11 + 3 * length results)%nat
  /\ line_count (AudioProcessor.results_to_markdown env results
                   input_filename)
     = (9 + 3 * length results)%nat.
Proof.
  unfold line_count, AudioTranscriber.create_markdown_report,
    AudioProcessor.results_to_markdown.
  split.
  - rewrite newlines_join.
    + unfold AudioTranscriber.markdown_lines.
      rewrite length_app, entry_lines_length by reflexivity. reflexivity.
    + unfold AudioTranscriber.markdown_lines. apply Forall_app. split.
      * repeat (apply List.Forall_cons; [single_line|]). apply List.Forall_nil.
      * apply (entry_lines_single _ single_line_entry); [|exact Hentries].
        intros r (H1 & H2 & H3 & H4).
        repeat (apply List.Forall_cons; [single_line|]). apply List.Forall_nil.
  - rewrite newlines_join.
    + unfold AudioProcessor.markdown_lines.
      rewrite length_app, entry_lines_length by reflexivity. reflexivity.
    + unfold AudioProcessor.markdown_lines. apply Forall_app. split.
      * repeat (apply List.Forall_cons; [single_line|]). apply List.Forall_nil.
      * apply (entry_lines_single _ single_line_entry); [|exact Hentries].
        intros r (H1 & H2 & H3 & H4).
        repeat (apply List.Forall_cons; [single_line|]). apply List.Forall_nil.
Qed.

Lemma report_line_count_witness :
  newlines (u"meeting.wav") = 0%nat
  /\ newlines (now demo_env) = 0%nat
  /\ Forall single_line_entry [greeting_T; answer_T]
  /\ line_count (AudioTranscriber.create_markdown_report demo_env
                   [greeting_T; answer_T] (u"meeting.wav")) = 17%nat.
Proof.
  assert (H1 : newlines (u"meeting.wav") = 0%nat) by (vm_compute; reflexivity).
  assert (H2 : newlines (now demo_env) = 0%nat) by (vm_compute; reflexivity).
  assert (H3 : Forall single_line_entry [greeting_T; answer_T]).
  { repeat apply List.Forall_cons; [| |apply List.Forall_nil];
      repeat apply conj; vm_compute; reflexivity. }
  split; [exact H1|]. split; [exact H2|]. split; [exact H3|].
  exact (proj1 (report_line_count demo_env [greeting_T; answer_T]
                  (u"meeting.wav") H1 H2 H3)).
Defined.

(* ===================================================================== *)
(** * The temporary audio file, on concrete runs *)
(* ===================================================================== *)

Lemma transcribe_file_removes_temp_file_witness :
  lower (path_suffix (u"lecture.mp4"))
    ∈ [u".mp4"; u".avi"; u".mov"; u".mkv"; u".webm"]
  /\ fst (AudioTranscriber._load_models crop_fails_env
            (fresh_T meeting_world)) = Ok tt
  /\ unlink_log (world (snd (AudioTranscriber.transcribe_file crop_fails_env
                               (u"lecture.mp4") (fresh_T meeting_world))))
     = [u"/tmp/extracted_audio_0.wav"].
Proof.
  assert (H1 : lower (path_suffix (u"lecture.mp4"))
                 ∈ [u".mp4"; u".avi"; u".mov"; u".mkv"; u".webm"])
    by (apply (bool_decide_unpack _); vm_compute; exact I).
  assert (H2 : fst (AudioTranscriber._load_models crop_fails_env
                      (fresh_T meeting_world)) = Ok tt)
    by (vm_compute; reflexivity).
  split; [exact H1|]. split; [exact H2|].
  exact (proj1 (transcribe_file_removes_temp_file crop_fails_env
                  (u"lecture.mp4") (fresh_T meeting_world) H1 H2)).
Defined.

Lemma transcribe_file_load_failure_witness :
  fst (AudioTranscriber._load_models model_fails_env (fresh_T meeting_world))
  = Raise (ModelError (u"download failed"))
  /\ fst (AudioTranscriber.transcribe_file model_fails_env (u"lecture.mp4")
            (fresh_T meeting_world))
     = Raise (ModelError (u"download failed")).
Proof.
  assert (H : fst (AudioTranscriber._load_models model_fails_env
                     (fresh_T meeting_world))
              = Raise (ModelError (u"download failed")))
    by (vm_compute; reflexivity).
  split; [exact H|].
  exact (proj1 (transcribe_file_load_failure model_fails_env (u"lecture.mp4")
                  (fresh_T meeting_world) _ H)).
Defined.
